(** * Custom-DiscordRPC: the activity tracker and its connection manager

    A shallow embedding of [windows/src/index.ts].  That file comes in two
    variants (an earlier, third one, without a file name, is not embedded):

    - the single-application variant (one client id, a fixed 15 s reconnect
      delay), embedded as [Module Single];
    - the multi-application variant (one client id per application category,
      debounced client switching, reconnect with backoff), embedded as
      [Module Multi].

    Strings are [string]s of 8-bit code units, which is what the code sees for
    window titles, process names and rule texts within U+0000 to U+00FF.
    [toLowerCase], [trim] and the regular expressions are embedded for all
    of these code units; [toUpperCase], used on the first letter of an
    activity type, for all but U+00B5, U+00DF and U+00FF, whose capitals are
    not single code units of this range.  Text beyond U+00FF is not
    embedded.  [Date.now()] is an input of every callback; a
    callback runs to completion at one instant.  Everything the operating
    system or the Discord transport decides (the foreground window, CPU and
    memory load, the host name, whether a login succeeds, which events the
    client emits) is an input of the step that consumes it.  An awaited
    [login] is settled within the step that issues it; the clock read after
    the [await] is an input of its own. *)

From Stdlib Require Import ZArith QArith Qminmax Ascii String List Lia Bool.
From stdpp Require Import gmap strings pretty.

(** ** Strings as the JavaScript runtime handles them *)

Module Js.

(** [toLowerCase] on one code unit: A to Z, and the capital letters of
    Latin-1 (U+00C0 to U+00DE without the multiplication sign U+00D7). *)
Definition lowerChar (c : ascii) : ascii :=
  let n := N_of_ascii c in
  if ((65 <=? n) && (n <=? 90)
      || (192 <=? n) && (n <=? 222) && negb (n =? 215))%N
  then ascii_of_N (n + 32) else c.

(** [toUpperCase] on one code unit: a to z, and the small letters of Latin-1
    whose capital is a Latin-1 code unit (U+00E0 to U+00FE without the
    division sign U+00F7). *)
Definition upperChar (c : ascii) : ascii :=
  let n := N_of_ascii c in
  if ((97 <=? n) && (n <=? 122)
      || (224 <=? n) && (n <=? 254) && negb (n =? 247))%N
  then ascii_of_N (n - 32) else c.

Fixpoint toLowerCase (s : string) : string :=
  match s with
  | EmptyString => EmptyString
  | String c s' => String (lowerChar c) (toLowerCase s')
  end.

(** [s.includes(sub)] *)
Fixpoint includes (s sub : string) : bool :=
  if String.prefix sub s then true
  else match s with
       | EmptyString => false
       | String _ s' => includes s' sub
       end.

(** White space and line terminators, which [trim()] strips and [\s]
    matches: TAB, LF, VT, FF, CR, SPACE and the no-break space U+00A0. *)
Definition isWhiteSpace (c : ascii) : bool :=
  let n := N_of_ascii c in
  (((9 <=? n) && (n <=? 13)) || (n =? 32) || (n =? 160))%N.

Fixpoint trimStart (s : string) : string :=
  match s with
  | EmptyString => EmptyString
  | String c s' => if isWhiteSpace c then trimStart s' else s
  end.

Definition trimEnd (s : string) : string :=
  String.rev (trimStart (String.rev s)).

Definition trim (s : string) : string := trimEnd (trimStart s).

(** [s.split(sep)] for a non-empty separator.  [skip] counts the code units
    of a separator just recognised that are still to be passed over. *)
Fixpoint splitGo (sep : string) (skip : nat) (cur : string) (s : string)
  : list string :=
  match s with
  | EmptyString => [cur]
  | String c s' =>
      match skip with
      | S k => splitGo sep k cur s'
      | O =>
          if String.prefix sep s
          then cur :: splitGo sep (String.length sep - 1) EmptyString s'
          else splitGo sep 0 (cur +:+ String c EmptyString) s'
      end
  end.

Definition split (sep s : string) : list string := splitGo sep 0 EmptyString s.

(** [s.replace(pat, "")] for a non-empty string pattern: the first
    occurrence is removed. *)
Fixpoint removeGo (pat : string) (skip : nat) (done : bool) (s : string)
  : string :=
  match s with
  | EmptyString => EmptyString
  | String c s' =>
      match skip with
      | S k => removeGo pat k done s'
      | O =>
          if negb done && String.prefix pat s
          then removeGo pat (String.length pat - 1) true s'
          else String c (removeGo pat 0 done s')
      end
  end.

Definition removeFirst (pat s : string) : string := removeGo pat 0 false s.

(** [s.substring(0, n)] *)
Definition substring0 (n : nat) (s : string) : string := String.substring 0 n s.

(** [s.charAt(0).toUpperCase() + s.slice(1)] *)
Definition capitalize (s : string) : string :=
  match s with
  | EmptyString => EmptyString
  | String c s' => String (upperChar c) s'
  end.

(** Truthiness of a string: non-empty. *)
Definition truthy (s : string) : bool :=
  match s with EmptyString => false | _ => true end.

(** [a || b] on strings. *)
Definition orElse (a b : string) : string := if truthy a then a else b.

(** An integer-valued number inside a template literal. *)
Definition num (z : Z) : string := pretty z.

(** [parts[i]] inside a template literal prints [undefined] past the end;
    every use in the code is guarded by [parts.length]. *)
Definition at_ (parts : list string) (i : nat) : string :=
  nth i parts "undefined".

End Js.

(** ** The regular expressions of the code

    The patterns used are sequences of literals, one-character classes under
    a quantifier (greedy or lazy, captured or not) and the end anchor.  The
    matcher backtracks in the order ECMAScript prescribes: leftmost start,
    a greedy quantifier tries the longest repetition first, a lazy one the
    shortest. *)

Module Regex.

Inductive item : Type :=
| Lit (ignoreCase : bool) (s : string)
| Rep (greedy : bool) (lo : nat) (hi : option nat) (cls : ascii -> bool)
      (capture : bool)
| EndAnchor.

Definition regex := list item.

(** [.] : anything but a line terminator. *)
Definition dot (c : ascii) : bool :=
  let n := N_of_ascii c in negb ((n =? 10) || (n =? 13))%N.

Definition notChar (x : ascii) (c : ascii) : bool := negb (Ascii.eqb c x).
Definition isChar (x : ascii) (c : ascii) : bool := Ascii.eqb c x.

Fixpoint stripPrefix (ignoreCase : bool) (l s : string) : option string :=
  match l, s with
  | EmptyString, _ => Some s
  | String a l', String b s' =>
      if (if ignoreCase
          then Ascii.eqb (Js.lowerChar a) (Js.lowerChar b)
          else Ascii.eqb a b)
      then stripPrefix ignoreCase l' s'
      else None
  | String _ _, EmptyString => None
  end.

Definition below (hi : option nat) (n : nat) : bool :=
  match hi with
  | None => true
  | Some h => Nat.ltb n h
  end.

Definition orTry {A} (x : option A) (y : unit -> option A) : option A :=
  match x with
  | Some r => Some r
  | None => y tt
  end.

(** One quantified class.  [acc] holds the [n] code units taken so far,
    [k] matches the rest of the pattern. *)
Fixpoint rep (greedy : bool) (lo : nat) (hi : option nat)
    (cls : ascii -> bool) (capture : bool)
    (k : string -> option (list string))
    (acc : string) (n : nat) (s : string) : option (list string) :=
  let stop (_ : unit) :=
    if Nat.leb lo n
    then match k s with
         | Some caps => Some (if capture then acc :: caps else caps)
         | None => None
         end
    else None in
  let more (_ : unit) :=
    match s with
    | String c s' =>
        if cls c && below hi n
        then rep greedy lo hi cls capture k
               (acc +:+ String c EmptyString) (S n) s'
        else None
    | EmptyString => None
    end in
  if greedy then orTry (more tt) stop else orTry (stop tt) more.

Fixpoint matchHere (r : regex) : string -> option (list string) :=
  match r with
  | [] => fun _ => Some []
  | Lit ci l :: r' =>
      fun s =>
        match stripPrefix ci l s with
        | Some rest => matchHere r' rest
        | None => None
        end
  | Rep g lo hi cls cap :: r' =>
      fun s => rep g lo hi cls cap (matchHere r') EmptyString 0 s
  | EndAnchor :: r' =>
      fun s =>
        match s with
        | EmptyString => matchHere r' EmptyString
        | String _ _ => None
        end
  end.

(** [s.match(r)] without the [g] flag: the captures of the first match. *)
Fixpoint search (r : regex) (s : string) : option (list string) :=
  match matchHere r s with
  | Some caps => Some caps
  | None =>
      match s with
      | EmptyString => None
      | String _ s' => search r s'
      end
  end.

Definition group (caps : list string) (i : nat) : string :=
  nth (i - 1) caps EmptyString.

Definition plus (greedy : bool) (cls : ascii -> bool) : item :=
  Rep greedy 1 None cls true.

End Regex.

(** ** [formatDuration], the same in both variants *)

Definition formatDuration (milliseconds : Z) : string :=
  let seconds := (milliseconds / 1000)%Z in
  let minutes := (seconds / 60)%Z in
  let hours := (minutes / 60)%Z in
  if (0 <? hours)%Z
  then Js.num hours +:+ "h " +:+ Js.num (Z.rem minutes 60) +:+ "m"
  else if (0 <? minutes)%Z
  then Js.num minutes +:+ "m " +:+ Js.num (Z.rem seconds 60) +:+ "s"
  else Js.num seconds +:+ "s".

(** ** Data shared by the two variants *)

(** An entry of [priorityApps] or [customApps] in config.json. *)
Module Rule.
Record t : Type := mk {
  processName : string;
  type : string;
  icon : string;
  details : string
}.
End Rule.

(** The local variables of [getCurrentActivity] that classification sets. *)
Module Vars.
Record t : Type := mk {
  activityType : string;
  largeImageKey : string;
  details : string;
  state : string;
  matchedApp : bool
}.

Definition setState (x : string) (v : t) : t :=
  mk (activityType v) (largeImageKey v) (details v) x (matchedApp v).
Definition setDetails (x : string) (v : t) : t :=
  mk (activityType v) (largeImageKey v) x (state v) (matchedApp v).
Definition setLargeImageKey (x : string) (v : t) : t :=
  mk (activityType v) x (details v) (state v) (matchedApp v).
Definition setActivityType (x : string) (v : t) : t :=
  mk x (largeImageKey v) (details v) (state v) (matchedApp v).
Definition setMatchedApp (x : bool) (v : t) : t :=
  mk (activityType v) (largeImageKey v) (details v) (state v) x.
End Vars.

(** [interface ActivityData] *)
Module ActivityData.
Record t : Type := mk {
  details : string;
  state : string;
  largeImageKey : string;
  largeImageText : string;
  smallImageKey : option string;
  smallImageText : option string;
  startTimestamp : option Z;
  buttons : list (string * string)
}.
End ActivityData.

(** What the PowerShell script printed, after [JSON.parse]. *)
Record ActiveWindow : Type := {
  MainWindowTitle : string;
  ProcessName : string
}.

(** What one poll reads from its environment.  [activeWindow = None] stands
    for an exception inside the [try] block (the script file cannot be
    written, the parsed value has no such properties): the [catch] branch
    answers. *)
Record PollEnv : Type := {
  activeWindow : option ActiveWindow;
  now : Z;
  cpuUsage : Z;
  memoryUsage : Z;
  hostname : string;
  release : string
}.

(** The state of an [ActivityTracker].  [lastAppType] exists in the
    multi-application variant only. *)
Record Tracker : Type := {
  lastActivity : string;
  lastProcessName : string;
  lastAppType : string;
  startTime : Z;
  activityTimers : gmap string Z;
  dailyActivityStats : gmap string Z
}.

Definition newTracker (t0 : Z) : Tracker :=
  {| lastActivity := ""; lastProcessName := ""; lastAppType := "";
     startTime := t0; activityTimers := ∅; dailyActivityStats := ∅ |}.

(** [trackActivityTime] (lines 604-615 and 1156-1167): the same text in both
    variants.  The daily counter grows by the literal 10. *)
Definition trackActivityTime (activityType : string) (now : Z) (t : Tracker)
  : Tracker :=
  let timers' :=
    match activityTimers t !! activityType with
    | Some _ => activityTimers t
    | None => <[activityType := now]> (activityTimers t)
    end in
  let dailyTime := default 0%Z (dailyActivityStats t !! activityType) in
  {| lastActivity := lastActivity t;
     lastProcessName := lastProcessName t;
     lastAppType := lastAppType t;
     startTime := startTime t;
     activityTimers := timers';
     dailyActivityStats :=
       <[activityType := (dailyTime + 10)%Z]> (dailyActivityStats t) |}.

(** [dailyActivityStats.get(activityType) || 0] *)
Definition dailyOf (activityType : string) (t : Tracker) : Z :=
  default 0%Z (dailyActivityStats t !! activityType).

Definition langMap : list (string * string) :=
  [("js", "JavaScript"); ("ts", "TypeScript"); ("py", "Python");
   ("java", "Java"); ("cpp", "C++"); ("cs", "C#"); ("html", "HTML");
   ("css", "CSS"); ("php", "PHP")].

Fixpoint assoc {A} (k : string) (l : list (string * A)) : option A :=
  match l with
  | [] => None
  | (k', v) :: l' => if String.eqb k k' then Some v else assoc k l'
  end.

(** What every object literal answers besides its own keys: the properties
    it inherits from [Object.prototype], as a template literal prints them. *)
Definition objectPrototype : list (string * string) :=
  [("constructor", "function Object() { [native code] }");
   ("__defineGetter__", "function __defineGetter__() { [native code] }");
   ("__defineSetter__", "function __defineSetter__() { [native code] }");
   ("hasOwnProperty", "function hasOwnProperty() { [native code] }");
   ("__lookupGetter__", "function __lookupGetter__() { [native code] }");
   ("__lookupSetter__", "function __lookupSetter__() { [native code] }");
   ("isPrototypeOf", "function isPrototypeOf() { [native code] }");
   ("propertyIsEnumerable", "function propertyIsEnumerable() { [native code] }");
   ("toString", "function toString() { [native code] }");
   ("valueOf", "function valueOf() { [native code] }");
   ("__proto__", "[object Object]");
   ("toLocaleString", "function toLocaleString() { [native code] }")].

(** [langMap[extension] || extension], inside [`Coding in ${language}`]:
    an own key first, then an inherited one (every inherited value is
    truthy), then the extension itself. *)
Definition languageOf (extension : string) : string :=
  match assoc extension langMap with
  | Some l => l
  | None =>
      match assoc extension objectPrototype with
      | Some l => l
      | None => extension
      end
  end.

(** The condition of both rule loops. *)
Definition ruleMatches (processName windowTitle : string) (app : Rule.t) : bool :=
  Js.includes (Js.toLowerCase processName) (Js.toLowerCase (Rule.processName app))
  || Js.includes (Js.toLowerCase windowTitle) (Js.toLowerCase (Rule.processName app)).

(** [/(.+?) - (.+?) - Spotify/] *)
Definition songRe : Regex.regex :=
  [Regex.plus false Regex.dot; Regex.Lit false " - ";
   Regex.plus false Regex.dot; Regex.Lit false " - Spotify"].

(** [/(.+) - ([^-]+) - Google Chrome$/] *)
Definition chromeRe : Regex.regex :=
  [Regex.plus true Regex.dot; Regex.Lit false " - ";
   Regex.plus true (Regex.notChar "-"); Regex.Lit false " - Google Chrome";
   Regex.EndAnchor].

(** [/(.+) - Google Chrome$/] *)
Definition simpleRe : Regex.regex :=
  [Regex.plus true Regex.dot; Regex.Lit false " - Google Chrome";
   Regex.EndAnchor].

(** [/(.+) - YouTube/] *)
Definition ytRe : Regex.regex :=
  [Regex.plus true Regex.dot; Regex.Lit false " - YouTube"].

(** [/\.([^.]+) -/] *)
Definition fileDashRe : Regex.regex :=
  [Regex.Lit false "."; Regex.plus true (Regex.notChar ".");
   Regex.Lit false " -"].

(** [/\.([^.]+)$/] *)
Definition fileEndRe : Regex.regex :=
  [Regex.Lit false "."; Regex.plus true (Regex.notChar "."); Regex.EndAnchor].

(** [/server:?\s*([^-]+)/i] *)
Definition serverRe : Regex.regex :=
  [Regex.Lit true "server";
   Regex.Rep true 0 (Some 1) (Regex.isChar ":") false;
   Regex.Rep true 0 None Js.isWhiteSpace false;
   Regex.plus true (Regex.notChar "-")].

(** The Spotify branch of the priority loop (both variants). *)
Definition spotifyCase (windowTitle : string) (v : Vars.t) : Vars.t :=
  match Regex.search songRe windowTitle with
  | Some caps =>
      let song := Js.trim (Regex.group caps 1) in
      let artist := Js.trim (Regex.group caps 2) in
      let v := Vars.setState (song +:+ " by " +:+ artist) v in
      if Js.truthy song && Js.truthy artist
      then Vars.setDetails "Listening to Music" v
      else v
  | None =>
      if String.eqb (Js.trim windowTitle) "Spotify"
         || Js.includes windowTitle "Spotify Premium"
      then Vars.setDetails "Using Spotify" (Vars.setState "Browsing Music" v)
      else v
  end.

(** The Discord branch of the priority loop (both variants). *)
Definition discordCase (windowTitle : string) (v : Vars.t) : Vars.t :=
  if Js.includes windowTitle " - "
  then
    let parts := Js.split " - " windowTitle in
    if Nat.leb 3 (length parts)
    then Vars.setState
           ("In #" +:+ Js.at_ parts 0 +:+ " on " +:+ Js.at_ parts 1) v
    else if Nat.leb 2 (length parts)
    then Vars.setState ("Chatting in " +:+ Js.at_ parts 0) v
    else v
  else if Js.includes (Js.toLowerCase windowTitle) "direct"
  then Vars.setState "In Direct Messages" v
  else v.

(** [` | ${formattedDuration}`] and the CPU and RAM suffix. *)
Definition durationPart (formattedDuration : string) : string :=
  " | " +:+ formattedDuration.

Definition systemPart (cpu mem : Z) : string :=
  " | CPU: " +:+ Js.num cpu +:+ "%, RAM: " +:+ Js.num mem +:+ "%".

Definition largeText (activityType formattedDuration : string) : string :=
  Js.capitalize activityType +:+ " for " +:+ formattedDuration.

Definition smallText (host activityType : string) (t : Tracker) : string :=
  host +:+ " | Today: " +:+ formatDuration (dailyOf activityType t * 1000).

(** The answer of the [catch] branch. *)
Definition fallbackActivity (e : PollEnv) (t : Tracker) : ActivityData.t :=
  {| ActivityData.details := "Online";
     ActivityData.state := "Using Windows";
     ActivityData.largeImageKey := "windows";
     ActivityData.largeImageText := "Windows " +:+ release e;
     ActivityData.smallImageKey := None;
     ActivityData.smallImageText := None;
     ActivityData.startTimestamp := Some (startTime t);
     ActivityData.buttons := [] |}.

(** [x || "Unknown"] *)
Definition orUnknown (x : string) : string := Js.orElse x "Unknown".

(** The four [let]s before the rule loops. *)
Definition initialVars (processName windowTitle : string) : Vars.t :=
  Vars.mk "app" "windows" ("Using " +:+ processName)
    (if Nat.ltb 2 (String.length windowTitle) then windowTitle else "Idle")
    false.

(** The first four assignments of a priority match. *)
Definition takeRule (app : Rule.t) (windowTitle : string) : Vars.t :=
  Vars.mk (Rule.type app) (Rule.icon app) (Rule.details app) windowTitle true.

(** ** The event loop's timers

    A timer is pending from [setTimeout] or [setInterval] until it is
    cancelled or, for a timeout, fired.  Handles are never reused.  One clock
    serves [Date.now()] and the timers. *)

Section Timers.
Context {C : Type}.

Record Timer : Type := {
  handle : nat;
  setAt : Z;
  delay : Q;
  repeat : bool;
  callback : C
}.

Definition due (t : Timer) : Q := inject_Z (setAt t) + delay t.

Definition isDue (t : Timer) (now : Z) : bool :=
  Qle_bool (due t) (inject_Z now).

Definition findTimer (h : nat) (q : list Timer) : option Timer :=
  find (fun t => Nat.eqb (handle t) h) q.

(** [clearTimeout(h)] and [clearInterval(h)] *)
Definition cancel (h : nat) (q : list Timer) : list Timer :=
  List.filter (fun t => negb (Nat.eqb (handle t) h)) q.

(** [if (x) clearTimeout(x)] for a field holding a handle or [null]. *)
Definition cancelOpt (h : option nat) (q : list Timer) : list Timer :=
  match h with
  | Some h => cancel h q
  | None => q
  end.

(** What firing does to the queue: a timeout leaves it, an interval is
    armed again. *)
Definition afterFire (t : Timer) (now : Z) (q : list Timer) : list Timer :=
  if repeat t
  then map (fun u =>
              if Nat.eqb (handle u) (handle t)
              then {| handle := handle u; setAt := now; delay := delay u;
                      repeat := repeat u; callback := callback u |}
              else u) q
  else cancel (handle t) q.

(** [q'] holds timers of [q] only, up to the instant they were armed. *)
Definition subqueue (q' q : list Timer) : Prop :=
  forall t, In t q' ->
    exists u, In u q /\ handle u = handle t /\ callback u = callback t
              /\ delay u = delay t.
End Timers.

Arguments Timer : clear implicits.

(** Calls made on the Discord client. *)
Inductive Call : Type :=
| Login (clientId : string)
| Destroy
| NewClient
| SetActivity (activity : ActivityData.t).

(** What the environment decides when a timer fires. *)
Record Oracle : Type := {
  poll : PollEnv;
  loginOk : bool;
  loginDone : Z
}.

(** ** The single-application variant *)

Module Single.

Record AppConfig : Type := {
  clientId : string;
  updateInterval : Z;
  enableDetailedStats : bool;
  enableSystemInfo : bool;
  idleTimeout : Z;
  priorityApps : list Rule.t;
  customApps : list Rule.t
}.

Definition steamCase (windowTitle : string) (v : Vars.t) : Vars.t :=
  let lower := Js.toLowerCase windowTitle in
  if Js.includes windowTitle " - "
  then
    let parts := Js.split " - " windowTitle in
    if Nat.leb 2 (length parts)
       && Js.includes (Js.toLowerCase (Js.at_ parts (length parts - 1))) "steam"
    then Vars.setDetails "Gaming on Steam"
           (Vars.setState ("Playing " +:+ Js.at_ parts 0) v)
    else v
  else if Js.includes lower "store" then Vars.setState "Browsing the Store" v
  else if Js.includes lower "library" then Vars.setState "Browsing Library" v
  else if Js.includes lower "community" then Vars.setState "Browsing Community" v
  else if String.eqb lower "steam" then Vars.setState "In Steam Client" v
  else v.

Definition chromeCase (windowTitle : string) (v : Vars.t) : Vars.t :=
  let lower := Js.toLowerCase windowTitle in
  let v :=
    match Regex.search chromeRe windowTitle with
    | Some caps => Vars.setState ("On " +:+ Js.trim (Regex.group caps 2)) v
    | None =>
        match Regex.search simpleRe windowTitle with
        | Some caps => Vars.setState ("On " +:+ Js.trim (Regex.group caps 1)) v
        | None => v
        end
    end in
  if Js.includes lower "youtube"
  then
    let v := Vars.setLargeImageKey "youtube" (Vars.setDetails "Watching YouTube" v) in
    match Regex.search ytRe windowTitle with
    | Some caps => Vars.setState ("Watching: " +:+ Js.trim (Regex.group caps 1)) v
    | None => v
    end
  else if Js.includes lower "twitch"
  then Vars.setLargeImageKey "twitch" (Vars.setDetails "Watching Twitch" v)
  else if Js.includes lower "github"
  then Vars.setLargeImageKey "github" (Vars.setDetails "Working on GitHub" v)
  else v.

Definition fortniteCase (windowTitle : string) (v : Vars.t) : Vars.t :=
  let lower := Js.toLowerCase windowTitle in
  let v := Vars.setState "Battle Royale" v in
  if Js.includes lower "lobby" then Vars.setState "In Lobby" v
  else if Js.includes lower "battle" then Vars.setState "In Battle" v
  else v.

Definition minecraftCase (windowTitle : string) (v : Vars.t) : Vars.t :=
  if Js.includes (Js.toLowerCase windowTitle) "server"
  then match Regex.search serverRe windowTitle with
       | Some caps =>
           Vars.setState ("On server: " +:+ Js.trim (Regex.group caps 1)) v
       | None => v
       end
  else Vars.setState "Playing Minecraft" v.

Definition codingState (re : Regex.regex) (windowTitle : string) (v : Vars.t)
  : Vars.t :=
  match Regex.search re windowTitle with
  | Some caps =>
      let extension := Js.toLowerCase (Regex.group caps 1) in
      Vars.setState ("Coding in " +:+ languageOf extension) v
  | None => v
  end.

(** "Special handling for specific apps", chosen by the rule's token. *)
Definition special (app : Rule.t) (windowTitle : string) (v : Vars.t) : Vars.t :=
  let token := Js.toLowerCase (Rule.processName app) in
  if Js.includes token "spotify" then spotifyCase windowTitle v
  else if Js.includes token "discord" then discordCase windowTitle v
  else if Js.includes token "steam" then steamCase windowTitle v
  else if Js.includes token "chrome" then chromeCase windowTitle v
  else if Js.includes token "fortnite" then fortniteCase windowTitle v
  else if Js.includes token "minecraft" || Js.includes token "prism"
  then minecraftCase windowTitle v
  else if Js.includes token "code" then codingState fileEndRe windowTitle v
  else v.

Definition customCase (app : Rule.t) (processName windowTitle : string)
  : Vars.t :=
  let details :=
    if String.eqb (Js.toLowerCase processName) "applicationframehost"
    then "Using " +:+ Js.orElse (Js.at_ (Js.split " - " windowTitle) 0) windowTitle
    else Rule.details app in
  Vars.mk (Rule.type app) (Rule.icon app) details windowTitle true.

(** [appMap], in the order of the object literal. *)
Definition appMap : list (string * (string * string * string)) :=
  [("chrome", ("browsing", "chrome", "Browsing with Chrome"));
   ("firefox", ("browsing", "windows", "Browsing with Firefox"));
   ("edge", ("browsing", "windows", "Browsing with Edge"));
   ("brave", ("browsing", "windows", "Browsing with Brave"));
   ("opera", ("browsing", "windows", "Browsing with Opera"));
   ("code", ("coding", "vscode", "Coding in VS Code"));
   ("visual studio", ("coding", "vscode", "Developing in Visual Studio"));
   ("intellij", ("coding", "vscode", "Coding in IntelliJ"));
   ("pycharm", ("coding", "vscode", "Coding in PyCharm"));
   ("android studio", ("coding", "vscode", "Android Development"));
   ("sublime", ("coding", "vscode", "Coding in Sublime"));
   ("notepad++", ("coding", "vscode", "Editing in Notepad++"));
   ("word", ("writing", "windows", "Writing in Word"));
   ("excel", ("spreadsheet", "windows", "Working in Excel"));
   ("powerpoint", ("presentation", "windows", "Creating a Presentation"));
   ("outlook", ("email", "windows", "Checking Email"));
   ("onenote", ("notes", "windows", "Taking Notes"));
   ("teams", ("meeting", "windows", "In a Meeting"));
   ("slack", ("chat", "windows", "Chatting on Slack"));
   ("discord", ("chat", "discord", "Chatting on Discord"));
   ("zoom", ("meeting", "windows", "In a Zoom Meeting"));
   ("photoshop", ("design", "windows", "Editing in Photoshop"));
   ("illustrator", ("design", "windows", "Designing in Illustrator"));
   ("premiere", ("video", "windows", "Editing Video"));
   ("aftereffects", ("video", "windows", "Creating Motion Graphics"));
   ("figma", ("design", "windows", "Designing in Figma"));
   ("blender", ("3d", "windows", "3D Modeling"));
   ("unity", ("gamedev", "windows", "Game Development"));
   ("unreal", ("gamedev", "windows", "Game Development"));
   ("steam", ("gaming", "windows", "Gaming on Steam"));
   ("epicgames", ("gaming", "windows", "Gaming on Epic"));
   ("battle.net", ("gaming", "windows", "Gaming on Battle.net"));
   ("league", ("gaming", "windows", "Playing League of Legends"));
   ("valorant", ("gaming", "windows", "Playing Valorant"));
   ("minecraft", ("gaming", "windows", "Playing Minecraft"));
   ("fortnite", ("gaming", "windows", "Playing Fortnite"));
   ("spotify", ("music", "spotify", "Listening to Music"));
   ("netflix", ("watching", "windows", "Watching Netflix"));
   ("vlc", ("media", "windows", "Watching Media"));
   ("youtube", ("watching", "windows", "Watching YouTube"));
   ("twitch", ("watching", "windows", "Watching Twitch"))].

Definition builtIn (processName : string) (v : Vars.t) : Vars.t :=
  match find (fun e => Js.includes (Js.toLowerCase processName)
                         (Js.toLowerCase (fst e))) appMap with
  | Some (_, (type, icon, details)) =>
      Vars.mk type icon details (Vars.state v) true
  | None => v
  end.

(** "Override specific cases where the detection isn't working correctly" *)
Definition overrides (processName windowTitle : string) (v : Vars.t) : Vars.t :=
  if String.eqb processName "Code"
  then
    let v := Vars.setLargeImageKey "vscode"
               (Vars.setActivityType "coding"
                  (Vars.setDetails "Coding in VS Code" v)) in
    codingState fileDashRe windowTitle v
  else if String.eqb processName "chrome"
  then
    let v := Vars.setLargeImageKey "chrome"
               (Vars.setActivityType "browsing"
                  (Vars.setDetails "Browsing with Chrome" v)) in
    if Js.includes windowTitle " - Google Chrome"
    then
      let lower := Js.toLowerCase windowTitle in
      let v := Vars.setState (Js.removeFirst " - Google Chrome" windowTitle) v in
      if Js.includes lower "youtube"
      then
        let v := Vars.setLargeImageKey "windows"
                   (Vars.setDetails "Watching YouTube" v) in
        match Regex.search ytRe windowTitle with
        | Some caps =>
            Vars.setState ("Watching: " +:+ Js.trim (Regex.group caps 1)) v
        | None => v
        end
      else if Js.includes lower "twitch"
      then Vars.setLargeImageKey "windows" (Vars.setDetails "Watching Twitch" v)
      else if Js.includes lower "github"
      then Vars.setLargeImageKey "windows" (Vars.setDetails "Working on GitHub" v)
      else v
    else v
  else if String.eqb processName "Discord"
  then Vars.setLargeImageKey "discord"
         (Vars.setActivityType "chat" (Vars.setDetails "Chatting on Discord" v))
  else if String.eqb processName "Spotify"
  then Vars.setLargeImageKey "spotify"
         (Vars.setActivityType "music" (Vars.setDetails "Listening to Music" v))
  else if negb (Vars.matchedApp v)
  then Vars.setLargeImageKey "windows" v
  else v.

(** Classification: from the four [let]s to the override block
    (lines 193-504). *)
Definition classify (cfg : AppConfig) (processName windowTitle : string)
  : Vars.t :=
  let v :=
    match find (ruleMatches processName windowTitle) (priorityApps cfg) with
    | Some app => special app windowTitle (takeRule app windowTitle)
    | None =>
        match find (ruleMatches processName windowTitle) (customApps cfg) with
        | Some app => customCase app processName windowTitle
        | None => builtIn processName (initialVars processName windowTitle)
        end
    end in
  overrides processName windowTitle v.

(** "Always add the process name to the state for debugging"
    (lines 506-507) *)
Definition debugState (processName : string) (v : Vars.t) : Vars.t :=
  Vars.setState (Vars.state v +:+ " (" +:+ processName +:+ ")") v.

(** The two tests on the previous poll's values (lines 512-523). *)
Definition remember (processName activityType : string) (now : Z) (t : Tracker)
  : Tracker :=
  let changed := negb (String.eqb processName (lastProcessName t)) in
  {| lastActivity :=
       if negb (String.eqb activityType (lastActivity t))
       then activityType else lastActivity t;
     lastProcessName := if changed then processName else lastProcessName t;
     lastAppType := lastAppType t;
     startTime := if changed then now else startTime t;
     activityTimers := activityTimers t;
     dailyActivityStats := dailyActivityStats t |}.

Definition getCurrentActivity (cfg : AppConfig) (e : PollEnv) (t : Tracker)
  : ActivityData.t * Tracker :=
  match activeWindow e with
  | None => (fallbackActivity e t, t)
  | Some w =>
      let windowTitle := orUnknown (MainWindowTitle w) in
      let processName := orUnknown (ProcessName w) in
      let v := debugState processName (classify cfg processName windowTitle) in
      let activityType := Vars.activityType v in
      let t := trackActivityTime activityType (now e) t in
      let t := remember processName activityType (now e) t in
      let formattedDuration := formatDuration (now e - startTime t) in
      ({| ActivityData.details := Js.substring0 128 (Vars.details v);
          ActivityData.state :=
            Js.substring0 60 (Vars.state v)
            +:+ durationPart formattedDuration
            +:+ systemPart (cpuUsage e) (memoryUsage e);
          ActivityData.largeImageKey := Vars.largeImageKey v;
          ActivityData.largeImageText := largeText activityType formattedDuration;
          ActivityData.smallImageKey := Some "info";
          ActivityData.smallImageText := Some (smallText (hostname e) activityType t);
          ActivityData.startTimestamp := Some (startTime t);
          ActivityData.buttons := [("Activity Stats", "https://discord.com")] |},
       t)
  end.

(** *** [DiscordRPCApp] *)

Inductive Callback : Type :=
| PollTick
| ReconnectFire.

Record App : Type := {
  activityTracker : Tracker;
  updateIntervalId : option nat;
  timers : list (Timer Callback);
  nextHandle : nat;
  calls : list Call
}.

Definition newApp (t0 : Z) : App :=
  {| activityTracker := newTracker t0; updateIntervalId := None;
     timers := []; nextHandle := 0; calls := [] |}.

Definition schedule (cb : Callback) (rep : bool) (ms : Q) (now : Z) (a : App)
  : App :=
  {| activityTracker := activityTracker a;
     updateIntervalId := updateIntervalId a;
     timers := timers a ++ [{| handle := nextHandle a; setAt := now;
                               delay := ms; repeat := rep; callback := cb |}];
     nextHandle := S (nextHandle a);
     calls := calls a |}.

Definition call (c : Call) (a : App) : App :=
  {| activityTracker := activityTracker a;
     updateIntervalId := updateIntervalId a;
     timers := timers a; nextHandle := nextHandle a;
     calls := calls a ++ [c] |}.

(** [reconnect] (lines 651-656): always 15 seconds. *)
Definition reconnect (now : Z) (a : App) : App :=
  schedule ReconnectFire false 15000 now a.

Definition start (cfg : AppConfig) (now : Z) (ok : bool) (a : App) : App :=
  let a := call (Login (clientId cfg)) a in
  if ok then a else reconnect now a.

Definition startActivityTracking (cfg : AppConfig) (now : Z) (a : App) : App :=
  let q := cancelOpt (updateIntervalId a) (timers a) in
  {| activityTracker := activityTracker a;
     updateIntervalId := Some (nextHandle a);
     timers := q ++ [{| handle := nextHandle a; setAt := now;
                        delay := inject_Z (updateInterval cfg);
                        repeat := true; callback := PollTick |}];
     nextHandle := S (nextHandle a);
     calls := calls a |}.

Definition onReady := startActivityTracking.
Definition onError (now : Z) (a : App) : App := reconnect now a.

Definition pollTick (cfg : AppConfig) (e : PollEnv) (a : App) : App :=
  let '(activity, t) := getCurrentActivity cfg e (activityTracker a) in
  {| activityTracker := t;
     updateIntervalId := updateIntervalId a;
     timers := timers a; nextHandle := nextHandle a;
     calls := calls a ++ [SetActivity activity] |}.

Definition stop (a : App) : App :=
  {| activityTracker := activityTracker a;
     updateIntervalId := None;
     timers := cancelOpt (updateIntervalId a) (timers a);
     nextHandle := nextHandle a;
     calls := calls a ++ [Destroy] |}.

Definition setTimers (q : list (Timer Callback)) (a : App) : App :=
  {| activityTracker := activityTracker a;
     updateIntervalId := updateIntervalId a;
     timers := q; nextHandle := nextHandle a; calls := calls a |}.

(** The event loop runs the callback of timer [h] at [now], if it is
    pending and due. *)
Definition fire (cfg : AppConfig) (h : nat) (now : Z) (o : Oracle) (a : App)
  : App :=
  match findTimer h (timers a) with
  | Some t =>
      if isDue t now
      then
        let a := setTimers (afterFire t now (timers a)) a in
        match callback t with
        | PollTick => pollTick cfg (poll o) a
        | ReconnectFire => start cfg now (loginOk o) a
        end
      else a
  | None => a
  end.

(** *** The application as a transition system *)

(** What can happen to a running application. *)
Inductive Event : Type :=
| Start (now : Z) (ok : bool)
| Ready (now : Z)
| Error (now : Z)
| Fire (h : nat) (now : Z) (o : Oracle)
| Stop.

Definition step (cfg : AppConfig) (a : App) (ev : Event) : App :=
  match ev with
  | Start now ok => start cfg now ok a
  | Ready now => onReady cfg now a
  | Error now => onError now a
  | Fire h now o => fire cfg h now o a
  | Stop => stop a
  end.

Definition run (cfg : AppConfig) (a : App) (evs : list Event) : App :=
  fold_left (step cfg) evs a.

Definition reachable (cfg : AppConfig) (a : App) : Prop :=
  exists t0 evs, a = run cfg (newApp t0) evs.

Definition pendingPolls (a : App) : list (Timer Callback) :=
  List.filter (fun t => match callback t with PollTick => true | _ => false end)
         (timers a).

Definition pendingReconnects (a : App) : list (Timer Callback) :=
  List.filter (fun t => match callback t with ReconnectFire => true | _ => false end)
         (timers a).

(** A failed [start()] or an error event. *)
Definition isFailure (ev : Event) : bool :=
  match ev with
  | Start _ false | Error _ => true
  | _ => false
  end.

(** What holds of every state the application reaches: handles are fresh and
    pairwise distinct, and the stored handle names the poll interval and
    nothing else. *)
Record Inv (a : App) : Prop := {
  inv_fresh : forall t, In t (timers a) -> handle t < nextHandle a;
  inv_poll_handle : forall h, updateIntervalId a = Some h -> h < nextHandle a;
  inv_nodup : List.NoDup (map handle (timers a));
  inv_poll_timer : forall t,
    In t (timers a) -> callback t = PollTick ->
    updateIntervalId a = Some (handle t);
  inv_poll_kind : forall t,
    In t (timers a) -> updateIntervalId a = Some (handle t) ->
    callback t = PollTick
}.

End Single.

(** ** The multi-application variant *)

Module Multi.

Record Application : Type := {
  clientId : string;
  processNames : list string
}.

Record AppConfig : Type := {
  defaultClientId : string;
  updateInterval : Z;
  enableDetailedStats : bool;
  enableSystemInfo : bool;
  idleTimeout : Z;
  applications : list (string * Application);
  priorityApps : list Rule.t;
  customApps : list Rule.t
}.


(** "Determine which application category this belongs to" *)
Definition categoryOf (cfg : AppConfig) (processName windowTitle : string)
  : string :=
  match find (fun e =>
                existsb (fun p =>
                           Js.includes (Js.toLowerCase processName) (Js.toLowerCase p)
                           || Js.includes (Js.toLowerCase windowTitle) (Js.toLowerCase p))
                        (processNames (snd e)))
             (applications cfg) with
  | Some (type, _) => type
  | None => "default"
  end.

Definition valorantCase (windowTitle : string) (v : Vars.t) : Vars.t :=
  let lower := Js.toLowerCase windowTitle in
  let v := Vars.setDetails "Playing VALORANT" v in
  if Js.includes lower "lobby" then Vars.setState "In Lobby" v
  else if Js.includes lower "match" then Vars.setState "In a Match" v
  else Vars.setState "In Game" v.

Definition chromeCase (windowTitle : string) (v : Vars.t) : Vars.t :=
  let lower := Js.toLowerCase windowTitle in
  let v :=
    match Regex.search chromeRe windowTitle with
    | Some caps => Vars.setState ("On " +:+ Js.trim (Regex.group caps 2)) v
    | None =>
        match Regex.search simpleRe windowTitle with
        | Some caps => Vars.setState ("On " +:+ Js.trim (Regex.group caps 1)) v
        | None => v
        end
    end in
  if Js.includes lower "youtube"
  then
    let v := Vars.setDetails "Watching YouTube" v in
    match Regex.search ytRe windowTitle with
    | Some caps => Vars.setState ("Watching: " +:+ Js.trim (Regex.group caps 1)) v
    | None => v
    end
  else if Js.includes lower "twitch"
  then Vars.setDetails "Watching Twitch" v
  else v.

Definition codeCase (windowTitle : string) (v : Vars.t) : Vars.t :=
  match Regex.search fileDashRe windowTitle with
  | Some caps =>
      let extension := Js.toLowerCase (Regex.group caps 1) in
      Vars.setState ("Coding in " +:+ languageOf extension) v
  | None => v
  end.

(** "Special handling for specific apps".  The second test of the VALORANT
    branch compares a lower-cased name with a literal in mixed case, as the
    code does. *)
Definition special (app : Rule.t) (processName windowTitle : string)
    (v : Vars.t) : Vars.t :=
  let token := Js.toLowerCase (Rule.processName app) in
  if Js.includes token "spotify" then spotifyCase windowTitle v
  else if Js.includes token "discord" then discordCase windowTitle v
  else if Js.includes token "valorant"
          || String.eqb (Js.toLowerCase processName) "VALORANT-Win64-Shipping"
  then valorantCase windowTitle v
  else if Js.includes token "chrome" then chromeCase windowTitle v
  else if String.eqb token "code" then codeCase windowTitle v
  else v.

(** "Game-specific detection logic" and the generic default after it. *)
Definition gameOverride (processName windowTitle : string)
    (av : string * Vars.t) : string * Vars.t :=
  let '(appType, v) := av in
  let '(appType, v) :=
    if String.eqb processName "VALORANT-Win64-Shipping"
    then ("games",
          Vars.mk "games" "valorant" "Playing VALORANT"
            (if Js.includes (Js.toLowerCase windowTitle) "lobby"
             then "In Lobby" else "In Game")
            true)
    else (appType, v) in
  (appType, if negb (Vars.matchedApp v) then Vars.setLargeImageKey "windows" v else v).

Definition activityToAppType : list (string * string) :=
  [("gaming", "games"); ("music", "music"); ("coding", "code");
   ("browsing", "web"); ("chat", "messaging"); ("design", "creative");
   ("streaming", "creative")].

(** "Update app type if we have a specific match but no app type".  The
    table is looked up by its own keys.  A rule whose type names a property
    every object inherits ([constructor], [toString], ...) makes the code
    store the inherited value, which is not a string; such rule types are
    not embedded. *)
Definition deriveAppType (appType activityType : string) : string :=
  if String.eqb appType "default" && negb (String.eqb activityType "app")
  then match assoc activityType activityToAppType with
       | Some t => t
       | None => appType
       end
  else appType.

(** Classification: the application category and the four variables
    (lines 876-1047). *)
Definition classify (cfg : AppConfig) (processName windowTitle : string)
  : string * Vars.t :=
  let appType := categoryOf cfg processName windowTitle in
  let v :=
    match find (ruleMatches processName windowTitle) (priorityApps cfg) with
    | Some app => special app processName windowTitle (takeRule app windowTitle)
    | None =>
        match find (ruleMatches processName windowTitle) (customApps cfg) with
        | Some app => takeRule app windowTitle
        | None => initialVars processName windowTitle
        end
    end in
  let '(appType, v) := gameOverride processName windowTitle (appType, v) in
  (deriveAppType appType (Vars.activityType v), v).

(** "Reset the start time if the application changed" (lines 1049-1061) *)
Definition remember (processName appType activityType : string) (now : Z)
    (t : Tracker) : Tracker :=
  let changed := negb (String.eqb processName (lastProcessName t))
                 || negb (String.eqb appType (lastAppType t)) in
  {| lastActivity :=
       if negb (String.eqb activityType (lastActivity t))
       then activityType else lastActivity t;
     lastProcessName := if changed then processName else lastProcessName t;
     lastAppType := if changed then appType else lastAppType t;
     startTime := if changed then now else startTime t;
     activityTimers := activityTimers t;
     dailyActivityStats := dailyActivityStats t |}.

(** "Format state based on settings" (lines 1070-1081) *)
Definition formatState (cfg : AppConfig) (state formattedDuration : string)
    (e : PollEnv) : string :=
  if enableDetailedStats cfg
  then
    let s := Js.substring0 60 state +:+ durationPart formattedDuration in
    if enableSystemInfo cfg
    then s +:+ systemPart (cpuUsage e) (memoryUsage e)
    else s
  else state.

Record Detected : Type := {
  activity : ActivityData.t;
  appType : string;
  processName : string
}.

Definition getCurrentActivity (cfg : AppConfig) (e : PollEnv) (t : Tracker)
  : Detected * Tracker :=
  match activeWindow e with
  | None =>
      ({| activity := fallbackActivity e t; appType := "default";
          processName := "explorer" |}, t)
  | Some w =>
      let windowTitle := orUnknown (MainWindowTitle w) in
      let processName := orUnknown (ProcessName w) in
      let '(appType, v) := classify cfg processName windowTitle in
      let activityType := Vars.activityType v in
      let t := remember processName appType activityType (now e) t in
      let formattedDuration := formatDuration (now e - startTime t) in
      let t := trackActivityTime activityType (now e) t in
      let formattedState := formatState cfg (Vars.state v) formattedDuration e in
      ({| activity :=
            {| ActivityData.details := Js.substring0 128 (Vars.details v);
               ActivityData.state := Js.substring0 128 formattedState;
               ActivityData.largeImageKey := Vars.largeImageKey v;
               ActivityData.largeImageText :=
                 largeText activityType formattedDuration;
               ActivityData.smallImageKey := Some "info";
               ActivityData.smallImageText :=
                 Some (smallText (hostname e) activityType t);
               ActivityData.startTimestamp := Some (startTime t);
               ActivityData.buttons := [] |};
          appType := appType;
          processName := processName |}, t)
  end.

(** *** [DiscordRPCApp] and the module-level variables it shares *)

Inductive Callback : Type :=
| PollTick
| SwitchFire (newClientId : string)
| ReconnectFire.

Record App : Type := {
  currentClientId : string;
  clientConnected : bool;
  reconnectAttempts : nat;
  activityTracker : Tracker;
  updateIntervalId : option nat;
  switchTimeout : option nat;
  lastSwitchTime : Z;
  isReconnecting : bool;
  timers : list (Timer Callback);
  nextHandle : nat;
  calls : list Call
}.

Definition newApp (cfg : AppConfig) (t0 : Z) : App :=
  {| currentClientId := defaultClientId cfg; clientConnected := false;
     reconnectAttempts := 0; activityTracker := newTracker t0;
     updateIntervalId := None; switchTimeout := None; lastSwitchTime := 0;
     isReconnecting := false; timers := []; nextHandle := 0; calls := [] |}.

Definition setCurrentClientId (x : string) (a : App) : App :=
  {| currentClientId := x; clientConnected := clientConnected a;
     reconnectAttempts := reconnectAttempts a;
     activityTracker := activityTracker a;
     updateIntervalId := updateIntervalId a; switchTimeout := switchTimeout a;
     lastSwitchTime := lastSwitchTime a; isReconnecting := isReconnecting a;
     timers := timers a; nextHandle := nextHandle a; calls := calls a |}.

Definition setClientConnected (x : bool) (a : App) : App :=
  {| currentClientId := currentClientId a; clientConnected := x;
     reconnectAttempts := reconnectAttempts a;
     activityTracker := activityTracker a;
     updateIntervalId := updateIntervalId a; switchTimeout := switchTimeout a;
     lastSwitchTime := lastSwitchTime a; isReconnecting := isReconnecting a;
     timers := timers a; nextHandle := nextHandle a; calls := calls a |}.

Definition setReconnectAttempts (x : nat) (a : App) : App :=
  {| currentClientId := currentClientId a; clientConnected := clientConnected a;
     reconnectAttempts := x;
     activityTracker := activityTracker a;
     updateIntervalId := updateIntervalId a; switchTimeout := switchTimeout a;
     lastSwitchTime := lastSwitchTime a; isReconnecting := isReconnecting a;
     timers := timers a; nextHandle := nextHandle a; calls := calls a |}.

Definition setActivityTracker (x : Tracker) (a : App) : App :=
  {| currentClientId := currentClientId a; clientConnected := clientConnected a;
     reconnectAttempts := reconnectAttempts a;
     activityTracker := x;
     updateIntervalId := updateIntervalId a; switchTimeout := switchTimeout a;
     lastSwitchTime := lastSwitchTime a; isReconnecting := isReconnecting a;
     timers := timers a; nextHandle := nextHandle a; calls := calls a |}.

Definition setUpdateIntervalId (x : option nat) (a : App) : App :=
  {| currentClientId := currentClientId a; clientConnected := clientConnected a;
     reconnectAttempts := reconnectAttempts a;
     activityTracker := activityTracker a;
     updateIntervalId := x; switchTimeout := switchTimeout a;
     lastSwitchTime := lastSwitchTime a; isReconnecting := isReconnecting a;
     timers := timers a; nextHandle := nextHandle a; calls := calls a |}.

Definition setSwitchTimeout (x : option nat) (a : App) : App :=
  {| currentClientId := currentClientId a; clientConnected := clientConnected a;
     reconnectAttempts := reconnectAttempts a;
     activityTracker := activityTracker a;
     updateIntervalId := updateIntervalId a; switchTimeout := x;
     lastSwitchTime := lastSwitchTime a; isReconnecting := isReconnecting a;
     timers := timers a; nextHandle := nextHandle a; calls := calls a |}.

Definition setLastSwitchTime (x : Z) (a : App) : App :=
  {| currentClientId := currentClientId a; clientConnected := clientConnected a;
     reconnectAttempts := reconnectAttempts a;
     activityTracker := activityTracker a;
     updateIntervalId := updateIntervalId a; switchTimeout := switchTimeout a;
     lastSwitchTime := x; isReconnecting := isReconnecting a;
     timers := timers a; nextHandle := nextHandle a; calls := calls a |}.

Definition setIsReconnecting (x : bool) (a : App) : App :=
  {| currentClientId := currentClientId a; clientConnected := clientConnected a;
     reconnectAttempts := reconnectAttempts a;
     activityTracker := activityTracker a;
     updateIntervalId := updateIntervalId a; switchTimeout := switchTimeout a;
     lastSwitchTime := lastSwitchTime a; isReconnecting := x;
     timers := timers a; nextHandle := nextHandle a; calls := calls a |}.

Definition setTimers (q : list (Timer Callback)) (a : App) : App :=
  {| currentClientId := currentClientId a; clientConnected := clientConnected a;
     reconnectAttempts := reconnectAttempts a;
     activityTracker := activityTracker a;
     updateIntervalId := updateIntervalId a; switchTimeout := switchTimeout a;
     lastSwitchTime := lastSwitchTime a; isReconnecting := isReconnecting a;
     timers := q; nextHandle := nextHandle a; calls := calls a |}.

Definition call (c : Call) (a : App) : App :=
  {| currentClientId := currentClientId a; clientConnected := clientConnected a;
     reconnectAttempts := reconnectAttempts a;
     activityTracker := activityTracker a;
     updateIntervalId := updateIntervalId a; switchTimeout := switchTimeout a;
     lastSwitchTime := lastSwitchTime a; isReconnecting := isReconnecting a;
     timers := timers a; nextHandle := nextHandle a; calls := calls a ++ [c] |}.

(** [setTimeout] and [setInterval]: a fresh handle, appended to the queue. *)
Definition schedule (cb : Callback) (rep : bool) (ms : Q) (now : Z) (a : App)
  : App :=
  {| currentClientId := currentClientId a; clientConnected := clientConnected a;
     reconnectAttempts := reconnectAttempts a;
     activityTracker := activityTracker a;
     updateIntervalId := updateIntervalId a; switchTimeout := switchTimeout a;
     lastSwitchTime := lastSwitchTime a; isReconnecting := isReconnecting a;
     timers := timers a ++ [{| handle := nextHandle a; setAt := now;
                               delay := ms; repeat := rep; callback := cb |}];
     nextHandle := S (nextHandle a); calls := calls a |}.

(** [Math.min(15000 * Math.pow(1.5, reconnectAttempts - 1), 120000)].
    The value is computed over the rationals.  The double-precision result
    is the same: 1.5^k is exact up to k = 33, the product is exact while it
    is below the cap (k <= 5), and from k = 6 on it is at least 120000, so
    [Math.min] returns the cap. *)
Definition backoffTime (attempts : nat) : Q :=
  Qmin (15000 * (3 # 2) ^ (Z.of_nat attempts - 1)) 120000.

(** "Reconnect logic with exponential backoff" (lines 1231-1246) *)
Definition reconnect (now : Z) (a : App) : App :=
  if isReconnecting a then a
  else
    let a := setIsReconnecting true a in
    let a := setReconnectAttempts (S (reconnectAttempts a)) a in
    schedule ReconnectFire false (backoffTime (reconnectAttempts a)) now a.

Definition start (cfg : AppConfig) (now : Z) (ok : bool) (a : App) : App :=
  let a := call (Login (defaultClientId cfg)) a in
  if ok then setCurrentClientId (defaultClientId cfg) a
  else reconnect now a.

Definition startActivityTracking (cfg : AppConfig) (now : Z) (a : App) : App :=
  let a := setTimers (cancelOpt (updateIntervalId a) (timers a)) a in
  let h := nextHandle a in
  setUpdateIntervalId (Some h)
    (schedule PollTick true (inject_Z (updateInterval cfg)) now a).

(** The three handlers of [setupClientEventHandlers]. *)
Definition onReady (cfg : AppConfig) (now : Z) (a : App) : App :=
  startActivityTracking cfg now
    (setReconnectAttempts 0 (setClientConnected true a)).

Definition onError (now : Z) (a : App) : App :=
  let a := setClientConnected false a in
  if negb (isReconnecting a) then reconnect now a else a.

Definition onDisconnected (now : Z) (a : App) : App :=
  let a := setClientConnected false a in
  if negb (isReconnecting a) then reconnect now a else a.

(** What [switchClient] (lines 1249-1298) returns: a promise already
    settled, or one that the debounce timer [h] settles when it fires. *)
Inductive Switched : Type :=
| Settled (b : bool)
| Pending (h : nat).

Definition switchClient (newClientId : string) (now : Z) (a : App)
  : Switched * App :=
  if String.eqb newClientId (currentClientId a) && clientConnected a
  then (Settled true, a)
  else if (now - lastSwitchTime a <? 15000)%Z
  then (Settled false, a)
  else
    let a := setTimers (cancelOpt (switchTimeout a) (timers a)) a in
    let h := nextHandle a in
    (Pending h,
     setSwitchTimeout (Some h)
       (schedule (SwitchFire newClientId) false 3000 now a)).

(** The body of the debounce timer. *)
Definition switchNow (newClientId : string) (o : Oracle) (a : App) : App :=
  let a := if clientConnected a
           then setClientConnected false (call Destroy a)
           else a in
  let a := call NewClient a in
  let a := call (Login newClientId) a in
  if loginOk o
  then setLastSwitchTime (loginDone o) (setCurrentClientId newClientId a)
  else a.

Definition clientIdFor (cfg : AppConfig) (appType : string) : string :=
  match assoc appType (applications cfg) with
  | Some app => clientId app
  | None => defaultClientId cfg
  end.

(** The body of the poll interval (lines 1307-1338). *)
Definition pollTick (cfg : AppConfig) (e : PollEnv) (a : App) : App :=
  let '(d, t) := getCurrentActivity cfg e (activityTracker a) in
  let a := setActivityTracker t a in
  let wanted := clientIdFor cfg (appType d) in
  let a := if negb (String.eqb wanted (currentClientId a))
           then snd (switchClient wanted (now e) a)
           else a in
  if clientConnected a then call (SetActivity (activity d)) a else a.

(** [stop] (lines 1344-1357): the two stored handles are cleared; the
    reconnect timer has no stored handle. *)
Definition stop (a : App) : App :=
  let a := setUpdateIntervalId None
             (setTimers (cancelOpt (updateIntervalId a) (timers a)) a) in
  let a := setSwitchTimeout None
             (setTimers (cancelOpt (switchTimeout a) (timers a)) a) in
  call Destroy a.

(** The event loop runs the callback of timer [h] at [now], if it is
    pending and due. *)
Definition fire (cfg : AppConfig) (h : nat) (now : Z) (o : Oracle) (a : App)
  : App :=
  match findTimer h (timers a) with
  | Some t =>
      if isDue t now
      then
        let a := setTimers (afterFire t now (timers a)) a in
        match callback t with
        | PollTick => pollTick cfg (poll o) a
        | SwitchFire newClientId => switchNow newClientId o a
        | ReconnectFire => start cfg now (loginOk o) (setIsReconnecting false a)
        end
      else a
  | None => a
  end.

(** What can happen to a running application. *)
Inductive Event : Type :=
| Start (now : Z) (ok : bool)
| Ready (now : Z)
| Error (now : Z)
| Disconnected (now : Z)
| Fire (h : nat) (now : Z) (o : Oracle)
| Stop.

Definition step (cfg : AppConfig) (a : App) (ev : Event) : App :=
  match ev with
  | Start now ok => start cfg now ok a
  | Ready now => onReady cfg now a
  | Error now => onError now a
  | Disconnected now => onDisconnected now a
  | Fire h now o => fire cfg h now o a
  | Stop => stop a
  end.

Definition run (cfg : AppConfig) (a : App) (evs : list Event) : App :=
  fold_left (step cfg) evs a.

Definition reachable (cfg : AppConfig) (a : App) : Prop :=
  exists t0 evs, a = run cfg (newApp cfg t0) evs.

(** The debounce timers waiting in a queue: handle, target and due time. *)
Definition switchesOf (q : list (Timer Callback)) : list (nat * string * Q) :=
  flat_map (fun t => match callback t with
                     | SwitchFire id => [(handle t, id, due t)]
                     | _ => []
                     end) q.

Definition pendingSwitches (a : App) : list (nat * string * Q) :=
switchesOf (timers a).

Definition pendingReconnects (a : App) : list (Timer Callback) :=
  List.filter (fun t => match callback t with ReconnectFire => true | _ => false end)
         (timers a).

(** [n + 1] logins in a row that all fail: the first [start()], then each
    reconnect timer as it fires.  Timer [i] is fired at [120000 * (i + 1)] ms,
    when it is due whatever its delay. *)
Definition failedLogins (o : Oracle) (n : nat) : list Event :=
  Start 0 false
  :: map (fun i => Fire i (120000 * (Z.of_nat i + 1)) o) (seq 0 n).

(** The timer a request sets. *)
Definition debounceTimer (h : nat) (id : string) (now : Z) : Timer Callback :=
  {| handle := h; setAt := now; delay := 3000; repeat := false;
     callback := SwitchFire id |}.

(** What holds of every state the application reaches: handles are fresh,
    the two stored handles name timers of their own kind and every timer of
    that kind, a reconnect that is under way has its timer waiting, and no
    reconnect waits longer than 120 s. *)
Record Inv (a : App) : Prop := {
  inv_fresh : forall t, In t (timers a) -> handle t < nextHandle a;
  inv_switch_handle : forall h, switchTimeout a = Some h -> h < nextHandle a;
  inv_poll_handle : forall h, updateIntervalId a = Some h -> h < nextHandle a;
  inv_switch_timer : forall t id,
    In t (timers a) -> callback t = SwitchFire id ->
    switchTimeout a = Some (handle t);
  inv_poll_timer : forall t,
    In t (timers a) -> callback t = PollTick ->
    updateIntervalId a = Some (handle t);
  inv_switch_kind : forall t,
    In t (timers a) -> switchTimeout a = Some (handle t) ->
    exists id, callback t = SwitchFire id;
  inv_poll_kind : forall t,
    In t (timers a) -> updateIntervalId a = Some (handle t) ->
    callback t = PollTick;
  inv_same_handle : forall t u,
    In t (timers a) -> In u (timers a) -> handle t = handle u ->
    callback t = callback u;
  inv_reconnecting :
    isReconnecting a = true ->
    exists t, In t (timers a) /\ callback t = ReconnectFire;
  inv_reconnect_delay : forall t,
    In t (timers a) -> callback t = ReconnectFire -> (delay t <= 120000)%Q
}.

(** A reconnect timer's callback. *)
Definition isReconnect (c : Callback) : bool :=
  match c with ReconnectFire => true | _ => false end.

(** The poll intervals waiting in the queue. *)
Definition pendingPolls (a : App) : list (Timer Callback) :=
  List.filter (fun t => match callback t with PollTick => true | _ => false end)
         (timers a).

(** What holds of every queue the application reaches, besides [Inv]: no
    handle occurs twice, the poll timer is an interval and the others are
    timeouts, and reconnect timers wait only while [isReconnecting] is set,
    one at most. *)
Record Queue (a : App) : Prop := {
  queue_fresh : forall t, In t (timers a) -> handle t < nextHandle a;
  queue_nodup : List.NoDup (map handle (timers a));
  queue_repeat : forall t,
    In t (timers a) ->
    repeat t = match callback t with PollTick => true | _ => false end;
  queue_idle : isReconnecting a = false -> pendingReconnects a = [];
  queue_one_reconnect : length (pendingReconnects a) <= 1
}.

(** A client id the configuration names: the default one or the one of an
    application category. *)
Definition configured (cfg : AppConfig) (id : string) : Prop :=
  id = defaultClientId cfg
  \/ exists type app, In (type, app) (applications cfg) /\ id = clientId app.

(** The current client id, the target of every waiting debounce timer and
    every login made so far are configured ids. *)
Record Ids (cfg : AppConfig) (a : App) : Prop := {
  ids_current : configured cfg (currentClientId a);
  ids_pending : forall t id,
    In t (timers a) -> callback t = SwitchFire id -> configured cfg id;
  ids_calls : forall id, In (Login id) (calls a) -> configured cfg id
}.

End Multi.

(** ** Predicates on strings used in the statements *)

Fixpoint allChars (f : ascii -> bool) (s : string) : bool :=
  match s with
  | EmptyString => true
  | String c s' => f c && allChars f s'
  end.

(** A code unit a track or artist name is made of here: no line terminator
    and no dash. *)
Definition plain (c : ascii) : bool := Regex.dot c && Regex.notChar "-" c.

(** A piece of a title without a dash, and one without a dot. *)
Definition dashFree (s : string) : bool := allChars (Regex.notChar "-") s.

Definition dotFree (s : string) : bool := allChars (Regex.notChar ".") s.

(** The title forms the Discord branch tells apart, and the state it shows
    for each. *)
Inductive discordShows : string -> string -> Prop :=
| shows_channel (c s rest : string) :
    dashFree c = true -> dashFree s = true ->
    discordShows (c +:+ " - " +:+ s +:+ " - " +:+ rest)
                 ("In #" +:+ c +:+ " on " +:+ s)
| shows_chat (c rest : string) :
    dashFree c = true -> Js.includes rest " - " = false ->
    discordShows (c +:+ " - " +:+ rest) ("Chatting in " +:+ c)
| shows_direct (title : string) :
    Js.includes title " - " = false ->
    Js.includes (Js.toLowerCase title) "direct" = true ->
    discordShows title "In Direct Messages"
| shows_title (title : string) :
    Js.includes title " - " = false ->
    Js.includes (Js.toLowerCase title) "direct" = false ->
    discordShows title title.

(** The suffixes of a string, longest first. *)
Fixpoint suffixes (s : string) : list string :=
  s :: match s with
       | EmptyString => []
       | String _ s' => suffixes s'
       end.

(** ** Ranges of the numbers a poll reads *)



(** ** Sample inputs *)

Definition spotifyRule : Rule.t :=
  Rule.mk "Spotify" "music" "spotify" "Listening to Spotify".

Definition singleConfig : Single.AppConfig :=
  {| Single.clientId := "1000";
     Single.updateInterval := 10000;
     Single.enableDetailedStats := true;
     Single.enableSystemInfo := true;
     Single.idleTimeout := 300000;
     Single.priorityApps := [spotifyRule];
     Single.customApps := [] |}.

Definition multiConfig : Multi.AppConfig :=
  {| Multi.defaultClientId := "1000";
     Multi.updateInterval := 10000;
     Multi.enableDetailedStats := true;
     Multi.enableSystemInfo := true;
     Multi.idleTimeout := 300000;
     Multi.applications :=
       [("games", {| Multi.clientId := "2000"; Multi.processNames := ["steam"] |});
        ("music", {| Multi.clientId := "3000"; Multi.processNames := ["spotify"] |})];
     Multi.priorityApps := [spotifyRule];
     Multi.customApps := [] |}.

(** A poll that sees the window [title] of [process] at [now]. *)
Definition sees (title process : string) (now : Z) : PollEnv :=
  {| activeWindow := Some {| MainWindowTitle := title; ProcessName := process |};
     now := now; cpuUsage := 12; memoryUsage := 40; hostname := "DESKTOP";
     release := "10.0.19045" |}.

Definition loginFails : Oracle :=
  {| poll := sees "Documents" "explorer" 0; loginOk := false; loginDone := 0 |}.

Definition loginWorks (done : Z) : Oracle :=
  {| poll := sees "Documents" "explorer" done; loginOk := true; loginDone := done |}.

(** The same with a poll every five seconds. *)
Definition fastConfig : Multi.AppConfig :=
  {| Multi.defaultClientId := "1000";
     Multi.updateInterval := 5000;
     Multi.enableDetailedStats := true;
     Multi.enableSystemInfo := true;
     Multi.idleTimeout := 300000;
     Multi.applications := Multi.applications multiConfig;
     Multi.priorityApps := [spotifyRule];
     Multi.customApps := [] |}.



(** Connected with the default client id, polling. *)
Definition connected : Multi.App :=
  Multi.run multiConfig (Multi.newApp multiConfig 0)
    [Multi.Start 1000000 true; Multi.Ready 1000100].

(** The poll at 1010100 ms sees Spotify and asks for the music client; the
    debounce timer fires at 1013100 ms and the login completes at 1013200 ms. *)
Definition switchedToMusic : Multi.App :=
  Multi.run multiConfig connected
    [Multi.Fire 0 1010100
       {| poll := sees "Song - Artist - Spotify" "Spotify" 1010100;
          loginOk := true; loginDone := 1010100 |};
     Multi.Fire 1 1013100 (loginWorks 1013200);
     Multi.Ready 1013300].

(** ** More sample inputs *)

Definition discordRule : Rule.t := Rule.mk "Discord" "chat" "discord" "Chatting on Discord".
Definition codeRule : Rule.t := Rule.mk "Code" "coding" "vscode" "Coding in VS Code".
Definition chromeRule : Rule.t := Rule.mk "chrome" "browsing" "chrome" "Browsing the web".
Definition steamRule : Rule.t := Rule.mk "steam" "gaming" "steam" "On Steam".
Definition notepadRule : Rule.t := Rule.mk "notepad" "writing" "windows" "Taking notes".

(** A custom rule for the host process of store applications. *)
Definition frameRule : Rule.t :=
  Rule.mk "ApplicationFrameHost" "app" "windows" "Using a Windows app".

Definition frameConfig : Single.AppConfig :=
  {| Single.clientId := "1000";
     Single.updateInterval := 10000;
     Single.enableDetailedStats := true;
     Single.enableSystemInfo := true;
     Single.idleTimeout := 300000;
     Single.priorityApps := [];
     Single.customApps := [frameRule] |}.

Definition multiRules : Multi.AppConfig :=
  {| Multi.defaultClientId := "1000";
     Multi.updateInterval := 10000;
     Multi.enableDetailedStats := true;
     Multi.enableSystemInfo := true;
     Multi.idleTimeout := 300000;
     Multi.applications := Multi.applications multiConfig;
     Multi.priorityApps := [spotifyRule; discordRule; codeRule; chromeRule];
     Multi.customApps := [notepadRule] |}.

Definition singleRules : Single.AppConfig :=
  {| Single.clientId := "1000";
     Single.updateInterval := 10000;
     Single.enableDetailedStats := true;
     Single.enableSystemInfo := true;
     Single.idleTimeout := 300000;
     Single.priorityApps := [spotifyRule; discordRule; steamRule; chromeRule; codeRule];
     Single.customApps := [notepadRule] |}.

(** Connected and polling; the poll at 1020000 ms sees Steam and asks for the
    games client. *)
Definition steamSeen : Multi.App :=
  Multi.run multiConfig connected
    [Multi.Fire 0 1020000
       {| poll := sees "Steam" "steam" 1020000; loginOk := true;
          loginDone := 1020000 |}].

(** The same, and at 1021000 ms the transport drops. *)
Definition busy : Multi.App :=
  Multi.run multiConfig steamSeen [Multi.Disconnected 1021000].

(** On the music client when the transport drops at 1030000 ms. *)
Definition musicDropped : Multi.App :=
  Multi.run multiConfig switchedToMusic [Multi.Disconnected 1030000].

(** Three logins fail in a row, the fourth succeeds. *)
Definition recovered : Multi.App :=
  Multi.run multiConfig (Multi.newApp multiConfig 0)
    (Multi.failedLogins loginFails 2
     ++ [Multi.Fire 2 360000 (loginWorks 360050)]).

(** A poll during which the script file cannot be written. *)
Definition blind (now : Z) : PollEnv :=
  {| activeWindow := None; now := now; cpuUsage := 12; memoryUsage := 40;
     hostname := "DESKTOP"; release := "10.0.19045" |}.

(** The single-application variant: the first login fails, then the client
    reports ready. *)
Definition singleWaiting : Single.App :=
  Single.run singleConfig (Single.newApp 0)
    [Single.Start 0 false; Single.Ready 100].

(** * Facts *)

(** ** Strings *)


Lemma append_length (s1 s2 : string) :
  String.length (s1 +:+ s2) = String.length s1 + String.length s2.
Proof. induction s1 as [|c s1 IH]; simpl; [reflexivity | now rewrite IH]. Qed.

(** ** The timer queue *)

Section QueueFacts.
Context {C : Type}.
Implicit Types (q : list (Timer C)) (t u : Timer C).

Lemma subqueue_refl q : subqueue q q.
Proof. intros t Ht. exists t. tauto. Qed.

Lemma subqueue_trans q1 q2 q3 : subqueue q1 q2 -> subqueue q2 q3 -> subqueue q1 q3.
Proof.
  intros H12 H23 t Ht. destruct (H12 t Ht) as [u [Hu [E1 [E2 E3]]]].
  destruct (H23 u Hu) as [v [Hv [F1 [F2 F3]]]].
  exists v. repeat split; congruence.
Qed.

Lemma cancel_In h q t : In t (cancel h q) <-> In t q /\ handle t <> h.
Proof.
  unfold cancel. rewrite filter_In, negb_true_iff, Nat.eqb_neq. tauto.
Qed.

Lemma cancel_subqueue h q : subqueue (cancel h q) q.
Proof. intros t Ht. apply cancel_In in Ht. exists t. tauto. Qed.

Lemma cancelOpt_subqueue o q : subqueue (cancelOpt o q) q.
Proof. destruct o; simpl; [apply cancel_subqueue | apply subqueue_refl]. Qed.

Lemma cancelOpt_In o q t :
  In t (cancelOpt o q) <-> In t q /\ o <> Some (handle t).
Proof.
  destruct o as [h|]; simpl.
  - rewrite cancel_In. split; intros [H1 H2]; split; auto; congruence.
  - split; [intros H; split; [assumption | discriminate] | tauto].
Qed.

Lemma afterFire_subqueue t now q : subqueue (afterFire t now q) q.
Proof.
  unfold afterFire. destruct (repeat t).
  - intros u Hu. apply in_map_iff in Hu. destruct Hu as [v [Hv Hin]].
    exists v. split; [assumption|].
    destruct (Nat.eqb (handle v) (handle t)); subst u; simpl; auto.
  - apply cancel_subqueue.
Qed.

(** A timer with another handle survives the firing of [t]. *)
Lemma afterFire_keeps t now q u :
  In u q -> handle u <> handle t ->
  In u (afterFire t now q).
Proof.
  intros Hin Hne. unfold afterFire. destruct (repeat t).
  - apply in_map_iff. exists u. split; [|assumption].
    apply Nat.eqb_neq in Hne. now rewrite Hne.
  - apply cancel_In. tauto.
Qed.

Lemma findTimer_Some h q t :
  findTimer h q = Some t -> In t q /\ handle t = h.
Proof.
  unfold findTimer. intros H. apply find_some in H.
  rewrite Nat.eqb_eq in H. exact H.
Qed.

Lemma findTimer_app_fresh h q t :
  (forall u, In u q -> handle u <> h) -> handle t = h ->
  findTimer h (q ++ [t]) = Some t.
Proof.
  intros Hq Ht. unfold findTimer. induction q as [|u q IH]; simpl.
  - rewrite Ht, Nat.eqb_refl. reflexivity.
  - destruct (Nat.eqb (handle u) h) eqn:E.
    + apply Nat.eqb_eq in E. exfalso. apply (Hq u); [now left | assumption].
    + apply IH. intros v Hv. apply Hq. now right.
Qed.

Lemma isDue_iff t now (ms : Z) :
  delay t = inject_Z ms -> (isDue t now = true <-> (setAt t + ms <= now)%Z).
Proof.
  intros Hd. unfold isDue, due.
  rewrite Hd, Qle_bool_iff, <- inject_Z_plus, <- Zle_Qle. reflexivity.
Qed.
End QueueFacts.

(** ** The multi-application variant: what every reachable state satisfies *)

Module MultiFacts.
Import Multi.

Lemma Inv_newApp cfg t0 : Inv (newApp cfg t0).
Proof. constructor; simpl; intros; try contradiction; discriminate. Qed.

(** Timers may leave the queue and fields the invariant does not read may
    change. *)
Lemma Inv_frame a a' :
  Inv a ->
  subqueue (timers a') (timers a) ->
  nextHandle a' = nextHandle a ->
  switchTimeout a' = switchTimeout a ->
  updateIntervalId a' = updateIntervalId a ->
  (isReconnecting a' = true ->
   exists t, In t (timers a') /\ callback t = ReconnectFire) ->
  Inv a'.
Proof.
  intros [] Hsub Hn Hs Hp Hrec. constructor; rewrite ?Hn, ?Hs, ?Hp; auto.
  - intros t Ht. destruct (Hsub t Ht) as [u [Hu [E _]]].
    rewrite <- E. auto.
  - intros t id Ht Hc. destruct (Hsub t Ht) as [u [Hu [E1 [E2 _]]]].
    rewrite <- E1. apply (inv_switch_timer0 u id); congruence.
  - intros t Ht Hc. destruct (Hsub t Ht) as [u [Hu [E1 [E2 _]]]].
    rewrite <- E1. apply (inv_poll_timer0 u); congruence.
  - intros t Ht Hsw. destruct (Hsub t Ht) as [u [Hu [E1 [E2 _]]]].
    rewrite <- E2. apply inv_switch_kind0; congruence.
  - intros t Ht Hsw. destruct (Hsub t Ht) as [u [Hu [E1 [E2 _]]]].
    rewrite <- E2. apply inv_poll_kind0; congruence.
  - intros t u Ht Hu E.
    destruct (Hsub t Ht) as [t' [Ht' [E1 [E2 _]]]].
    destruct (Hsub u Hu) as [u' [Hu' [F1 [F2 _]]]].
    rewrite <- E2, <- F2. apply inv_same_handle0; congruence.
  - intros t Ht Hc. destruct (Hsub t Ht) as [u [Hu [E1 [E2 E3]]]].
    rewrite <- E3. apply inv_reconnect_delay0; congruence.
Qed.

(** The same queue and the same stored handles. *)
Lemma Inv_same a a' :
  Inv a ->
  timers a' = timers a ->
  nextHandle a' = nextHandle a ->
  switchTimeout a' = switchTimeout a ->
  updateIntervalId a' = updateIntervalId a ->
  (isReconnecting a' = true -> isReconnecting a = true) ->
  Inv a'.
Proof.
  intros H Ht Hn Hs Hp Hr. apply (Inv_frame a); auto.
  - rewrite Ht. apply subqueue_refl.
  - intros Hr'. rewrite Ht. apply (inv_reconnecting a H). auto.
Qed.

Ltac same := eapply Inv_same; [eassumption | reflexivity ..| simpl; auto].

Lemma Inv_call c a : Inv a -> Inv (call c a).
Proof. intros H. same. Qed.

Lemma Inv_setCurrentClientId x a : Inv a -> Inv (setCurrentClientId x a).
Proof. intros H. same. Qed.

Lemma Inv_setClientConnected x a : Inv a -> Inv (setClientConnected x a).
Proof. intros H. same. Qed.

Lemma Inv_setReconnectAttempts x a : Inv a -> Inv (setReconnectAttempts x a).
Proof. intros H. same. Qed.

Lemma Inv_setActivityTracker x a : Inv a -> Inv (setActivityTracker x a).
Proof. intros H. same. Qed.

Lemma Inv_setLastSwitchTime x a : Inv a -> Inv (setLastSwitchTime x a).
Proof. intros H. same. Qed.

(** Cancelling through a stored handle never removes a reconnect timer. *)
Lemma Inv_cancel_poll a :
  Inv a -> Inv (setTimers (cancelOpt (updateIntervalId a) (timers a)) a).
Proof.
  intros H. apply (Inv_frame a); simpl; auto using cancelOpt_subqueue.
  intros Hr. destruct (inv_reconnecting a H Hr) as [t [Ht Hc]].
  exists t. split; [|assumption]. apply cancelOpt_In. split; [assumption|].
  intros E. pose proof (inv_poll_kind a H t Ht E). congruence.
Qed.

Lemma Inv_cancel_switch a :
  Inv a -> Inv (setTimers (cancelOpt (switchTimeout a) (timers a)) a).
Proof.
  intros H. apply (Inv_frame a); simpl; auto using cancelOpt_subqueue.
  intros Hr. destruct (inv_reconnecting a H Hr) as [t [Ht Hc]].
  exists t. split; [|assumption]. apply cancelOpt_In. split; [assumption|].
  intros E. destruct (inv_switch_kind a H t Ht E) as [id Hid]. congruence.
Qed.

Lemma no_poll_after_cancel a t :
  Inv a -> In t (cancelOpt (updateIntervalId a) (timers a)) ->
  callback t <> PollTick.
Proof.
  intros H Ht Hc. apply cancelOpt_In in Ht. destruct Ht as [Ht Hne].
  apply Hne. apply (inv_poll_timer a H t); assumption.
Qed.

(** Once the stored debounce handle is cancelled no debounce timer waits. *)
Lemma no_switch_after_cancel a t id :
  Inv a -> In t (cancelOpt (switchTimeout a) (timers a)) ->
  callback t <> SwitchFire id.
Proof.
  intros H Ht Hc. apply cancelOpt_In in Ht. destruct Ht as [Ht Hne].
  apply Hne. apply (inv_switch_timer a H t id); assumption.
Qed.

(** A new timer under a fresh handle.  [sw] and [po] are the stored handles
    afterwards: a debounce timer is stored in [switchTimeout], the poll
    interval in [updateIntervalId], a reconnect timer nowhere. *)
Lemma Inv_push a a' cb rep ms now :
  Inv a ->
  timers a' = timers a ++ [{| handle := nextHandle a; setAt := now;
                              delay := ms; repeat := rep; callback := cb |}] ->
  nextHandle a' = S (nextHandle a) ->
  match cb with
  | SwitchFire _ =>
      switchTimeout a' = Some (nextHandle a)
      /\ updateIntervalId a' = updateIntervalId a
      /\ (forall t id, In t (timers a) -> callback t <> SwitchFire id)
  | PollTick =>
      switchTimeout a' = switchTimeout a
      /\ updateIntervalId a' = Some (nextHandle a)
      /\ (forall t, In t (timers a) -> callback t <> PollTick)
  | ReconnectFire =>
      switchTimeout a' = switchTimeout a
      /\ updateIntervalId a' = updateIntervalId a
      /\ (ms <= 120000)%Q
  end ->
  (isReconnecting a' = true -> isReconnecting a = true \/ cb = ReconnectFire) ->
  Inv a'.
Proof.
  intros [] Ht Hn Hcb Hrec.
  assert (Hin : forall t, In t (timers a') ->
            In t (timers a) \/
            (handle t = nextHandle a /\ callback t = cb /\ delay t = ms)).
  { intros t Hi. rewrite Ht in Hi. apply in_app_or in Hi.
    destruct Hi as [Hi|[<-|[]]]; [now left | right; simpl; auto]. }
  constructor; rewrite ?Hn.
  - intros t Hi. destruct (Hin t Hi) as [Ho|[E _]];
      [specialize (inv_fresh0 t Ho) | ]; lia.
  - intros h Hh. destruct cb; destruct Hcb as [Hs Hcb]; rewrite Hs in Hh.
    + specialize (inv_switch_handle0 h Hh). lia.
    + inversion Hh. lia.
    + specialize (inv_switch_handle0 h Hh). lia.
  - intros h Hh. destruct cb.
    + destruct Hcb as [_ [Hp _]]. rewrite Hp in Hh. inversion Hh. lia.
    + destruct Hcb as [_ [Hp _]]. rewrite Hp in Hh.
      specialize (inv_poll_handle0 h Hh). lia.
    + destruct Hcb as [_ [Hp _]]. rewrite Hp in Hh.
      specialize (inv_poll_handle0 h Hh). lia.
  - intros t id Hi Hc. destruct (Hin t Hi) as [Ho|[E [Ec _]]].
    + destruct cb.
      * destruct Hcb as [Hs _]. rewrite Hs. eauto.
      * destruct Hcb as [_ [_ Hno]]. exfalso. exact (Hno t id Ho Hc).
      * destruct Hcb as [Hs _]. rewrite Hs. eauto.
    + rewrite Hc in Ec. subst cb. destruct Hcb as [Hs _]. congruence.
  - intros t Hi Hc. destruct (Hin t Hi) as [Ho|[E [Ec _]]].
    + destruct cb.
      * destruct Hcb as [_ [_ Hno]]. exfalso. exact (Hno t Ho Hc).
      * destruct Hcb as [_ [Hp _]]. rewrite Hp. eauto.
      * destruct Hcb as [_ [Hp _]]. rewrite Hp. eauto.
    + rewrite Hc in Ec. subst cb. destruct Hcb as [_ [Hp _]]. congruence.
  - intros t Hi Hsw. destruct (Hin t Hi) as [Ho|[E [Ec _]]].
    + destruct cb.
      * destruct Hcb as [Hs _]. rewrite Hs in Hsw. auto.
      * destruct Hcb as [Hs _]. rewrite Hs in Hsw. inversion Hsw.
        specialize (inv_fresh0 t Ho). lia.
      * destruct Hcb as [Hs _]. rewrite Hs in Hsw. auto.
    + destruct cb.
      * destruct Hcb as [Hs _]. rewrite Hs, E in Hsw.
        specialize (inv_switch_handle0 _ Hsw). lia.
      * eauto.
      * destruct Hcb as [Hs _]. rewrite Hs, E in Hsw.
        specialize (inv_switch_handle0 _ Hsw). lia.
  - intros t Hi Hp. destruct (Hin t Hi) as [Ho|[E [Ec _]]].
    + destruct cb.
      * destruct Hcb as [_ [Hq _]]. rewrite Hq in Hp. inversion Hp.
        specialize (inv_fresh0 t Ho). lia.
      * destruct Hcb as [_ [Hq _]]. rewrite Hq in Hp. auto.
      * destruct Hcb as [_ [Hq _]]. rewrite Hq in Hp. auto.
    + destruct cb.
      * assumption.
      * destruct Hcb as [_ [Hq _]]. rewrite Hq, E in Hp.
        specialize (inv_poll_handle0 _ Hp). lia.
      * destruct Hcb as [_ [Hq _]]. rewrite Hq, E in Hp.
        specialize (inv_poll_handle0 _ Hp). lia.
  - intros t u Hi Hj E.
    destruct (Hin t Hi) as [Ho|[E1 [Ec1 _]]],
             (Hin u Hj) as [Hp|[E2 [Ec2 _]]]; auto.
    + specialize (inv_fresh0 t Ho). lia.
    + specialize (inv_fresh0 u Hp). lia.
    + congruence.
  - intros Hr. destruct (Hrec Hr) as [Hr'|Hr'].
    + destruct (inv_reconnecting0 Hr') as [t [Hi Hc]].
      exists t. split; [rewrite Ht; apply in_or_app; now left | assumption].
    + eexists. split; [rewrite Ht; apply in_or_app; right; now left|].
      simpl. assumption.
  - intros t Hi Hc. destruct (Hin t Hi) as [Ho|[E [Ec Ed]]]; auto.
    rewrite Hc in Ec. subst cb. destruct Hcb as [_ [_ Hms]]. now rewrite Ed.
Qed.

Lemma backoffTime_le n : (backoffTime n <= 120000)%Q.
Proof. unfold backoffTime. apply Q.le_min_r. Qed.

Lemma Inv_reconnect now a : Inv a -> Inv (reconnect now a).
Proof.
  intros H. unfold reconnect. destruct (isReconnecting a) eqn:Hr; [assumption|].
  eapply (Inv_push a); [eassumption | reflexivity | reflexivity | | ]; simpl.
  - repeat split; auto. apply backoffTime_le.
  - auto.
Qed.

Lemma Inv_start cfg now ok a : Inv a -> Inv (start cfg now ok a).
Proof.
  intros H. unfold start. destruct ok.
  - apply Inv_setCurrentClientId, Inv_call, H.
  - apply Inv_reconnect, Inv_call, H.
Qed.

Lemma Inv_startActivityTracking cfg now a :
  Inv a -> Inv (startActivityTracking cfg now a).
Proof.
  intros H. unfold startActivityTracking.
  eapply (Inv_push _ _ PollTick); [apply Inv_cancel_poll, H | reflexivity ..| | ];
    simpl; auto.
  repeat split; auto. intros t. apply no_poll_after_cancel, H.
Qed.

Lemma Inv_onReady cfg now a : Inv a -> Inv (onReady cfg now a).
Proof.
  intros H. apply Inv_startActivityTracking, Inv_setReconnectAttempts,
    Inv_setClientConnected, H.
Qed.

Lemma Inv_onError now a : Inv a -> Inv (onError now a).
Proof.
  intros H. unfold onError.
  destruct (negb _); [apply Inv_reconnect|]; apply Inv_setClientConnected, H.
Qed.

Lemma Inv_onDisconnected now a : Inv a -> Inv (onDisconnected now a).
Proof. apply Inv_onError. Qed.

Lemma Inv_switchClient id now a : Inv a -> Inv (snd (switchClient id now a)).
Proof.
  intros H. unfold switchClient.
  destruct (_ && _); [exact H|].
  destruct (_ <? _)%Z; [exact H|]. simpl.
  eapply (Inv_push _ _ (SwitchFire id));
    [apply Inv_cancel_switch, H | reflexivity ..| | ]; simpl; auto.
  repeat split; auto. intros t id'. apply no_switch_after_cancel, H.
Qed.

Lemma Inv_switchNow id o a : Inv a -> Inv (switchNow id o a).
Proof.
  intros H. unfold switchNow.
  assert (H1 : Inv (if clientConnected a
                    then setClientConnected false (call Destroy a) else a)).
  { destruct (clientConnected a);
      [apply Inv_setClientConnected, Inv_call|]; exact H. }
  destruct (loginOk o).
  - apply Inv_setLastSwitchTime, Inv_setCurrentClientId, Inv_call, Inv_call, H1.
  - apply Inv_call, Inv_call, H1.
Qed.

Lemma Inv_pollTick cfg e a : Inv a -> Inv (pollTick cfg e a).
Proof.
  intros H. unfold pollTick.
  destruct (getCurrentActivity cfg e (activityTracker a)) as [d t].
  assert (H1 : Inv (setActivityTracker t a)) by now apply Inv_setActivityTracker.
  set (a1 := setActivityTracker t a) in *.
  assert (H2 : Inv (if negb (String.eqb (clientIdFor cfg (appType d))
                               (currentClientId a1))
                    then snd (switchClient (clientIdFor cfg (appType d)) (now e) a1)
                    else a1)).
  { destruct (negb _); [apply Inv_switchClient|]; exact H1. }
  destruct (clientConnected _); [apply Inv_call|]; exact H2.
Qed.

(** Forgetting a stored handle. *)
Lemma Inv_clear a a' :
  Inv a ->
  timers a' = timers a ->
  nextHandle a' = nextHandle a ->
  (switchTimeout a' = switchTimeout a
   \/ (switchTimeout a' = None
       /\ forall t id, In t (timers a) -> callback t <> SwitchFire id)) ->
  (updateIntervalId a' = updateIntervalId a
   \/ (updateIntervalId a' = None
       /\ forall t, In t (timers a) -> callback t <> PollTick)) ->
  isReconnecting a' = isReconnecting a ->
  Inv a'.
Proof.
  intros [] Ht Hn Hs Hp Hr. constructor; rewrite ?Ht, ?Hn, ?Hr; auto.
  - intros h Hh. destruct Hs as [Hs|[Hs _]]; rewrite Hs in Hh;
      [auto | discriminate].
  - intros h Hh. destruct Hp as [Hp|[Hp _]]; rewrite Hp in Hh;
      [auto | discriminate].
  - intros t id Hi Hc. destruct Hs as [Hs|[Hs Hno]].
    + rewrite Hs. eauto.
    + exfalso. exact (Hno t id Hi Hc).
  - intros t Hi Hc. destruct Hp as [Hp|[Hp Hno]].
    + rewrite Hp. eauto.
    + exfalso. exact (Hno t Hi Hc).
  - intros t Hi Hh. destruct Hs as [Hs|[Hs _]]; rewrite Hs in Hh;
      [auto | discriminate].
  - intros t Hi Hh. destruct Hp as [Hp|[Hp _]]; rewrite Hp in Hh;
      [auto | discriminate].
Qed.

Lemma Inv_stop a : Inv a -> Inv (stop a).
Proof.
  intros H. unfold stop. apply Inv_call.
  pose proof (Inv_cancel_poll a H) as H1.
  set (a1 := setTimers (cancelOpt (updateIntervalId a) (timers a)) a) in *.
  assert (H2 : Inv (setUpdateIntervalId None a1)).
  { apply (Inv_clear a1); simpl; auto.
    right. split; [reflexivity|]. intros t. apply no_poll_after_cancel, H. }
  set (a2 := setUpdateIntervalId None a1) in *.
  pose proof (Inv_cancel_switch a2 H2) as H3.
  set (a3 := setTimers (cancelOpt (switchTimeout a2) (timers a2)) a2) in *.
  apply (Inv_clear a3); simpl; auto.
  right. split; [reflexivity|].
  intros t id. apply (no_switch_after_cancel a2), H2.
Qed.

Lemma Inv_fire cfg h now o a : Inv a -> Inv (fire cfg h now o a).
Proof.
  intros H. unfold fire.
  destruct (findTimer h (timers a)) as [t|] eqn:Hf; [|exact H].
  destruct (isDue t now); [|exact H].
  apply findTimer_Some in Hf. destruct Hf as [Hin Hh].
  destruct (callback t) eqn:Hc.
  - apply Inv_pollTick. apply (Inv_frame a); simpl; auto using afterFire_subqueue.
    intros Hr. destruct (inv_reconnecting a H Hr) as [u [Hu Hcu]].
    exists u. split; [|assumption]. apply afterFire_keeps; [assumption|].
    intros E. pose proof (inv_same_handle a H u t Hu Hin E). congruence.
  - apply Inv_switchNow. apply (Inv_frame a); simpl; auto using afterFire_subqueue.
    intros Hr. destruct (inv_reconnecting a H Hr) as [u [Hu Hcu]].
    exists u. split; [|assumption]. apply afterFire_keeps; [assumption|].
    intros E. pose proof (inv_same_handle a H u t Hu Hin E). congruence.
  - apply Inv_start. apply (Inv_frame a); simpl; auto using afterFire_subqueue.
    discriminate.
Qed.

Lemma Inv_step cfg a ev : Inv a -> Inv (step cfg a ev).
Proof.
  intros H. destruct ev; simpl.
  - now apply Inv_start.
  - now apply Inv_onReady.
  - now apply Inv_onError.
  - now apply Inv_onDisconnected.
  - now apply Inv_fire.
  - now apply Inv_stop.
Qed.

Lemma Inv_run cfg evs : forall a, Inv a -> Inv (run cfg a evs).
Proof.
  unfold run. induction evs as [|ev evs IH]; intros a H; simpl.
  - exact H.
  - apply IH, Inv_step, H.
Qed.

Lemma reachable_Inv cfg a : reachable cfg a -> Inv a.
Proof. intros [t0 [evs ->]]. apply Inv_run, Inv_newApp. Qed.
(** *** Switching the client *)

Lemma switchesOf_none q :
  (forall t id, In t q -> callback t <> SwitchFire id) -> switchesOf q = [].
Proof.
  unfold switchesOf. induction q as [|t q IH]; intros H; simpl.
  - reflexivity.
  - rewrite IH by (intros u id Hu; apply H; now right).
    destruct (callback t) eqn:Hc; try reflexivity.
    exfalso. apply (H t newClientId); [now left | assumption].
Qed.

Lemma pendingSwitches_none a :
  (forall t id, In t (timers a) -> callback t <> SwitchFire id) ->
  pendingSwitches a = [].
Proof. apply switchesOf_none. Qed.

Lemma pendingSwitches_last a q t id :
  timers a = q ++ [t] ->
  (forall u id', In u q -> callback u <> SwitchFire id') ->
  callback t = SwitchFire id ->
  pendingSwitches a = [(handle t, id, due t)].
Proof.
  intros Ht Hq Hc. unfold pendingSwitches, switchesOf.
  rewrite Ht, flat_map_app.
  fold (switchesOf q). rewrite (switchesOf_none q Hq). simpl.
  now rewrite Hc.
Qed.

Lemma pendingSwitches_In a t id :
  In t (timers a) -> callback t = SwitchFire id ->
  In (handle t, id, due t) (pendingSwitches a).
Proof.
  intros Ht Hc. unfold pendingSwitches, switchesOf. apply in_flat_map.
  exists t. split; [assumption|]. rewrite Hc. now left.
Qed.

(** A request that passes both guards. *)
Lemma switchClient_proceeds id now a :
  Inv a ->
  String.eqb id (currentClientId a) && clientConnected a = false ->
  (15000 <= now - lastSwitchTime a)%Z ->
  let a' := snd (switchClient id now a) in
  fst (switchClient id now a) = Pending (nextHandle a)
  /\ timers a' = cancelOpt (switchTimeout a) (timers a)
                 ++ [debounceTimer (nextHandle a) id now]
  /\ pendingSwitches a' = [(nextHandle a, id, (inject_Z now + 3000)%Q)]
  /\ findTimer (nextHandle a) (timers a') = Some (debounceTimer (nextHandle a) id now)
  /\ nextHandle a' = S (nextHandle a)
  /\ switchTimeout a' = Some (nextHandle a)
  /\ calls a' = calls a
  /\ currentClientId a' = currentClientId a
  /\ clientConnected a' = clientConnected a
  /\ lastSwitchTime a' = lastSwitchTime a.
Proof.
  intros H Hg Hr. unfold switchClient. rewrite Hg.
  assert (E : (now - lastSwitchTime a <? 15000)%Z = false) by (apply Z.ltb_ge; lia).
  rewrite E. simpl. repeat split.
  - apply (pendingSwitches_last _ (cancelOpt (switchTimeout a) (timers a))
             (debounceTimer (nextHandle a) id now) id);
      [reflexivity | | reflexivity].
    intros t id'. apply no_switch_after_cancel, H.
  - apply findTimer_app_fresh; [|reflexivity].
    intros u Hu. apply cancelOpt_In in Hu. destruct Hu as [Hu _].
    pose proof (inv_fresh a H u Hu). lia.
Qed.

(** A request inside the 15 s window, or for the connected client. *)
Lemma switchClient_dropped id now a :
  (now - lastSwitchTime a < 15000)%Z ->
  snd (switchClient id now a) = a
  /\ fst (switchClient id now a)
     = Settled (String.eqb id (currentClientId a) && clientConnected a).
Proof.
  intros Hr. unfold switchClient.
  destruct (_ && _); [split; reflexivity|].
  assert (E : (now - lastSwitchTime a <? 15000)%Z = true) by (apply Z.ltb_lt; lia).
  rewrite E. split; reflexivity.
Qed.

Lemma findTimer_None h (q : list (Timer Callback)) :
  (forall t, In t q -> handle t <> h) -> findTimer h q = None.
Proof.
  intros H. unfold findTimer. induction q as [|t q IH]; simpl; [reflexivity|].
  destruct (Nat.eqb (handle t) h) eqn:E.
  - apply Nat.eqb_eq in E. exfalso. apply (H t); [now left | assumption].
  - apply IH. intros u Hu. apply H. now right.
Qed.

(** The debounce timer [h] fires. *)
Lemma fire_debounce cfg h id set now o a :
  findTimer h (timers a) = Some (debounceTimer h id set) ->
  (set + 3000 <= now)%Z ->
  fire cfg h now o a = switchNow id o (setTimers (cancel h (timers a)) a).
Proof.
  intros Hf Hd. unfold fire. rewrite Hf.
  assert (E : isDue (debounceTimer h id set) now = true).
  { apply (isDue_iff _ _ 3000); [reflexivity | exact Hd]. }
  rewrite E. reflexivity.
Qed.

Lemma fire_early cfg h id set now o a :
  findTimer h (timers a) = Some (debounceTimer h id set) ->
  (now < set + 3000)%Z ->
  fire cfg h now o a = a.
Proof.
  intros Hf Hd. unfold fire. rewrite Hf.
  assert (E : isDue (debounceTimer h id set) now = false).
  { apply not_true_is_false. intros E.
    apply (isDue_iff _ _ 3000) in E; [simpl in E; lia | reflexivity]. }
  rewrite E. reflexivity.
Qed.

Lemma switchNow_calls id o a :
  calls (switchNow id o a)
  = calls a ++ (if clientConnected a then [Destroy] else [])
            ++ [NewClient; Login id].
Proof.
  unfold switchNow.
  destruct (clientConnected a), (loginOk o); simpl;
    rewrite <- ?app_assoc; reflexivity.
Qed.

Lemma switchNow_ok id o a :
  loginOk o = true ->
  currentClientId (switchNow id o a) = id
  /\ lastSwitchTime (switchNow id o a) = loginDone o.
Proof. intros H. unfold switchNow. rewrite H. split; reflexivity. Qed.

Lemma switchNow_failed id o a :
  loginOk o = false ->
  currentClientId (switchNow id o a) = currentClientId a
  /\ lastSwitchTime (switchNow id o a) = lastSwitchTime a.
Proof.
  intros H. unfold switchNow. rewrite H.
  destruct (clientConnected a); split; reflexivity.
Qed.

Lemma switchNow_timers id o a : timers (switchNow id o a) = timers a.
Proof.
  unfold switchNow. destruct (clientConnected a), (loginOk o); reflexivity.
Qed.

(** C10.  A call of [switchClient] for the client id that is current while
    the client is connected answers [true] at once and changes nothing: the
    state after it is the state before it, so nothing is destroyed or logged
    in, no debounce timer is set, and the current client id, the time of the
    last switch and a pending debounce timer stay as they were.  It holds
    at every instant [now], so the 15 s window plays no part. *)
Theorem switchClient_connected_identity_is_noop (a : App) (id : string) (now : Z) :
  id = currentClientId a -> clientConnected a = true ->
  switchClient id now a = (Settled true, a).
Proof.
  intros -> Hc. unfold switchClient. now rewrite String.eqb_refl, Hc.
Qed.

(** C7.  A request for another client that arrives less than 15000 ms after
    [lastSwitchTime], the instant the last switch completed, answers [false]
    and changes nothing: no timer is set, the client id stays, nothing is
    queued.  From 15000 ms on the request sets the debounce timer, and when
    that fires with a login that succeeds the client id is the requested one
    and [lastSwitchTime] is the instant the login completed. *)
Theorem switch_rate_limit cfg (a : App) (id : string) (now : Z) :
  reachable cfg a ->
  String.eqb id (currentClientId a) && clientConnected a = false ->
  ((now - lastSwitchTime a < 15000)%Z ->
     switchClient id now a = (Settled false, a))
  /\ ((15000 <= now - lastSwitchTime a)%Z ->
      let a' := snd (switchClient id now a) in
      fst (switchClient id now a) = Pending (nextHandle a)
      /\ pendingSwitches a' = [(nextHandle a, id, (inject_Z now + 3000)%Q)]
      /\ forall now' o,
           (now + 3000 <= now')%Z -> loginOk o = true ->
           let a'' := fire cfg (nextHandle a) now' o a' in
           currentClientId a'' = id /\ lastSwitchTime a'' = loginDone o
           /\ In (Login id) (calls a'')).
Proof.
  intros Hreach Hg. apply reachable_Inv in Hreach. split.
  - intros Hr. destruct (switchClient_dropped id now a Hr) as [E1 E2].
    rewrite Hg in E2. rewrite (surjective_pairing (switchClient id now a)).
    now rewrite E1, E2.
  - intros Hr a'.
    destruct (switchClient_proceeds id now a Hreach Hg Hr)
      as [E1 [E2 [E3 [E4 _]]]].
    split; [exact E1|]. split; [exact E3|].
    intros now' o Hd Hok a''. subst a''.
    rewrite (fire_debounce cfg _ id now now' o a' E4 Hd).
    destruct (switchNow_ok id o (setTimers (cancel (nextHandle a) (timers a')) a') Hok)
      as [F1 F2].
    split; [exact F1|]. split; [exact F2|].
    rewrite switchNow_calls. rewrite !in_app_iff. right. right. simpl. auto.
Qed.

(** C6.  Two requests, the second less than 3000 ms after the first and both
    outside the 15 s window, for clients other than the connected one.  After
    the first, its debounce timer is the only one waiting and it cannot fire
    before its 3000 ms are over.  The second request cancels it and sets its
    own: the first timer is gone from the queue for good, nothing has been
    called on the client yet.  When the second timer fires, the client is
    torn down and logged in once, with the second request's id. *)
Theorem switch_debounce_last_request_wins cfg (a : App) (id1 id2 : string)
    (t1 t2 : Z) :
  reachable cfg a ->
  id1 <> id2 ->
  String.eqb id1 (currentClientId a) && clientConnected a = false ->
  String.eqb id2 (currentClientId a) && clientConnected a = false ->
  (15000 <= t1 - lastSwitchTime a)%Z ->
  (t1 <= t2 < t1 + 3000)%Z ->
  let h1 := nextHandle a in
  let h2 := S (nextHandle a) in
  let a1 := snd (switchClient id1 t1 a) in
  let a2 := snd (switchClient id2 t2 a1) in
  pendingSwitches a1 = [(h1, id1, (inject_Z t1 + 3000)%Q)]
  /\ (forall now o, (now < t1 + 3000)%Z -> fire cfg h1 now o a1 = a1)
  /\ pendingSwitches a2 = [(h2, id2, (inject_Z t2 + 3000)%Q)]
  /\ (forall now o, fire cfg h1 now o a2 = a2)
  /\ calls a2 = calls a
  /\ forall now o,
       (t2 + 3000 <= now)%Z ->
       let a3 := fire cfg h2 now o a2 in
       calls a3 = calls a ++ (if clientConnected a then [Destroy] else [])
                          ++ [NewClient; Login id2]
       /\ pendingSwitches a3 = []
       /\ (loginOk o = true ->
           currentClientId a3 = id2 /\ lastSwitchTime a3 = loginDone o).
Proof.
  intros Hreach _ Hg1 Hg2 Hr [Hle Hlt] h1 h2 a1 a2.
  apply reachable_Inv in Hreach.
  destruct (switchClient_proceeds id1 t1 a Hreach Hg1 Hr)
    as [_ [T1 [P1 [F1 [N1 [S1 [C1 [I1 [K1 L1]]]]]]]]].
  fold a1 in T1, P1, F1, N1, S1, C1, I1, K1, L1.
  assert (Hinv1 : Inv a1) by (apply Inv_switchClient, Hreach).
  assert (Hg2' : String.eqb id2 (currentClientId a1) && clientConnected a1 = false)
    by now rewrite I1, K1.
  assert (Hr2 : (15000 <= t2 - lastSwitchTime a1)%Z) by (rewrite L1; lia).
  destruct (switchClient_proceeds id2 t2 a1 Hinv1 Hg2' Hr2)
    as [_ [T2 [P2 [F2 [N2 [S2 [C2 [I2 [K2 L2]]]]]]]]].
  fold a2 in T2, P2, F2, N2, S2, C2, I2, K2, L2.
  rewrite N1 in P2, F2, T2. fold h2 in P2, F2, T2.
  split; [exact P1|].
  split; [intros now o Hn; now apply (fire_early cfg h1 id1 t1)|].
  split; [exact P2|].
  split.
  { intros now o. unfold fire. rewrite findTimer_None; [reflexivity|].
    intros t Ht. rewrite T2, S1 in Ht. apply in_app_or in Ht.
    destruct Ht as [Ht|[<-|[]]].
    - apply cancelOpt_In in Ht. destruct Ht as [_ Hne].
      intros E. apply Hne. unfold h1 in E. now rewrite E.
    - simpl. unfold h1, h2. lia. }
  split; [now rewrite C2, C1|].
  intros now o Hd a3. subst a3.
  rewrite (fire_debounce cfg h2 id2 t2 now o a2 F2 Hd).
  rewrite switchNow_calls. simpl. rewrite C2, C1, K2, K1.
  split; [reflexivity|]. split.
  - apply pendingSwitches_none. rewrite switchNow_timers. simpl.
    intros t id Ht Hc. apply cancel_In in Ht. destruct Ht as [Ht Hne].
    apply Hne.
    assert (Hinv2 : Inv a2) by (apply Inv_switchClient, Hinv1).
    pose proof (inv_switch_timer a2 Hinv2 t id Ht Hc) as E.
    rewrite S2, N1 in E. now inversion E.
  - intros Hok. now apply switchNow_ok.
Qed.
(** *** Reconnecting *)

Lemma start_calls cfg now ok a :
  calls (start cfg now ok a) = calls a ++ [Login (defaultClientId cfg)].
Proof.
  unfold start, reconnect. destruct ok; simpl; [reflexivity|].
  destruct (isReconnecting a); reflexivity.
Qed.

(** [reconnect] when no reconnect is under way. *)
Lemma reconnect_schedules now a :
  isReconnecting a = false ->
  timers (reconnect now a)
  = timers a ++ [{| handle := nextHandle a; setAt := now;
                    delay := backoffTime (S (reconnectAttempts a));
                    repeat := false; callback := ReconnectFire |}]
  /\ reconnectAttempts (reconnect now a) = S (reconnectAttempts a)
  /\ isReconnecting (reconnect now a) = true.
Proof. intros H. unfold reconnect. rewrite H. simpl. auto. Qed.

Lemma backoff_due (n : nat) (k : Z) :
  isDue {| handle := n; setAt := 120000 * k; delay := backoffTime (S n);
           repeat := false; callback := ReconnectFire |}
        (120000 * (k + 1)) = true.
Proof.
  unfold isDue, due. simpl. apply Qle_bool_iff.
  replace (120000 * (k + 1))%Z with (120000 * k + 120000)%Z by lia.
  rewrite inject_Z_plus. apply Qplus_le_r. apply backoffTime_le.
Qed.

Lemma run_app cfg a evs1 evs2 :
  run cfg a (evs1 ++ evs2) = run cfg (run cfg a evs1) evs2.
Proof. apply fold_left_app. Qed.

Lemma failedLogins_S o n :
  failedLogins o (S n)
  = failedLogins o n ++ [Fire n (120000 * (Z.of_nat n + 1)) o].
Proof.
  unfold failedLogins. rewrite seq_S, map_app. reflexivity.
Qed.

(** The queue holds one reconnect timer, and it fires. *)
Lemma fire_reconnect cfg now o a t :
  timers a = [t] -> callback t = ReconnectFire -> repeat t = false ->
  isDue t now = true ->
  fire cfg (handle t) now o a
  = start cfg now (loginOk o) (setIsReconnecting false (setTimers [] a)).
Proof.
  intros Ht Hc Hr Hd. unfold fire, findTimer. rewrite Ht.
  cbn [find]. rewrite Nat.eqb_refl, Hd, Hc.
  unfold afterFire. rewrite Hr. unfold cancel. cbn [List.filter].
  rewrite Nat.eqb_refl. reflexivity.
Qed.

(** A failed [start()] when no reconnect is under way and the queue is
    empty. *)
Lemma start_failed cfg now a :
  isReconnecting a = false -> timers a = [] ->
  start cfg now false a
  = {| currentClientId := currentClientId a;
       clientConnected := clientConnected a;
       reconnectAttempts := S (reconnectAttempts a);
       activityTracker := activityTracker a;
       updateIntervalId := updateIntervalId a;
       switchTimeout := switchTimeout a;
       lastSwitchTime := lastSwitchTime a;
       isReconnecting := true;
       timers := [{| handle := nextHandle a; setAt := now;
                     delay := backoffTime (S (reconnectAttempts a));
                     repeat := false; callback := ReconnectFire |}];
       nextHandle := S (nextHandle a);
       calls := calls a ++ [Login (defaultClientId cfg)] |}.
Proof.
  intros Hr Ht. unfold start, reconnect.
  change (isReconnecting (call (Login (defaultClientId cfg)) a))
    with (isReconnecting a).
  rewrite Hr. unfold schedule, setReconnectAttempts, setIsReconnecting, call.
  cbn [currentClientId clientConnected reconnectAttempts activityTracker
       updateIntervalId switchTimeout lastSwitchTime isReconnecting timers
       nextHandle calls].
  rewrite Ht. reflexivity.
Qed.

(** The state after [n + 1] failed logins in a row. *)
Lemma failed_run cfg t0 o n :
  loginOk o = false ->
  run cfg (newApp cfg t0) (failedLogins o n)
  = {| currentClientId := defaultClientId cfg; clientConnected := false;
       reconnectAttempts := S n; activityTracker := newTracker t0;
       updateIntervalId := None; switchTimeout := None; lastSwitchTime := 0;
       isReconnecting := true;
       timers := [{| handle := n; setAt := 120000 * Z.of_nat n;
                     delay := backoffTime (S n); repeat := false;
                     callback := ReconnectFire |}];
       nextHandle := S n;
       calls := List.repeat (Login (defaultClientId cfg)) (S n) |}.
Proof.
  intros Ho. induction n as [|n IH].
  - unfold failedLogins, run. cbn [seq map fold_left step].
    rewrite start_failed by reflexivity. reflexivity.
  - rewrite failedLogins_S, run_app, IH. unfold run. cbn [fold_left step].
    set (T := {| handle := n; setAt := (120000 * Z.of_nat n)%Z;
                 delay := backoffTime (S n); repeat := false;
                 callback := ReconnectFire |}).
    match goal with
    | |- fire cfg n ?now o ?A = _ =>
        assert (E : fire cfg n now o A
                    = start cfg now (loginOk o)
                        (setIsReconnecting false (setTimers [] A)))
          by exact (fire_reconnect cfg now o A T eq_refl eq_refl eq_refl
                      (backoff_due n (Z.of_nat n)))
    end.
    rewrite E, Ho, start_failed by reflexivity.
    unfold setIsReconnecting, setTimers.
    cbn [currentClientId clientConnected reconnectAttempts activityTracker
         updateIntervalId switchTimeout lastSwitchTime isReconnecting timers
         nextHandle calls].
    rewrite Nat2Z.inj_succ, <- Z.add_1_r.
    f_equal. symmetry. exact (repeat_cons (S n) (Login (defaultClientId cfg))).
Qed.




(** [stop] cancels the poll interval and the debounce timer, and no other
    timer. *)
Lemma stop_timers a t :
  Inv a ->
  (In t (timers (stop a)) <->
   In t (timers a) /\ callback t = ReconnectFire).
Proof.
  intros H. unfold stop. simpl. rewrite !cancelOpt_In. split.
  - intros [[Ht Hp] Hs]. split; [assumption|].
    destruct (callback t) eqn:Hc; [| |reflexivity]; exfalso.
    + apply Hp. now apply (inv_poll_timer a H).
    + apply Hs. now apply (inv_switch_timer a H t newClientId).
  - intros [Ht Hc]. repeat split; [assumption| |].
    + intros E. pose proof (inv_poll_kind a H t Ht E). congruence.
    + intros E. destruct (inv_switch_kind a H t Ht E) as [id Hid]. congruence.
Qed.

End MultiFacts.

(** ** The single-application variant *)

Lemma single_reconnect_timers (now : Z) (a : Single.App) :
  Single.timers (Single.reconnect now a)
  = Single.timers a
    ++ [{| handle := Single.nextHandle a; setAt := now; delay := 15000;
           repeat := false; callback := Single.ReconnectFire |}].
Proof. reflexivity. Qed.

Lemma single_failure_schedules (cfg : Single.AppConfig) (now : Z) (a : Single.App) :
  map delay (Single.timers (Single.start cfg now false a))
  = map delay (Single.timers a) ++ [15000%Q]
  /\ map delay (Single.timers (Single.onError now a))
     = map delay (Single.timers a) ++ [15000%Q].
Proof. split; simpl; now rewrite map_app. Qed.

(** ** Sample runs *)

Lemma reachable_run cfg t0 evs :
  Multi.reachable cfg (Multi.run cfg (Multi.newApp cfg t0) evs).
Proof. exists t0, evs. reflexivity. Qed.

Lemma reachable_connected : Multi.reachable multiConfig connected.
Proof. apply reachable_run. Qed.

Lemma reachable_switchedToMusic : Multi.reachable multiConfig switchedToMusic.
Proof.
  unfold switchedToMusic, connected. rewrite <- MultiFacts.run_app.
  apply reachable_run.
Qed.

Example switchedToMusic_state :
  Multi.currentClientId switchedToMusic = "3000"
  /\ Multi.clientConnected switchedToMusic = true
  /\ Multi.lastSwitchTime switchedToMusic = 1013200%Z.
Proof. vm_compute. auto. Qed.

(** ** Witnesses of the switching theorems *)

Lemma switchClient_connected_identity_is_noop_witness :
  "3000" = Multi.currentClientId switchedToMusic
  /\ Multi.clientConnected switchedToMusic = true
  /\ Multi.switchClient "3000" 1014000 switchedToMusic
     = (Multi.Settled true, switchedToMusic).
Proof.
  assert (H1 : "3000" = Multi.currentClientId switchedToMusic)
    by (vm_compute; reflexivity).
  assert (H2 : Multi.clientConnected switchedToMusic = true)
    by (vm_compute; reflexivity).
  split; [exact H1|]. split; [exact H2|].
  exact (MultiFacts.switchClient_connected_identity_is_noop switchedToMusic
           "3000" 1014000 H1 H2).
Defined.

(** The switch completed at T = 1013200 ms: a request at T + 10 s is dropped, a
    request at T + 16 s sets the debounce timer. *)
Lemma switch_rate_limit_witness :
  Multi.switchClient "2000" 1023200 switchedToMusic
  = (Multi.Settled false, switchedToMusic)
  /\ fst (Multi.switchClient "2000" 1029200 switchedToMusic)
     = Multi.Pending (Multi.nextHandle switchedToMusic).
Proof.
  assert (Hg : String.eqb "2000" (Multi.currentClientId switchedToMusic)
               && Multi.clientConnected switchedToMusic = false)
    by (vm_compute; reflexivity).
  assert (H10 : (1023200 - Multi.lastSwitchTime switchedToMusic < 15000)%Z)
    by (vm_compute; reflexivity).
  assert (H16 : (15000 <= 1029200 - Multi.lastSwitchTime switchedToMusic)%Z)
    by (vm_compute; discriminate).
  pose proof (proj1 (MultiFacts.switch_rate_limit multiConfig switchedToMusic
                       "2000" 1023200 reachable_switchedToMusic Hg) H10) as D.
  pose proof (proj2 (MultiFacts.switch_rate_limit multiConfig switchedToMusic
                       "2000" 1029200 reachable_switchedToMusic Hg) H16) as P.
  cbv zeta in P. destruct P as [P _].
  split; [exact D | exact P].
Defined.

(** Two requests one second apart: only the second one's timer waits. *)
Lemma switch_debounce_last_request_wins_witness :
  let a1 := snd (Multi.switchClient "2000" 1020000 connected) in
  let a2 := snd (Multi.switchClient "3000" 1021000 a1) in
  Multi.pendingSwitches a2
  = [(S (Multi.nextHandle connected), "3000", (inject_Z 1021000 + 3000)%Q)]
  /\ Multi.calls a2 = Multi.calls connected.
Proof.
  assert (Hne : "2000" <> "3000") by discriminate.
  assert (Hg1 : String.eqb "2000" (Multi.currentClientId connected)
                && Multi.clientConnected connected = false)
    by (vm_compute; reflexivity).
  assert (Hg2 : String.eqb "3000" (Multi.currentClientId connected)
                && Multi.clientConnected connected = false)
    by (vm_compute; reflexivity).
  assert (Hr : (15000 <= 1020000 - Multi.lastSwitchTime connected)%Z)
    by (vm_compute; discriminate).
  assert (Ht : (1020000 <= 1021000 < 1020000 + 3000)%Z) by lia.
  pose proof (MultiFacts.switch_debounce_last_request_wins multiConfig connected
                "2000" "3000" 1020000 1021000 reachable_connected
                Hne Hg1 Hg2 Hr Ht) as H.
  cbv zeta in H. destruct H as [_ [_ [H3 [_ [H5 _]]]]].
  split; assumption.
Defined.

(** ** Reconnecting *)

Lemma backoffTime_succ (n : nat) :
  Multi.backoffTime (S n) = Qmin (15000 * (3 # 2) ^ Z.of_nat n) 120000.
Proof.
  unfold Multi.backoffTime.
  replace (Z.of_nat (S n) - 1)%Z with (Z.of_nat n) by lia. reflexivity.
Qed.

(** C2, as the code has it.  In the multi-application variant the timer that
    waits after the n-th login failure in a row has the delay
    min(15000 * 1.5^(n-1), 120000) ms: [reconnect] computes it from the counter
    it has just incremented.  The first four delays are 15000, 22500, 33750
    and 50625 ms and none exceeds 120000 ms.  In the single-application
    variant every failure sets a timer of 15000 ms. *)
Theorem reconnect_delay_by_variant :
  (forall cfg t0 o n, loginOk o = false ->
     map delay (Multi.timers (Multi.run cfg (Multi.newApp cfg t0)
                                (Multi.failedLogins o n)))
     = [Qmin (15000 * (3 # 2) ^ Z.of_nat n) 120000])
  /\ (forall now a, Multi.isReconnecting a = false ->
        map delay (Multi.timers (Multi.reconnect now a))
        = map delay (Multi.timers a)
          ++ [Qmin (15000 * (3 # 2) ^ Z.of_nat (Multi.reconnectAttempts a)) 120000])
  /\ (Multi.backoffTime 1 == 15000 /\ Multi.backoffTime 2 == 22500
      /\ Multi.backoffTime 3 == 33750 /\ Multi.backoffTime 4 == 50625)%Q
  /\ (forall n, Multi.backoffTime n <= 120000)%Q
  /\ (forall cfg now a,
        map delay (Single.timers (Single.start cfg now false a))
        = map delay (Single.timers a) ++ [15000%Q]
        /\ map delay (Single.timers (Single.onError now a))
           = map delay (Single.timers a) ++ [15000%Q]).
Proof.
  split; [|split; [|split; [|split]]].
  - intros cfg t0 o n Ho. rewrite (MultiFacts.failed_run cfg t0 o n Ho).
    simpl map. now rewrite backoffTime_succ.
  - intros now a Hr.
    destruct (MultiFacts.reconnect_schedules now a Hr) as [-> _].
    rewrite map_app. simpl map. now rewrite backoffTime_succ.
  - repeat split; vm_compute; reflexivity.
  - apply MultiFacts.backoffTime_le.
  - apply single_failure_schedules.
Qed.

Lemma reconnect_delay_by_variant_witness :
  map delay (Multi.timers (Multi.run multiConfig (Multi.newApp multiConfig 0)
                             (Multi.failedLogins loginFails 3)))
  = [Qmin (15000 * (3 # 2) ^ 3) 120000].
Proof.
  apply (proj1 reconnect_delay_by_variant multiConfig 0%Z loginFails 3%nat).
  reflexivity.
Defined.

(** The single-application variant after two failed logins in a row: the
    second retry waits 15 s, not 22.5 s. *)
Lemma single_second_retry_waits_15s :
  map delay
    (Single.timers
       (Single.fire singleConfig 0 15000 loginFails
          (Single.start singleConfig 0 false (Single.newApp 0))))
  = [15000%Q]
  /\ ~ (15000 == Qmin (15000 * (3 # 2) ^ (2 - 1)) 120000)%Q.
Proof.
  split.
  - vm_compute. reflexivity.
  - vm_compute. discriminate.
Qed.

(** ** Stopping *)

(** C8, at its failing input.  [start()] fails at 0 ms, so a reconnect timer
    waits; [stop()] is called at once.  The timer is still in the queue.  At
    15000 ms it fires and logs in again, and when the client reports ready
    the poll interval is set anew: callbacks run after [stop()]. *)
Theorem stop_leaves_reconnect_timer :
  let a := Multi.run multiConfig (Multi.newApp multiConfig 0)
             [Multi.Start 0 false; Multi.Stop] in
  let a' := Multi.run multiConfig a
              [Multi.Fire 0 15000 (loginWorks 15050); Multi.Ready 15100] in
  map callback (Multi.timers a) = [Multi.ReconnectFire]
  /\ Multi.calls a = [Login "1000"; Destroy]
  /\ Multi.calls a' = [Login "1000"; Destroy; Login "1000"]
  /\ map callback (Multi.timers a') = [Multi.PollTick].
Proof. vm_compute. auto. Qed.

(** ** The tracker *)

Lemma trackActivityTime_startTime c now t :
  startTime (trackActivityTime c now t) = startTime t
  /\ lastProcessName (trackActivityTime c now t) = lastProcessName t
  /\ lastAppType (trackActivityTime c now t) = lastAppType t
  /\ lastActivity (trackActivityTime c now t) = lastActivity t.
Proof. repeat split. Qed.

Lemma trackActivityTime_daily c now t :
  dailyOf c (trackActivityTime c now t) = (dailyOf c t + 10)%Z.
Proof.
  unfold dailyOf, trackActivityTime. simpl. now rewrite lookup_insert_eq.
Qed.

Lemma trackActivityTime_daily_other c c' now t :
  c <> c' -> dailyOf c' (trackActivityTime c now t) = dailyOf c' t.
Proof.
  intros H. unfold dailyOf, trackActivityTime. simpl.
  now rewrite lookup_insert_ne.
Qed.

(** The tracker after a poll that saw a window, multi-application variant. *)
Lemma multi_tracker_after cfg e t w :
  activeWindow e = Some w ->
  let p := orUnknown (ProcessName w) in
  let cv := Multi.classify cfg p (orUnknown (MainWindowTitle w)) in
  snd (Multi.getCurrentActivity cfg e t)
  = trackActivityTime (Vars.activityType (snd cv)) (now e)
      (Multi.remember p (fst cv) (Vars.activityType (snd cv)) (now e) t).
Proof.
  intros H p cv. unfold Multi.getCurrentActivity. rewrite H.
  fold p. fold cv. destruct cv as [c v]. reflexivity.
Qed.

(** The same for the single-application variant: there the counter is
    updated first. *)
Lemma single_tracker_after cfg e t w :
  activeWindow e = Some w ->
  let p := orUnknown (ProcessName w) in
  let v := Single.classify cfg p (orUnknown (MainWindowTitle w)) in
  snd (Single.getCurrentActivity cfg e t)
  = Single.remember p (Vars.activityType v) (now e)
      (trackActivityTime (Vars.activityType v) (now e) t).
Proof. intros H p v. unfold Single.getCurrentActivity. now rewrite H. Qed.

Lemma tracker_after_exception :
  (forall cfg e t, activeWindow e = None ->
     snd (Multi.getCurrentActivity cfg e t) = t)
  /\ (forall cfg e t, activeWindow e = None ->
        snd (Single.getCurrentActivity cfg e t) = t).
Proof.
  split; intros cfg e t H;
    [unfold Multi.getCurrentActivity | unfold Single.getCurrentActivity];
    now rewrite H.
Qed.

(** C1, as the code has it.  Multi-application variant: a poll that saw a
    window sets [startTime] to the poll's [Date.now()] when the process name
    differs from [lastProcessName] or the application category [appType]
    differs from [lastAppType] (either one alone), and stores both; when both
    are the same [startTime] stays.  Single-application variant: [startTime]
    is set when the process name differs from [lastProcessName], and stays
    otherwise, whatever the activity type does. *)
Theorem startTime_reset_by_variant :
  (forall cfg e t w,
     activeWindow e = Some w ->
     let p := orUnknown (ProcessName w) in
     let c := fst (Multi.classify cfg p (orUnknown (MainWindowTitle w))) in
     let t' := snd (Multi.getCurrentActivity cfg e t) in
     (p <> lastProcessName t \/ c <> lastAppType t ->
        startTime t' = now e /\ lastProcessName t' = p /\ lastAppType t' = c)
     /\ (p = lastProcessName t /\ c = lastAppType t ->
         startTime t' = startTime t /\ lastProcessName t' = p
         /\ lastAppType t' = c))
  /\ (forall cfg e t w,
        activeWindow e = Some w ->
        let p := orUnknown (ProcessName w) in
        let t' := snd (Single.getCurrentActivity cfg e t) in
        (p <> lastProcessName t -> startTime t' = now e /\ lastProcessName t' = p)
        /\ (p = lastProcessName t ->
            startTime t' = startTime t /\ lastProcessName t' = p)).
Proof.
  split.
  - intros cfg e t w H p c t'. subst t'.
    rewrite (multi_tracker_after cfg e t w H). fold p. simpl.
    fold c. split.
    + intros Hd.
      assert (E : negb (String.eqb p (lastProcessName t))
                  || negb (String.eqb c (lastAppType t)) = true).
      { apply orb_true_iff. destruct Hd as [Hd|Hd]; [left|right];
          apply negb_true_iff, String.eqb_neq; exact Hd. }
      rewrite E. auto.
    + intros [Hp Hc].
      assert (E : negb (String.eqb p (lastProcessName t))
                  || negb (String.eqb c (lastAppType t)) = false).
      { rewrite Hp, Hc, !String.eqb_refl. reflexivity. }
      rewrite E. auto.
  - intros cfg e t w H p t'. subst t'.
    rewrite (single_tracker_after cfg e t w H). fold p. simpl. split.
    + intros Hd. apply String.eqb_neq in Hd. rewrite Hd. auto.
    + intros Hp. rewrite Hp at 1 2. rewrite String.eqb_refl. auto.
Qed.

(** A change of the category alone, multi-application variant: Spotify is
    playing, then the title of the same process matches the "games"
    application. *)
Lemma startTime_reset_by_variant_witness :
  let e2 := sees "Steam sale - Spotify" "Spotify" 11000 in
  let t1 := snd (Multi.getCurrentActivity multiConfig
                   (sees "Song - Artist - Spotify" "Spotify" 1000) (newTracker 0)) in
  let t2 := snd (Multi.getCurrentActivity multiConfig e2 t1) in
  lastAppType t1 = "music" /\ lastProcessName t1 = "Spotify"
  /\ startTime t2 = 11000%Z /\ lastProcessName t2 = "Spotify"
  /\ lastAppType t2 = "games".
Proof.
  intros e2 t1 t2.
  assert (H1 : lastAppType t1 = "music") by (vm_compute; reflexivity).
  assert (H2 : lastProcessName t1 = "Spotify") by (vm_compute; reflexivity).
  pose proof (proj1 startTime_reset_by_variant multiConfig e2 t1
                {| MainWindowTitle := "Steam sale - Spotify";
                   ProcessName := "Spotify" |} eq_refl) as H.
  cbv zeta in H. destruct H as [H _].
  assert (Hc : fst (Multi.classify multiConfig (orUnknown "Spotify")
                      (orUnknown "Steam sale - Spotify")) = "games")
    by (vm_compute; reflexivity).
  cbn [ProcessName MainWindowTitle] in H. rewrite Hc, H2, H1 in H.
  destruct H as [Ha [Hb Hd]]; [right; discriminate|].
  repeat split; assumption.
Defined.

(** The single-application variant: the window title of the same process
    first matches the Spotify rule, then nothing.  The activity type goes
    from "music" to "app" and [startTime] stays at the first poll. *)
Lemma single_category_change_keeps_startTime :
  let t1 := snd (Single.getCurrentActivity singleConfig
                   (sees "Spotify" "explorer" 1000) (newTracker 0)) in
  let t2 := snd (Single.getCurrentActivity singleConfig
                   (sees "Documents" "explorer" 11000) t1) in
  lastActivity t1 = "music" /\ lastActivity t2 = "app"
  /\ lastProcessName t1 = "explorer" /\ lastProcessName t2 = "explorer"
  /\ startTime t1 = 1000%Z /\ startTime t2 = 1000%Z.
Proof. vm_compute. repeat split. Qed.

(** X1.  Every poll that saw a window adds 10 to the counter of its activity
    type and leaves the other counters alone, in both variants and whatever
    [updateInterval] is; no counter decreases. *)
Theorem daily_counter_adds_ten :
  (forall cfg e t w c',
     activeWindow e = Some w ->
     let c := Vars.activityType
                (snd (Multi.classify cfg (orUnknown (ProcessName w))
                        (orUnknown (MainWindowTitle w)))) in
     let t' := snd (Multi.getCurrentActivity cfg e t) in
     dailyOf c t' = (dailyOf c t + 10)%Z
     /\ (c <> c' -> dailyOf c' t' = dailyOf c' t)
     /\ (dailyOf c' t <= dailyOf c' t')%Z)
  /\ (forall cfg e t w c',
        activeWindow e = Some w ->
        let c := Vars.activityType
                   (Single.classify cfg (orUnknown (ProcessName w))
                      (orUnknown (MainWindowTitle w))) in
        let t' := snd (Single.getCurrentActivity cfg e t) in
        dailyOf c t' = (dailyOf c t + 10)%Z
        /\ (c <> c' -> dailyOf c' t' = dailyOf c' t)
        /\ (dailyOf c' t <= dailyOf c' t')%Z).
Proof.
  split; intros cfg e t w c' H c t'; subst t'.
  - rewrite (multi_tracker_after cfg e t w H). fold c.
    assert (E : forall x, dailyOf x (trackActivityTime c (now e)
                  (Multi.remember (orUnknown (ProcessName w))
                     (fst (Multi.classify cfg (orUnknown (ProcessName w))
                             (orUnknown (MainWindowTitle w)))) c (now e) t))
                = dailyOf x (trackActivityTime c (now e) t)) by reflexivity.
    rewrite !E. split; [apply trackActivityTime_daily|].
    split; [apply trackActivityTime_daily_other|].
    destruct (String.eqb_spec c c') as [<-|Hne].
    + rewrite trackActivityTime_daily. lia.
    + rewrite trackActivityTime_daily_other by assumption. lia.
  - rewrite (single_tracker_after cfg e t w H). fold c.
    assert (E : forall x, dailyOf x (Single.remember (orUnknown (ProcessName w))
                  c (now e) (trackActivityTime c (now e) t))
                = dailyOf x (trackActivityTime c (now e) t)) by reflexivity.
    rewrite !E. split; [apply trackActivityTime_daily|].
    split; [apply trackActivityTime_daily_other|].
    destruct (String.eqb_spec c c') as [<-|Hne].
    + rewrite trackActivityTime_daily. lia.
    + rewrite trackActivityTime_daily_other by assumption. lia.
Qed.

(** C3, at its failing input.  The poll interval is configured as 5000 ms.
    One poll takes the counter of the active category from 0 to 10, not to
    5; after the ticks A, A, A, B, B the counters are 30 and 20. *)
Theorem daily_counter_ignores_updateInterval :
  let poll1 (title : string) (t : Tracker) :=
    snd (Multi.getCurrentActivity fastConfig (sees title "explorer" 5000) t) in
  let t1 := poll1 "Documents" (newTracker 0) in
  let t5 := poll1 "Song - Artist - Spotify"
              (poll1 "Song - Artist - Spotify"
                 (poll1 "Documents" (poll1 "Documents" t1))) in
  Multi.updateInterval fastConfig = 5000%Z
  /\ dailyOf "app" (newTracker 0) = 0%Z
  /\ dailyOf "app" t1 = 10%Z
  /\ dailyOf "app" t5 = 30%Z
  /\ dailyOf "music" t5 = 20%Z.
Proof. vm_compute. repeat split. Qed.

(** ** The payload *)





(** *** Lengths of printed numbers *)











(** ** The Spotify title *)

(** stdpp keeps [String.append] folded under [simpl]; from here on it
    computes on a constructor. *)
#[local] Arguments String.append !_ _ / : simpl nomatch.

Lemma append_nil_r (s : string) : s +:+ "" = s.
Proof. induction s as [|c s IH]; simpl; [reflexivity | now rewrite IH]. Qed.

Lemma append_assoc (s1 s2 s3 : string) :
  (s1 +:+ s2) +:+ s3 = s1 +:+ (s2 +:+ s3).
Proof. induction s1 as [|c s1 IH]; simpl; [reflexivity | now rewrite IH]. Qed.

Lemma prefix_app_long (p u v : string) :
  String.length p <= String.length u ->
  String.prefix p (u +:+ v) = String.prefix p u.
Proof.
  revert u. induction p as [|a p IH]; intros u H.
  - destruct u; cbn [String.append]; destruct v; reflexivity.
  - destruct u as [|b u]; [simpl in H; lia|].
    cbn [String.append String.prefix]. destruct (ascii_dec a b); [|reflexivity].
    apply IH. simpl in H. lia.
Qed.

Lemma stripPrefix_prefix (l s : string) :
  String.prefix l s = false -> Regex.stripPrefix false l s = None.
Proof.
  revert s. induction l as [|a l IH]; intros [|b s]; cbn [String.prefix];
    try discriminate; try reflexivity.
  cbn [Regex.stripPrefix]. destruct (ascii_dec a b) as [<-|Hne].
  - rewrite Ascii.eqb_refl. apply IH.
  - intros _. apply Ascii.eqb_neq in Hne. now rewrite Hne.
Qed.

Lemma includes_suffix (r1 r2 sub : string) :
  Js.includes (r1 +:+ r2) sub = false -> String.prefix sub r2 = false.
Proof.
  induction r1 as [|c r1 IH]; cbn [String.append].
  - destruct r2; cbn [Js.includes]; destruct (String.prefix sub _); auto.
  - cbn [Js.includes]. destruct (String.prefix sub (String c _)); [discriminate|].
    exact IH.
Qed.

Lemma allChars_app f (s1 s2 : string) :
  allChars f (s1 +:+ s2) = allChars f s1 && allChars f s2.
Proof.
  induction s1 as [|c s1 IH]; simpl; [reflexivity|].
  now rewrite IH, andb_assoc.
Qed.

Lemma allChars_plain (s : string) :
  allChars plain s = true ->
  allChars Regex.dot s = true /\ allChars (Regex.notChar "-") s = true.
Proof.
  induction s as [|c s IH]; simpl; [auto|].
  unfold plain at 1. rewrite !andb_true_iff. intros [[H1 H2] H3].
  destruct (IH H3). auto.
Qed.

Lemma rep_unfold_lazy cls k acc n s :
  Regex.rep false 1 None cls true k acc n s
  = Regex.orTry
      (if Nat.leb 1 n
       then match k s with
            | Some caps => Some (acc :: caps)
            | None => None
            end
       else None)
      (fun _ =>
         match s with
         | String c s' =>
             if cls c && Regex.below None n
             then Regex.rep false 1 None cls true k
                    (acc +:+ String c EmptyString) (S n) s'
             else None
         | EmptyString => None
         end).
Proof. destruct s; reflexivity. Qed.

(** A lazy [(cls+?)] takes exactly the prefix [p] when the rest of the
    pattern matches after [p] and after no shorter non-empty prefix. *)
Lemma rep_lazy_exact (cls : ascii -> bool) (k : string -> option (list string))
    (rest : string) (caps : list string) :
  k rest = Some caps ->
  forall (p acc : string) (n : nat),
    allChars cls p = true ->
    (forall p1 p2, p = p1 +:+ p2 -> p2 <> "" -> k (p2 +:+ rest) = None) ->
    1 <= n + String.length p ->
    Regex.rep false 1 None cls true k acc n (p +:+ rest)
    = Some ((acc +:+ p) :: caps).
Proof.
  intros Hk. induction p as [|c p IH]; intros acc n Hcls Hsplit Hlen.
  - simpl in Hlen. rewrite append_nil_r. simpl String.append.
    rewrite rep_unfold_lazy.
    destruct n as [|n]; [lia|]. simpl Nat.leb. cbv iota. rewrite Hk. reflexivity.
  - simpl in Hcls. apply andb_true_iff in Hcls. destruct Hcls as [Hc Hp].
    simpl String.append. rewrite rep_unfold_lazy.
    assert (Hnone : k (String c (p +:+ rest)) = None).
    { apply (Hsplit "" (String c p)); [reflexivity | discriminate]. }
    rewrite Hnone, Hc.
    assert (E : (if Nat.leb 1 n then @None (list string) else None) = None)
      by (destruct (Nat.leb 1 n); reflexivity).
    rewrite E. unfold Regex.orTry, Regex.below. cbv iota beta. simpl andb. cbv iota.
    rewrite IH.
    + rewrite append_assoc. reflexivity.
    + exact Hp.
    + intros p1 p2 E' Hne. apply (Hsplit (String c p1) p2); [|exact Hne].
      simpl. now rewrite E'.
    + simpl in Hlen. lia.
Qed.

Lemma stripPrefix_cons (a b : ascii) (l s : string) :
  Regex.stripPrefix false (String a l) (String b s)
  = if Ascii.eqb a b then Regex.stripPrefix false l s else None.
Proof. reflexivity. Qed.

(** Before a separator, a non-empty piece without a dash cannot start a
    literal that begins with " -". *)
Lemma stripPrefix_separator (l p y : string) :
  p <> "" -> allChars (Regex.notChar "-") p = true ->
  Regex.stripPrefix false (String " " (String "-" l))
    (p +:+ String " " (String "-" y)) = None.
Proof.
  intros Hne Hp. destruct p as [|c1 p]; [contradiction|].
  cbn [String.append]. rewrite stripPrefix_cons.
  destruct (Ascii.eqb " " c1); [|reflexivity].
  destruct p as [|c2 p]; cbn [String.append]; rewrite stripPrefix_cons.
  - reflexivity.
  - cbn [allChars] in Hp. apply andb_true_iff in Hp. destruct Hp as [_ Hp].
    apply andb_true_iff in Hp. destruct Hp as [Hc2 _].
    unfold Regex.notChar in Hc2. apply negb_true_iff in Hc2.
    rewrite Ascii.eqb_sym, Hc2. reflexivity.
Qed.

Lemma split_notDash (p p1 p2 : string) :
  allChars (Regex.notChar "-") p = true -> p = p1 +:+ p2 ->
  allChars (Regex.notChar "-") p2 = true.
Proof.
  intros H ->. rewrite allChars_app in H. now apply andb_true_iff in H.
Qed.

Lemma matchHere_lit (l : string) (r : Regex.regex) (s : string) :
  Regex.matchHere (Regex.Lit false l :: r) s
  = match Regex.stripPrefix false l s with
    | Some rest => Regex.matchHere r rest
    | None => None
    end.
Proof. reflexivity. Qed.

Lemma matchHere_rep g lo hi cls cap (r : Regex.regex) (s : string) :
  Regex.matchHere (Regex.Rep g lo hi cls cap :: r) s
  = Regex.rep g lo hi cls cap (Regex.matchHere r) "" 0 s.
Proof. reflexivity. Qed.

(** A literal that begins with " -" does not match inside a piece without
    a dash. *)
Lemma lit_fails_inside (l : string) (r : Regex.regex) (p y : string) :
  p <> "" -> allChars (Regex.notChar "-") p = true ->
  Regex.matchHere (Regex.Lit false (String " " (String "-" l)) :: r)
    (p +:+ String " " (String "-" y)) = None.
Proof.
  intros Hne Hp. rewrite matchHere_lit.
  now rewrite stripPrefix_separator.
Qed.

(** A literal does not match at a place from which it would have to begin
    inside the piece [p2], when it does not occur in [p1 p2] followed by all
    but its last code unit. *)
Lemma lit_fails_before (l' : string) (c : ascii) (r : Regex.regex)
    (p1 p2 y : string) :
  Js.includes (p1 +:+ p2 +:+ l') (l' +:+ String c "") = false ->
  p2 <> "" ->
  Regex.matchHere (Regex.Lit false (l' +:+ String c "") :: r)
    (p2 +:+ (l' +:+ String c "") +:+ y) = None.
Proof.
  intros Hi Hne. rewrite matchHere_lit.
  apply includes_suffix in Hi.
  replace (p2 +:+ (l' +:+ String c "") +:+ y) with ((p2 +:+ l') +:+ String c y)
    by (rewrite !append_assoc; reflexivity).
  rewrite stripPrefix_prefix; [reflexivity|].
  rewrite prefix_app_long; [exact Hi|].
  rewrite !append_length. destruct p2; [contradiction|]. simpl. lia.
Qed.

(** The tail of [songRe] on "artist - Spotify". *)
Lemma artist_captured (artist : string) :
  allChars Regex.dot artist = true -> artist <> "" ->
  Js.includes (artist +:+ " - Spotif") " - Spotify" = false ->
  Regex.matchHere [Regex.plus false Regex.dot; Regex.Lit false " - Spotify"]
    (artist +:+ " - Spotify")
  = Some [artist].
Proof.
  intros Had Hna Hi.
  unfold Regex.plus. rewrite matchHere_rep.
  apply (rep_lazy_exact Regex.dot
           (Regex.matchHere [Regex.Lit false " - Spotify"])
           " - Spotify" [] eq_refl artist "" 0 Had).
  - intros p1 p2 E Hne. rewrite E in Hi. rewrite append_assoc in Hi.
    pose proof (lit_fails_before " - Spotif" "y" [] p1 p2 "" Hi Hne) as F.
    change ((" - Spotif" +:+ "y") +:+ "") with " - Spotify" in F.
    exact F.
  - destruct artist; [contradiction | simpl; lia].
Qed.

(** What [songRe] captures in a title "track - artist - Spotify": the track
    is the text before the first " - ", the artist the text from there to
    the first " - Spotify". *)
Lemma songRe_captures (track artist : string) :
  allChars Regex.dot track = true -> allChars Regex.dot artist = true ->
  track <> "" -> artist <> "" ->
  Js.includes (track +:+ " -") " - " = false ->
  Js.includes (artist +:+ " - Spotif") " - Spotify" = false ->
  Regex.search songRe (track +:+ " - " +:+ artist +:+ " - Spotify")
  = Some [track; artist].
Proof.
  intros Htd Had Hnt Hna Hit Hia.
  assert (Hm : Regex.matchHere songRe (track +:+ " - " +:+ artist +:+ " - Spotify")
               = Some [track; artist]).
  { unfold songRe, Regex.plus. rewrite matchHere_rep.
    apply (rep_lazy_exact Regex.dot
             (Regex.matchHere [Regex.Lit false " - ";
                               Regex.Rep false 1 None Regex.dot true;
                               Regex.Lit false " - Spotify"])
             (" - " +:+ artist +:+ " - Spotify") [artist]).
    - rewrite matchHere_lit.
      change (Regex.stripPrefix false " - " (" - " +:+ artist +:+ " - Spotify"))
        with (Some (artist +:+ " - Spotify")).
      apply (artist_captured artist Had Hna Hia).
    - exact Htd.
    - intros p1 p2 E Hne. rewrite E in Hit. rewrite append_assoc in Hit.
      exact (lit_fails_before " -" " " _ p1 p2 (artist +:+ " - Spotify") Hit Hne).
    - destruct track; [contradiction | simpl; lia]. }
  destruct track as [|c track]; [contradiction|].
  cbn [String.append] in *. cbn [Regex.search]. now rewrite Hm.
Qed.

Lemma trim_nonempty (s : string) : Js.trim s <> "" -> s <> "".
Proof. intros H ->. apply H. reflexivity. Qed.

Lemma truthy_nonempty (s : string) : s <> "" -> Js.truthy s = true.
Proof. destruct s; [contradiction | reflexivity]. Qed.

(** The Spotify branch on a title "track - artist - Spotify". *)
Lemma spotifyCase_track (track artist : string) (v : Vars.t) :
  allChars Regex.dot track = true -> allChars Regex.dot artist = true ->
  Js.includes (track +:+ " -") " - " = false ->
  Js.includes (artist +:+ " - Spotif") " - Spotify" = false ->
  Js.trim track <> "" -> Js.trim artist <> "" ->
  spotifyCase (track +:+ " - " +:+ artist +:+ " - Spotify") v
  = Vars.setDetails "Listening to Music"
      (Vars.setState (Js.trim track +:+ " by " +:+ Js.trim artist) v).
Proof.
  intros Ht Ha Hit Hia Hnt Hna. unfold spotifyCase.
  rewrite (songRe_captures track artist Ht Ha
             (trim_nonempty _ Hnt) (trim_nonempty _ Hna) Hit Hia).
  unfold Regex.group. simpl nth.
  now rewrite (truthy_nonempty _ Hnt), (truthy_nonempty _ Hna).
Qed.

(** The Spotify branch on a title the track pattern does not match. *)
Lemma spotifyCase_browsing (title : string) (v : Vars.t) :
  Regex.search songRe title = None ->
  Js.trim title = "Spotify" \/ Js.includes title "Spotify Premium" = true ->
  spotifyCase title v
  = Vars.setDetails "Using Spotify" (Vars.setState "Browsing Music" v).
Proof.
  intros Hs Hb. unfold spotifyCase. rewrite Hs.
  destruct Hb as [-> | ->]; [reflexivity|].
  now rewrite orb_true_r.
Qed.

(** Classification when the first priority rule that matches is a Spotify
    rule, multi-application variant. *)
Lemma multi_classify_spotify cfg app (p title : string) :
  find (ruleMatches p title) (Multi.priorityApps cfg) = Some app ->
  Js.includes (Js.toLowerCase (Rule.processName app)) "spotify" = true ->
  p <> "VALORANT-Win64-Shipping" ->
  snd (Multi.classify cfg p title) = spotifyCase title (takeRule app title).
Proof.
  intros Hf Hi Hp. unfold Multi.classify. rewrite Hf.
  unfold Multi.special. rewrite Hi. unfold Multi.gameOverride.
  apply String.eqb_neq in Hp. rewrite Hp.
  assert (Hm : Vars.matchedApp (spotifyCase title (takeRule app title)) = true).
  { unfold spotifyCase. destruct (Regex.search songRe title).
    - destruct (_ && _); reflexivity.
    - destruct (_ || _); reflexivity. }
  rewrite Hm. reflexivity.
Qed.

(** The same for the single-application variant, where the override block
    follows. *)
Lemma single_classify_spotify cfg app (p title : string) :
  find (ruleMatches p title) (Single.priorityApps cfg) = Some app ->
  Js.includes (Js.toLowerCase (Rule.processName app)) "spotify" = true ->
  Single.classify cfg p title
  = Single.overrides p title (spotifyCase title (takeRule app title)).
Proof.
  intros Hf Hi. unfold Single.classify. rewrite Hf.
  unfold Single.special. now rewrite Hi.
Qed.

Lemma single_overrides_other (p title : string) (v : Vars.t) :
  p <> "Code" -> p <> "chrome" -> p <> "Discord" ->
  Vars.matchedApp v = true ->
  Vars.state (Single.overrides p title v) = Vars.state v
  /\ (Vars.details v = "Listening to Music" ->
      Vars.details (Single.overrides p title v) = "Listening to Music").
Proof.
  intros H1 H2 H3 Hm. unfold Single.overrides.
  apply String.eqb_neq in H1, H2, H3. rewrite H1, H2, H3, Hm.
  destruct (String.eqb p "Spotify"); simpl; auto.
Qed.

Lemma single_overrides_state (p title : string) (v : Vars.t) :
  p <> "Code" -> p <> "chrome" ->
  Vars.matchedApp v = true ->
  Vars.state (Single.overrides p title v) = Vars.state v.
Proof.
  intros H1 H2 Hm. unfold Single.overrides.
  apply String.eqb_neq in H1, H2. rewrite H1, H2, Hm.
  destruct (String.eqb p "Discord"), (String.eqb p "Spotify"); reflexivity.
Qed.

Lemma debugState_state (p : string) (v : Vars.t) :
  Vars.state (Single.debugState p v) = Vars.state v +:+ " (" +:+ p +:+ ")".
Proof. reflexivity. Qed.

Lemma debugState_details (p : string) (v : Vars.t) :
  Vars.details (Single.debugState p v) = Vars.details v.
Proof. reflexivity. Qed.

(** C5, as the code has it.  The first priority rule that matches the sample
    is one whose token contains "spotify".

    - A title "track - artist - Spotify", where track and artist are not
      blank and have no line break, the track is the text before the first
      " - " of the title and the artist the text from there to the first
      " - Spotify" (either may contain a dash): in the multi-application
      variant the state is "track by artist" and the details are "Listening
      to Music", unless the process is VALORANT-Win64-Shipping; in the
      single-application variant the state handed to the payload is
      "track by artist (process)", with the same details, unless the process
      is Code, chrome or Discord.
    - A title that the track pattern does not match and that is "Spotify" or
      contains "Spotify Premium": the state is "Browsing Music", followed by
      " (process)" in the single-application variant. *)
Theorem spotify_title_by_variant :
  (forall cfg app (p track artist : string),
     let title := track +:+ " - " +:+ artist +:+ " - Spotify" in
     find (ruleMatches p title) (Multi.priorityApps cfg) = Some app ->
     Js.includes (Js.toLowerCase (Rule.processName app)) "spotify" = true ->
     p <> "VALORANT-Win64-Shipping" ->
     allChars Regex.dot track = true -> allChars Regex.dot artist = true ->
     Js.includes (track +:+ " -") " - " = false ->
     Js.includes (artist +:+ " - Spotif") " - Spotify" = false ->
     Js.trim track <> "" -> Js.trim artist <> "" ->
     let v := snd (Multi.classify cfg p title) in
     Vars.state v = Js.trim track +:+ " by " +:+ Js.trim artist
     /\ Vars.details v = "Listening to Music")
  /\ (forall cfg app (p track artist : string),
        let title := track +:+ " - " +:+ artist +:+ " - Spotify" in
        find (ruleMatches p title) (Single.priorityApps cfg) = Some app ->
        Js.includes (Js.toLowerCase (Rule.processName app)) "spotify" = true ->
        p <> "Code" -> p <> "chrome" -> p <> "Discord" ->
        allChars Regex.dot track = true -> allChars Regex.dot artist = true ->
        Js.includes (track +:+ " -") " - " = false ->
        Js.includes (artist +:+ " - Spotif") " - Spotify" = false ->
        Js.trim track <> "" -> Js.trim artist <> "" ->
        let v := Single.debugState p (Single.classify cfg p title) in
        Vars.state v
        = Js.trim track +:+ " by " +:+ Js.trim artist +:+ " (" +:+ p +:+ ")"
        /\ Vars.details v = "Listening to Music")
  /\ (forall cfg app (p title : string),
        find (ruleMatches p title) (Multi.priorityApps cfg) = Some app ->
        Js.includes (Js.toLowerCase (Rule.processName app)) "spotify" = true ->
        p <> "VALORANT-Win64-Shipping" ->
        Regex.search songRe title = None ->
        Js.trim title = "Spotify" \/ Js.includes title "Spotify Premium" = true ->
        Vars.state (snd (Multi.classify cfg p title)) = "Browsing Music")
  /\ (forall cfg app (p title : string),
        find (ruleMatches p title) (Single.priorityApps cfg) = Some app ->
        Js.includes (Js.toLowerCase (Rule.processName app)) "spotify" = true ->
        p <> "Code" -> p <> "chrome" ->
        Regex.search songRe title = None ->
        Js.trim title = "Spotify" \/ Js.includes title "Spotify Premium" = true ->
        Vars.state (Single.debugState p (Single.classify cfg p title))
        = "Browsing Music (" +:+ p +:+ ")").
Proof.
  split; [|split; [|split]].
  - intros cfg app p track artist title Hf Hi Hp Ht Ha Hit Hia Hnt Hna v. subst v.
    rewrite (multi_classify_spotify cfg app p title Hf Hi Hp).
    unfold title. rewrite (spotifyCase_track track artist _ Ht Ha Hit Hia Hnt Hna).
    split; reflexivity.
  - intros cfg app p track artist title Hf Hi H1 H2 H3 Ht Ha Hit Hia Hnt Hna v.
    subst v.
    rewrite (single_classify_spotify cfg app p title Hf Hi).
    unfold title. rewrite (spotifyCase_track track artist _ Ht Ha Hit Hia Hnt Hna).
    destruct (single_overrides_other p (track +:+ " - " +:+ artist +:+ " - Spotify")
                (Vars.setDetails "Listening to Music"
                   (Vars.setState (Js.trim track +:+ " by " +:+ Js.trim artist)
                      (takeRule app (track +:+ " - " +:+ artist +:+ " - Spotify"))))
                H1 H2 H3 eq_refl) as [Es Ed].
    rewrite debugState_state, debugState_details, Es.
    split; [|apply Ed; reflexivity].
    cbn [Vars.state Vars.setDetails Vars.setState].
    now rewrite !append_assoc.
  - intros cfg app p title Hf Hi Hp Hs Hb.
    rewrite (multi_classify_spotify cfg app p title Hf Hi Hp).
    now rewrite (spotifyCase_browsing title _ Hs Hb).
  - intros cfg app p title Hf Hi H1 H2 Hs Hb.
    rewrite (single_classify_spotify cfg app p title Hf Hi).
    rewrite (spotifyCase_browsing title _ Hs Hb).
    rewrite debugState_state.
    now rewrite (single_overrides_state p title
                   (Vars.setDetails "Using Spotify"
                      (Vars.setState "Browsing Music" (takeRule app title)))
                   H1 H2 eq_refl).
Qed.

(** The spec's own sample and a title whose artist has a dash,
    multi-application variant. *)
Lemma spotify_title_by_variant_witness :
  let v := snd (Multi.classify multiConfig "Spotify" "Song - Artist - Spotify") in
  Vars.state v = "Song by Artist" /\ Vars.details v = "Listening to Music"
  /\ Vars.state (snd (Multi.classify multiConfig "Spotify"
                        "Numb/Encore - Jay-Z - Spotify"))
     = "Numb/Encore by Jay-Z"
  /\ Vars.state (snd (Multi.classify multiConfig "Spotify" "Spotify"))
     = "Browsing Music".
Proof.
  assert (Hf : find (ruleMatches "Spotify" ("Song" +:+ " - " +:+ "Artist" +:+ " - Spotify"))
                 (Multi.priorityApps multiConfig) = Some spotifyRule)
    by (vm_compute; reflexivity).
  assert (Hf2 : find (ruleMatches "Spotify"
                        ("Numb/Encore" +:+ " - " +:+ "Jay-Z" +:+ " - Spotify"))
                  (Multi.priorityApps multiConfig) = Some spotifyRule)
    by (vm_compute; reflexivity).
  assert (Hf' : find (ruleMatches "Spotify" "Spotify")
                  (Multi.priorityApps multiConfig) = Some spotifyRule)
    by (vm_compute; reflexivity).
  assert (Hi : Js.includes (Js.toLowerCase (Rule.processName spotifyRule)) "spotify"
               = true) by (vm_compute; reflexivity).
  assert (Hp : "Spotify" <> "VALORANT-Win64-Shipping") by discriminate.
  assert (Ht : allChars Regex.dot "Song" = true) by (vm_compute; reflexivity).
  assert (Ha : allChars Regex.dot "Artist" = true) by (vm_compute; reflexivity).
  assert (Hit : Js.includes ("Song" +:+ " -") " - " = false)
    by (vm_compute; reflexivity).
  assert (Hia : Js.includes ("Artist" +:+ " - Spotif") " - Spotify" = false)
    by (vm_compute; reflexivity).
  assert (Hnt : Js.trim "Song" <> "") by (vm_compute; discriminate).
  assert (Hna : Js.trim "Artist" <> "") by (vm_compute; discriminate).
  assert (Ht2 : allChars Regex.dot "Numb/Encore" = true) by (vm_compute; reflexivity).
  assert (Ha2 : allChars Regex.dot "Jay-Z" = true) by (vm_compute; reflexivity).
  assert (Hit2 : Js.includes ("Numb/Encore" +:+ " -") " - " = false)
    by (vm_compute; reflexivity).
  assert (Hia2 : Js.includes ("Jay-Z" +:+ " - Spotif") " - Spotify" = false)
    by (vm_compute; reflexivity).
  assert (Hnt2 : Js.trim "Numb/Encore" <> "") by (vm_compute; discriminate).
  assert (Hna2 : Js.trim "Jay-Z" <> "") by (vm_compute; discriminate).
  assert (Hs : Regex.search songRe "Spotify" = None) by (vm_compute; reflexivity).
  assert (Hb : Js.trim "Spotify" = "Spotify"
               \/ Js.includes "Spotify" "Spotify Premium" = true)
    by (left; vm_compute; reflexivity).
  pose proof (proj1 spotify_title_by_variant multiConfig spotifyRule "Spotify"
                "Song" "Artist" Hf Hi Hp Ht Ha Hit Hia Hnt Hna) as [H1 H2].
  pose proof (proj1 spotify_title_by_variant multiConfig spotifyRule "Spotify"
                "Numb/Encore" "Jay-Z" Hf2 Hi Hp Ht2 Ha2 Hit2 Hia2 Hnt2 Hna2)
    as [H4 _].
  pose proof (proj1 (proj2 (proj2 spotify_title_by_variant)) multiConfig
                spotifyRule "Spotify" "Spotify" Hf' Hi Hp Hs Hb) as H3.
  split; [exact H1|]. split; [exact H2|]. split; [exact H4 | exact H3].
Defined.

(** The spec's own sample, single-application variant: the state that
    reaches the payload carries the process name. *)
Lemma single_state_carries_process_name :
  let v := Single.debugState "Spotify"
             (Single.classify singleConfig "Spotify" "Song - Artist - Spotify") in
  let a := fst (Single.getCurrentActivity singleConfig
                  (sees "Song - Artist - Spotify" "Spotify" 5000) (newTracker 0)) in
  Vars.state v = "Song by Artist (Spotify)"
  /\ Vars.state v <> "Song by Artist"
  /\ ActivityData.state a = "Song by Artist (Spotify) | 0s | CPU: 12%, RAM: 40%".
Proof.
  vm_compute. split; [reflexivity|]. split; [discriminate | reflexivity].
Qed.

(** Two more samples the amended statement has to leave out. *)
Example premium_title_with_track :
  Vars.state (snd (Multi.classify multiConfig "Spotify"
                     "Song - Artist - Spotify Premium"))
  = "Song by Artist".
Proof. reflexivity. Qed.

Example valorant_process_overrides_spotify :
  Vars.state (snd (Multi.classify multiConfig "VALORANT-Win64-Shipping"
                     "Song - Artist - Spotify"))
  = "In Game".
Proof. reflexivity. Qed.

(** X2.  What [stop()] does cancel: in a reachable state, the timers left
    after it are exactly the reconnect timers that were waiting. *)
Theorem stop_cancels_poll_and_debounce cfg (a : Multi.App) (t : Timer Multi.Callback) :
  Multi.reachable cfg a ->
  (In t (Multi.timers (Multi.stop a)) <->
   In t (Multi.timers a) /\ callback t = Multi.ReconnectFire).
Proof.
  intros H. apply MultiFacts.stop_timers, (MultiFacts.reachable_Inv cfg), H.
Qed.

(** A debounce timer and the poll interval are waiting; [stop()] leaves
    nothing in the queue. *)
Lemma stop_cancels_poll_and_debounce_witness :
  let a := Multi.run multiConfig connected
             [Multi.Fire 0 1020000
                {| poll := sees "Steam" "steam" 1020000; loginOk := true;
                   loginDone := 1020000 |}] in
  map callback (Multi.timers a) = [Multi.PollTick; Multi.SwitchFire "2000"]
  /\ forall t, In t (Multi.timers (Multi.stop a)) -> callback t = Multi.ReconnectFire.
Proof.
  intros a.
  assert (H1 : map callback (Multi.timers a)
               = [Multi.PollTick; Multi.SwitchFire "2000"])
    by (vm_compute; reflexivity).
  assert (Hr : Multi.reachable multiConfig a).
  { unfold a, connected. rewrite <- MultiFacts.run_app. apply reachable_run. }
  split; [exact H1|]. intros t Ht.
  exact (proj2 (proj1 (stop_cancels_poll_and_debounce multiConfig a t Hr) Ht)).
Defined.

(** ** Durations *)

Section Durations.
Local Open Scope Z_scope.

(** X3.  [formatDuration] by the size of its argument.  Below one minute
    (negative durations included) it prints the whole seconds, rounded down,
    and "s".  From one minute to one hour it prints the whole minutes and the
    seconds left over, both below 60.  From one hour on it prints the whole
    hours and the minutes left over; the seconds are dropped and the hours
    are never folded into days. *)
Theorem formatDuration_ranges (ms : Z) :
  (ms < 60000 -> formatDuration ms = Js.num (ms / 1000) +:+ "s")
  /\ (60000 <= ms < 3600000 ->
      formatDuration ms
      = Js.num (ms / 60000) +:+ "m " +:+ Js.num ((ms / 1000) mod 60) +:+ "s"
      /\ 1 <= ms / 60000 < 60 /\ 0 <= (ms / 1000) mod 60 < 60)
  /\ (3600000 <= ms ->
      formatDuration ms
      = Js.num (ms / 3600000) +:+ "h " +:+ Js.num ((ms / 60000) mod 60) +:+ "m"
      /\ 1 <= ms / 3600000 /\ 0 <= (ms / 60000) mod 60 < 60).
Proof.
  unfold formatDuration.
  assert (Em : ms / 1000 / 60 = ms / 60000) by (rewrite Z.div_div by lia; reflexivity).
  assert (Eh : ms / 1000 / 60 / 60 = ms / 3600000)
    by (rewrite !Z.div_div by lia; reflexivity).
  cbv zeta. rewrite Eh, Em.
  split; [|split].
  - intros H.
    assert (ms / 60000 <= 0) by (apply Z.lt_succ_r, Z.div_lt_upper_bound; lia).
    assert (ms / 3600000 <= 0) by (apply Z.lt_succ_r, Z.div_lt_upper_bound; lia).
    destruct (Z.ltb_spec 0 (ms / 3600000)); [lia|].
    destruct (Z.ltb_spec 0 (ms / 60000)); [lia|]. reflexivity.
  - intros [H1 H2].
    assert (ms / 3600000 <= 0) by (apply Z.lt_succ_r, Z.div_lt_upper_bound; lia).
    assert (1 <= ms / 60000) by (apply Z.div_le_lower_bound; lia).
    assert (ms / 60000 < 60) by (apply Z.div_lt_upper_bound; lia).
    destruct (Z.ltb_spec 0 (ms / 3600000)); [lia|].
    destruct (Z.ltb_spec 0 (ms / 60000)); [|lia].
    rewrite Z.rem_mod_nonneg by (try apply Z.div_pos; lia). split; [reflexivity|]. split; [lia|]. apply Z.mod_pos_bound. lia.
  - intros H.
    assert (1 <= ms / 3600000) by (apply Z.div_le_lower_bound; lia).
    destruct (Z.ltb_spec 0 (ms / 3600000)); [|lia].
    rewrite Z.rem_mod_nonneg by (try apply Z.div_pos; lia). split; [reflexivity|]. split; [lia|]. apply Z.mod_pos_bound. lia.
Qed.
End Durations.

(** ** Classification, rule by rule *)

(** X4.  Multi-application variant.  When the process name is exactly
    "VALORANT-Win64-Shipping" the classification is fixed whatever the
    configured rules and categories are: category "games", activity type
    "games", icon "valorant", details "Playing VALORANT", and the state is
    "In Lobby" when the lower-cased title contains "lobby" and "In Game"
    otherwise (never "In a Match"). *)
Theorem valorant_process_override cfg (title : string) :
  Multi.classify cfg "VALORANT-Win64-Shipping" title
  = ("games",
     Vars.mk "games" "valorant" "Playing VALORANT"
       (if Js.includes (Js.toLowerCase title) "lobby" then "In Lobby" else "In Game")
       true).
Proof.
  unfold Multi.classify, Multi.gameOverride.
  change (String.eqb "VALORANT-Win64-Shipping" "VALORANT-Win64-Shipping") with true.
  cbv iota beta zeta. reflexivity.
Qed.

Lemma lowerChar_not_V (c : ascii) : Js.lowerChar c <> "V"%char.
Proof.
  destruct c as [[] [] [] [] [] [] [] []]; vm_compute; discriminate.
Qed.

Lemma toLowerCase_not_valorant (s : string) :
  String.eqb (Js.toLowerCase s) "VALORANT-Win64-Shipping" = false.
Proof.
  apply String.eqb_neq. destruct s as [|c s]; simpl; [discriminate|].
  intros E. inversion E as [[E1 E2]]. exact (lowerChar_not_V c E1).
Qed.

(** X5.  Multi-application variant.  The VALORANT branch of the priority
    loop also tests [processName.toLowerCase() === 'VALORANT-Win64-Shipping'].
    A lower-cased string is never equal to that literal, so the special
    handling of a matched rule is chosen by the rule's token alone: its
    result is the same for every process name. *)
Theorem special_ignores_process_name :
  (forall p, String.eqb (Js.toLowerCase p) "VALORANT-Win64-Shipping" = false)
  /\ (forall app p p' title v,
        Multi.special app p title v = Multi.special app p' title v).
Proof.
  split; [exact toLowerCase_not_valorant|].
  intros app p p' title v. unfold Multi.special.
  now rewrite !toLowerCase_not_valorant.
Qed.

Lemma codingState_keeps re title v :
  Vars.activityType (Single.codingState re title v) = Vars.activityType v
  /\ Vars.details (Single.codingState re title v) = Vars.details v
  /\ Vars.largeImageKey (Single.codingState re title v) = Vars.largeImageKey v
  /\ Vars.matchedApp (Single.codingState re title v) = Vars.matchedApp v.
Proof.
  unfold Single.codingState. destruct (Regex.search re title); repeat split.
Qed.

(** X6.  Single-application variant.  For the process names "Code",
    "Discord", "Spotify" and "chrome" the override block has the last word on
    the activity type, the details and the icon, whatever the configured
    rules say and whatever the window title is. *)
Theorem single_overrides_beat_rules cfg (title : string) :
  (let v := Single.classify cfg "Code" title in
   Vars.activityType v = "coding" /\ Vars.details v = "Coding in VS Code"
   /\ Vars.largeImageKey v = "vscode")
  /\ (let v := Single.classify cfg "Discord" title in
      Vars.activityType v = "chat" /\ Vars.details v = "Chatting on Discord"
      /\ Vars.largeImageKey v = "discord")
  /\ (let v := Single.classify cfg "Spotify" title in
      Vars.activityType v = "music" /\ Vars.details v = "Listening to Music"
      /\ Vars.largeImageKey v = "spotify")
  /\ (let v := Single.classify cfg "chrome" title in
      Vars.activityType v = "browsing"
      /\ In (Vars.details v)
           ["Browsing with Chrome"; "Watching YouTube"; "Watching Twitch";
            "Working on GitHub"]
      /\ In (Vars.largeImageKey v) ["chrome"; "windows"]).
Proof.
  unfold Single.classify.
  repeat split;
    match goal with
    | |- context [Single.overrides _ _ ?v] => generalize v; intros v0
    end; unfold Single.overrides; cbn [String.eqb Ascii.eqb Bool.eqb];
    cbv iota beta zeta.
  1-3: destruct (codingState_keeps fileDashRe title
         (Vars.setLargeImageKey "vscode"
            (Vars.setActivityType "coding"
               (Vars.setDetails "Coding in VS Code" v0)))) as [E1 [E2 [E3 _]]].
  - now rewrite E1.
  - now rewrite E2.
  - now rewrite E3.
  - destruct (Js.includes title " - Google Chrome"); [|reflexivity].
    destruct (Js.includes (Js.toLowerCase title) "youtube").
    { destruct (Regex.search ytRe title); reflexivity. }
    destruct (Js.includes (Js.toLowerCase title) "twitch"); [reflexivity|].
    destruct (Js.includes (Js.toLowerCase title) "github"); reflexivity.
  - destruct (Js.includes title " - Google Chrome"); [|simpl; auto].
    destruct (Js.includes (Js.toLowerCase title) "youtube").
    { destruct (Regex.search ytRe title); simpl; auto. }
    destruct (Js.includes (Js.toLowerCase title) "twitch"); [simpl; auto|].
    destruct (Js.includes (Js.toLowerCase title) "github"); simpl; auto.
  - destruct (Js.includes title " - Google Chrome"); [|simpl; auto].
    destruct (Js.includes (Js.toLowerCase title) "youtube").
    { destruct (Regex.search ytRe title); simpl; auto. }
    destruct (Js.includes (Js.toLowerCase title) "twitch"); [simpl; auto|].
    destruct (Js.includes (Js.toLowerCase title) "github"); simpl; auto.
Qed.

Lemma find_first {A} (f : A -> bool) (before after : list A) (x : A) :
  (forall r, In r before -> f r = false) -> f x = true ->
  find f (before ++ x :: after) = Some x.
Proof.
  intros Hb Hx. induction before as [|r before IH]; simpl.
  - now rewrite Hx.
  - rewrite (Hb r (or_introl eq_refl)). apply IH. intros r' Hr. apply Hb. now right.
Qed.

Lemma find_none {A} (f : A -> bool) (l : list A) :
  (forall r, In r l -> f r = false) -> find f l = None.
Proof.
  intros H. induction l as [|r l IH]; simpl; [reflexivity|].
  rewrite (H r (or_introl eq_refl)). apply IH. intros r' Hr. apply H. now right.
Qed.

Lemma spotifyCase_keeps title v :
  Vars.activityType (spotifyCase title v) = Vars.activityType v
  /\ Vars.largeImageKey (spotifyCase title v) = Vars.largeImageKey v
  /\ Vars.matchedApp (spotifyCase title v) = Vars.matchedApp v.
Proof.
  unfold spotifyCase. destruct (Regex.search songRe title).
  - destruct (_ && _); repeat split.
  - destruct (_ || _); repeat split.
Qed.

Lemma discordCase_keeps title v :
  Vars.activityType (discordCase title v) = Vars.activityType v
  /\ Vars.largeImageKey (discordCase title v) = Vars.largeImageKey v
  /\ Vars.details (discordCase title v) = Vars.details v
  /\ Vars.matchedApp (discordCase title v) = Vars.matchedApp v.
Proof.
  unfold discordCase. destruct (Js.includes title " - ").
  - destruct (Nat.leb 3 _); [repeat split|]. destruct (Nat.leb 2 _); repeat split.
  - destruct (Js.includes _ "direct"); repeat split.
Qed.

Lemma multi_special_keeps app p title v :
  Vars.activityType (Multi.special app p title v) = Vars.activityType v
  /\ Vars.largeImageKey (Multi.special app p title v) = Vars.largeImageKey v
  /\ Vars.matchedApp (Multi.special app p title v) = Vars.matchedApp v.
Proof.
  unfold Multi.special.
  destruct (Js.includes _ "spotify"); [apply spotifyCase_keeps|].
  destruct (Js.includes _ "discord").
  { destruct (discordCase_keeps title v) as [E1 [E2 [_ E3]]]. auto. }
  destruct (_ || _).
  { unfold Multi.valorantCase. destruct (Js.includes _ "lobby"); [repeat split|].
    destruct (Js.includes _ "match"); repeat split. }
  destruct (Js.includes _ "chrome").
  { unfold Multi.chromeCase.
    destruct (Regex.search chromeRe title); [|destruct (Regex.search simpleRe title)];
      (destruct (Js.includes _ "youtube");
       [destruct (Regex.search ytRe title); repeat split|];
       destruct (Js.includes _ "twitch"); repeat split). }
  destruct (String.eqb _ "code"); [|repeat split].
  unfold Multi.codeCase. destruct (Regex.search fileDashRe title); repeat split.
Qed.

Lemma single_special_keeps app title v :
  Vars.activityType (Single.special app title v) = Vars.activityType v
  /\ Vars.matchedApp (Single.special app title v) = Vars.matchedApp v.
Proof.
  unfold Single.special.
  destruct (Js.includes _ "spotify").
  { destruct (spotifyCase_keeps title v) as [E1 [_ E3]]. auto. }
  destruct (Js.includes _ "discord").
  { destruct (discordCase_keeps title v) as [E1 [_ [_ E3]]]. auto. }
  destruct (Js.includes _ "steam").
  { unfold Single.steamCase. destruct (Js.includes title " - ").
    - destruct (_ && _); repeat split.
    - destruct (Js.includes _ "store"); [repeat split|].
      destruct (Js.includes _ "library"); [repeat split|].
      destruct (Js.includes _ "community"); [repeat split|].
      destruct (String.eqb _ "steam"); repeat split. }
  destruct (Js.includes _ "chrome").
  { unfold Single.chromeCase.
    destruct (Regex.search chromeRe title); [|destruct (Regex.search simpleRe title)];
      (destruct (Js.includes _ "youtube");
       [destruct (Regex.search ytRe title); repeat split|];
       destruct (Js.includes _ "twitch"); [repeat split|];
       destruct (Js.includes _ "github"); repeat split). }
  destruct (Js.includes _ "fortnite").
  { unfold Single.fortniteCase. destruct (Js.includes _ "lobby"); [repeat split|].
    destruct (Js.includes _ "battle"); repeat split. }
  destruct (_ || _).
  { unfold Single.minecraftCase. destruct (Js.includes _ "server"); [|repeat split].
    destruct (Regex.search serverRe title); repeat split. }
  destruct (Js.includes _ "code"); [|repeat split].
  destruct (codingState_keeps fileEndRe title v) as [E1 [_ [_ E4]]]. auto.
Qed.

(** The override block for a process it does not name, after a match. *)
Lemma single_overrides_none (p title : string) (v : Vars.t) :
  p <> "Code" -> p <> "chrome" -> p <> "Discord" -> p <> "Spotify" ->
  Single.overrides p title v
  = if negb (Vars.matchedApp v) then Vars.setLargeImageKey "windows" v else v.
Proof.
  intros H1 H2 H3 H4. unfold Single.overrides.
  apply String.eqb_neq in H1, H2, H3, H4. now rewrite H1, H2, H3, H4.
Qed.

(** X7.  In both variants the first entry of [priorityApps] that matches the
    window decides the activity type (in the multi-application variant also
    the icon), and [customApps] is consulted only when no priority rule
    matches; then its first matching entry gives type, icon, the title as
    state and, unless the single-application variant sees the process
    ApplicationFrameHost (in any case), the rule's details.  All of this is
    for processes that are not rewritten afterwards: every process but
    VALORANT-Win64-Shipping in the multi-application variant, every process
    but Code, chrome, Discord and Spotify in the single-application one,
    which appends " (process)" to the state afterwards. *)
Theorem first_matching_rule_wins :
  (forall cfg p title before app after,
     Multi.priorityApps cfg = before ++ app :: after ->
     (forall r, In r before -> ruleMatches p title r = false) ->
     ruleMatches p title app = true ->
     p <> "VALORANT-Win64-Shipping" ->
     let v := snd (Multi.classify cfg p title) in
     Vars.activityType v = Rule.type app /\ Vars.largeImageKey v = Rule.icon app)
  /\ (forall cfg p title before app after,
        (forall r, In r (Multi.priorityApps cfg) -> ruleMatches p title r = false) ->
        Multi.customApps cfg = before ++ app :: after ->
        (forall r, In r before -> ruleMatches p title r = false) ->
        ruleMatches p title app = true ->
        p <> "VALORANT-Win64-Shipping" ->
        snd (Multi.classify cfg p title)
        = Vars.mk (Rule.type app) (Rule.icon app) (Rule.details app) title true)
  /\ (forall cfg p title before app after,
        Single.priorityApps cfg = before ++ app :: after ->
        (forall r, In r before -> ruleMatches p title r = false) ->
        ruleMatches p title app = true ->
        p <> "Code" -> p <> "chrome" -> p <> "Discord" -> p <> "Spotify" ->
        Vars.activityType (Single.classify cfg p title) = Rule.type app)
  /\ (forall cfg p title before app after,
        (forall r, In r (Single.priorityApps cfg) -> ruleMatches p title r = false) ->
        Single.customApps cfg = before ++ app :: after ->
        (forall r, In r before -> ruleMatches p title r = false) ->
        ruleMatches p title app = true ->
        p <> "Code" -> p <> "chrome" -> p <> "Discord" -> p <> "Spotify" ->
        let v := Single.classify cfg p title in
        Vars.activityType v = Rule.type app /\ Vars.largeImageKey v = Rule.icon app
        /\ Vars.state v = title
        /\ (Js.toLowerCase p <> "applicationframehost" ->
            Vars.details v = Rule.details app)).
Proof.
  split; [|split; [|split]].
  - intros cfg p title before app after Hl Hb Hm Hp v. subst v.
    unfold Multi.classify. rewrite Hl, (find_first _ _ _ _ Hb Hm).
    unfold Multi.gameOverride. apply String.eqb_neq in Hp. rewrite Hp.
    destruct (multi_special_keeps app p title (takeRule app title)) as [E1 [E2 E3]].
    cbn [snd]. rewrite E3. cbn [takeRule Vars.matchedApp negb].
    rewrite E1, E2. split; reflexivity.
  - intros cfg p title before app after Hn Hl Hb Hm Hp.
    unfold Multi.classify. rewrite (find_none _ _ Hn), Hl, (find_first _ _ _ _ Hb Hm).
    unfold Multi.gameOverride. apply String.eqb_neq in Hp. rewrite Hp. reflexivity.
  - intros cfg p title before app after Hl Hb Hm H1 H2 H3 H4.
    unfold Single.classify. rewrite Hl, (find_first _ _ _ _ Hb Hm).
    rewrite (single_overrides_none p title _ H1 H2 H3 H4).
    destruct (single_special_keeps app title (takeRule app title)) as [E1 E2].
    rewrite E2. cbn [takeRule Vars.matchedApp negb]. now rewrite E1.
  - intros cfg p title before app after Hn Hl Hb Hm H1 H2 H3 H4 v. subst v.
    unfold Single.classify. rewrite (find_none _ _ Hn), Hl, (find_first _ _ _ _ Hb Hm).
    rewrite (single_overrides_none p title _ H1 H2 H3 H4).
    unfold Single.customCase. cbn [Vars.matchedApp negb Vars.activityType
      Vars.largeImageKey Vars.state Vars.details].
    repeat split. intros Hne. apply String.eqb_neq in Hne. now rewrite Hne.
Qed.

(** X8.  A window that no rule matches is shown as activity type "app"
    with the icon "windows", the details "Using <process>", and the title as
    state, or "Idle" when the title has at most two code units.  In the
    multi-application variant this holds for every process but
    VALORANT-Win64-Shipping, and the category is the one
    [config.applications] gives.  In the single-application variant it holds
    when the lower-cased process name contains no key of [appMap] (which
    leaves out Code, chrome, Discord and Spotify), and " (process)" is
    appended to the state afterwards. *)
Theorem unmatched_window :
  (forall cfg p title,
     (forall r, In r (Multi.priorityApps cfg ++ Multi.customApps cfg) ->
                ruleMatches p title r = false) ->
     p <> "VALORANT-Win64-Shipping" ->
     Multi.classify cfg p title
     = (Multi.categoryOf cfg p title,
        Vars.mk "app" "windows" ("Using " +:+ p)
          (if Nat.ltb 2 (String.length title) then title else "Idle") false))
  /\ (forall cfg p title,
        (forall r, In r (Single.priorityApps cfg ++ Single.customApps cfg) ->
                   ruleMatches p title r = false) ->
        (forall e, In e Single.appMap ->
                   Js.includes (Js.toLowerCase p) (fst e) = false) ->
        Single.classify cfg p title
        = Vars.mk "app" "windows" ("Using " +:+ p)
            (if Nat.ltb 2 (String.length title) then title else "Idle") false).
Proof.
  split.
  - intros cfg p title Hn Hp. unfold Multi.classify.
    rewrite !find_none by (intros r Hr; apply Hn, in_or_app; auto).
    unfold Multi.gameOverride. apply String.eqb_neq in Hp. rewrite Hp.
    unfold initialVars. cbn [Vars.matchedApp negb Vars.setLargeImageKey
      Vars.activityType Vars.details Vars.state].
    unfold Multi.deriveAppType. change (String.eqb "app" "app") with true.
    cbn [negb]. rewrite andb_false_r. reflexivity.
  - intros cfg p title Hn Hm. unfold Single.classify.
    assert (K : forall k,
               existsb (fun e => String.eqb (fst e) k) Single.appMap = true ->
               Js.includes (Js.toLowerCase p) k = false).
    { intros k Hk. apply existsb_exists in Hk. destruct Hk as [e [He Hek]].
      apply String.eqb_eq in Hek. subst k. now apply Hm. }
    assert (H1 : p <> "Code")
      by (intros ->; specialize (K "code" eq_refl); vm_compute in K; discriminate).
    assert (H2 : p <> "chrome")
      by (intros ->; specialize (K "chrome" eq_refl); vm_compute in K; discriminate).
    assert (H3 : p <> "Discord")
      by (intros ->; specialize (K "discord" eq_refl); vm_compute in K; discriminate).
    assert (H4 : p <> "Spotify")
      by (intros ->; specialize (K "spotify" eq_refl); vm_compute in K; discriminate).
    rewrite !find_none by (intros r Hr; apply Hn, in_or_app; auto).
    rewrite (single_overrides_none p title _ H1 H2 H3 H4).
    unfold Single.builtIn. rewrite find_none; [reflexivity|].
    intros e He. cbn beta.
    assert (F : List.Forall (fun e => Js.toLowerCase (fst e) = fst e)
                  Single.appMap) by (vm_compute; repeat constructor).
    rewrite (proj1 (List.Forall_forall _ _) F e He). apply Hm, He.
Qed.

(** X27.  Multi-application variant.  When no entry of
    [config.applications] claims the window, the activity type of the first
    matching priority rule gives the category: "gaming" gives "games",
    "music" "music", "coding" "code", "browsing" "web", "chat" "messaging",
    "design" and "streaming" "creative" (the process
    VALORANT-Win64-Shipping apart). *)
Theorem rule_type_gives_category cfg (p title : string) before app after
    (category : string) :
  (forall entry, In entry (Multi.applications cfg) ->
     existsb (fun token =>
                Js.includes (Js.toLowerCase p) (Js.toLowerCase token)
                || Js.includes (Js.toLowerCase title) (Js.toLowerCase token))
             (Multi.processNames (snd entry)) = false) ->
  Multi.priorityApps cfg = before ++ app :: after ->
  (forall r, In r before -> ruleMatches p title r = false) ->
  ruleMatches p title app = true ->
  p <> "VALORANT-Win64-Shipping" ->
  In (Rule.type app, category)
     [("gaming", "games"); ("music", "music"); ("coding", "code");
      ("browsing", "web"); ("chat", "messaging"); ("design", "creative");
      ("streaming", "creative")] ->
  fst (Multi.classify cfg p title) = category.
Proof.
  intros Hc Hl Hb Hm Hp Hin.
  assert (Hcat : Multi.categoryOf cfg p title = "default").
  { unfold Multi.categoryOf. now rewrite (find_none _ _ Hc). }
  unfold Multi.classify. rewrite Hcat, Hl, (find_first _ _ _ _ Hb Hm).
  unfold Multi.gameOverride. apply String.eqb_neq in Hp. rewrite Hp.
  destruct (multi_special_keeps app p title (takeRule app title)) as [E1 [_ E3]].
  cbn [fst]. rewrite E3. cbn [takeRule Vars.matchedApp negb]. rewrite E1.
  cbn [takeRule Vars.activityType]. unfold Multi.deriveAppType.
  cbn [String.eqb Ascii.eqb Bool.eqb andb].
  cbn [In] in Hin.
  destruct Hin as [H|[H|[H|[H|[H|[H|[H|[]]]]]]]]; inversion H as [[H1 H2]];
    reflexivity.
Qed.

(** ** Titles cut at the separator *)

Lemma prefix_sep_dashFree (a rest : string) :
  a <> "" -> dashFree a = true ->
  String.prefix " - " (a +:+ " - " +:+ rest) = false.
Proof.
  intros Hne Ha. destruct a as [|c1 a]; [contradiction|].
  cbn [String.append String.prefix].
  destruct (ascii_dec " " c1); [|reflexivity].
  destruct a as [|c2 a]; cbn [String.append String.prefix].
  - reflexivity.
  - unfold dashFree in Ha. cbn [allChars] in Ha.
    apply andb_true_iff in Ha. destruct Ha as [_ Ha].
    apply andb_true_iff in Ha. destruct Ha as [Hc2 _].
    unfold Regex.notChar in Hc2. apply negb_true_iff in Hc2.
    destruct (ascii_dec "-" c2) as [<-|]; [|reflexivity].
    rewrite Ascii.eqb_refl in Hc2. discriminate.
Qed.

Lemma prefix_sep (x : string) : String.prefix " - " (" - " +:+ x) = true.
Proof. destruct x; reflexivity. Qed.

Lemma splitGo_sep (cur rest : string) :
  Js.splitGo " - " 0 cur (" - " +:+ rest) = cur :: Js.splitGo " - " 0 "" rest.
Proof. destruct rest; reflexivity. Qed.

Lemma splitGo_dashFree (a : string) :
  dashFree a = true ->
  forall cur rest,
    Js.splitGo " - " 0 cur (a +:+ " - " +:+ rest)
    = (cur +:+ a) :: Js.splitGo " - " 0 "" rest.
Proof.
  induction a as [|c a IH]; intros Ha cur rest.
  - rewrite append_nil_r. apply splitGo_sep.
  - pose proof (prefix_sep_dashFree (String c a) rest) as P.
    cbn [String.append] in *. cbn [Js.splitGo].
    rewrite P by (auto; discriminate).
    unfold dashFree in Ha. cbn [allChars] in Ha.
    apply andb_true_iff in Ha. destruct Ha as [_ Ha].
    rewrite (IH Ha). rewrite append_assoc. reflexivity.
Qed.

(** The first piece: the text before the first separator. *)
Lemma splitGo_first (a : string) :
  Js.includes (a +:+ " -") " - " = false ->
  forall cur rest,
    Js.splitGo " - " 0 cur (a +:+ " - " +:+ rest)
    = (cur +:+ a) :: Js.splitGo " - " 0 "" rest.
Proof.
  induction a as [|c a IH]; intros Ha cur rest.
  - rewrite append_nil_r. apply splitGo_sep.
  - assert (P : String.prefix " - " (String c a +:+ " - " +:+ rest) = false).
    { replace (String c a +:+ " - " +:+ rest)
        with ((String c a +:+ " -") +:+ (" " +:+ rest))
        by (rewrite append_assoc; reflexivity).
      rewrite prefix_app_long.
      - exact (includes_suffix "" (String c a +:+ " -") " - " Ha).
      - rewrite append_length. simpl. lia. }
    assert (Ha' : Js.includes (a +:+ " -") " - " = false).
    { cbn [String.append Js.includes] in Ha.
      destruct (String.prefix " - " (String c (a +:+ " -"))); [discriminate|].
      exact Ha. }
    cbn [String.append] in *. cbn [Js.splitGo]. rewrite P.
    rewrite (IH Ha'). rewrite append_assoc. reflexivity.
Qed.

Lemma splitGo_whole (b : string) :
  Js.includes b " - " = false ->
  forall cur, Js.splitGo " - " 0 cur b = [cur +:+ b].
Proof.
  induction b as [|c b IH]; intros Hb cur.
  - now rewrite append_nil_r.
  - cbn [Js.includes] in Hb. cbn [Js.splitGo].
    destruct (String.prefix " - " (String c b)); [discriminate|].
    rewrite (IH Hb). rewrite append_assoc. reflexivity.
Qed.

Lemma splitGo_nonempty sep (s : string) :
  forall skip cur, 1 <= length (Js.splitGo sep skip cur s).
Proof.
  induction s as [|c s IH]; intros skip cur; cbn [Js.splitGo]; [simpl; lia|].
  destruct skip; [|apply IH].
  destruct (String.prefix sep (String c s)); [simpl; lia | apply IH].
Qed.

Lemma includes_app (a b sub : string) :
  String.prefix sub b = true -> Js.includes (a +:+ b) sub = true.
Proof.
  intros H. induction a as [|c a IH]; cbn [String.append].
  - destruct b; cbn [Js.includes]; now rewrite H.
  - cbn [Js.includes]. rewrite IH.
    destruct (String.prefix sub (String c (a +:+ b))); reflexivity.
Qed.

(** The Discord branch on the three title forms it tells apart. *)
Lemma discordCase_forms (v : Vars.t) :
  (forall c s rest,
     dashFree c = true -> dashFree s = true ->
     discordCase (c +:+ " - " +:+ s +:+ " - " +:+ rest) v
     = Vars.setState ("In #" +:+ c +:+ " on " +:+ s) v)
  /\ (forall c rest,
        dashFree c = true -> Js.includes rest " - " = false ->
        discordCase (c +:+ " - " +:+ rest) v
        = Vars.setState ("Chatting in " +:+ c) v)
  /\ (forall title,
        Js.includes title " - " = false ->
        discordCase title v
        = if Js.includes (Js.toLowerCase title) "direct"
          then Vars.setState "In Direct Messages" v else v).
Proof.
  split; [|split].
  - intros c s rest Hc Hs. unfold discordCase.
    rewrite includes_app by apply prefix_sep.
    unfold Js.split. rewrite (splitGo_dashFree c Hc), (splitGo_dashFree s Hs).
    pose proof (splitGo_nonempty " - " rest 0 "") as L.
    cbn [length String.append Js.at_ nth].
    destruct (Js.splitGo " - " 0 "" rest); [simpl in L; lia|]. reflexivity.
  - intros c rest Hc Hr. unfold discordCase.
    rewrite includes_app by apply prefix_sep.
    unfold Js.split. rewrite (splitGo_dashFree c Hc), (splitGo_whole rest Hr).
    reflexivity.
  - intros title Ht. unfold discordCase. now rewrite Ht.
Qed.

Lemma multi_classify_discord cfg app (p title : string) :
  find (ruleMatches p title) (Multi.priorityApps cfg) = Some app ->
  Js.includes (Js.toLowerCase (Rule.processName app)) "spotify" = false ->
  Js.includes (Js.toLowerCase (Rule.processName app)) "discord" = true ->
  p <> "VALORANT-Win64-Shipping" ->
  snd (Multi.classify cfg p title) = discordCase title (takeRule app title).
Proof.
  intros Hf Hs Hd Hp. unfold Multi.classify. rewrite Hf.
  unfold Multi.special. rewrite Hs, Hd. unfold Multi.gameOverride.
  apply String.eqb_neq in Hp. rewrite Hp.
  destruct (discordCase_keeps title (takeRule app title)) as [_ [_ [_ E]]].
  cbn [snd]. rewrite E. reflexivity.
Qed.

Lemma single_classify_discord cfg app (p title : string) :
  find (ruleMatches p title) (Single.priorityApps cfg) = Some app ->
  Js.includes (Js.toLowerCase (Rule.processName app)) "spotify" = false ->
  Js.includes (Js.toLowerCase (Rule.processName app)) "discord" = true ->
  p <> "Code" -> p <> "chrome" ->
  Vars.state (Single.debugState p (Single.classify cfg p title))
  = Vars.state (discordCase title (takeRule app title)) +:+ " (" +:+ p +:+ ")".
Proof.
  intros Hf Hs Hd H1 H2. rewrite debugState_state. unfold Single.classify.
  rewrite Hf. unfold Single.special. rewrite Hs, Hd.
  rewrite (single_overrides_state p title _ H1 H2); [reflexivity|].
  now destruct (discordCase_keeps title (takeRule app title)) as [_ [_ [_ E]]].
Qed.

Lemma discordCase_shows (title shown : string) (v : Vars.t) :
  discordShows title shown ->
  Vars.state v = title ->
  Vars.state (discordCase title v) = shown.
Proof.
  destruct (discordCase_forms v) as [F1 [F2 F3]].
  intros [c s rest Hc Hs|c rest Hc Hr|t Hn Hd|t Hn Hd] Hv.
  - now rewrite (F1 c s rest Hc Hs).
  - now rewrite (F2 c rest Hc Hr).
  - now rewrite (F3 t Hn), Hd.
  - now rewrite (F3 t Hn), Hd.
Qed.

(** X9.  The first priority rule that matches is a Discord rule (its token
    contains "discord" and not "spotify"), and the process is not
    VALORANT-Win64-Shipping in the multi-application variant, neither Code
    nor chrome in the single-application one.  A title
    "channel - server - ..." shows "In #channel on server", a title
    "name - rest" with one separator shows "Chatting in name", a title
    without " - " shows "In Direct Messages" when it contains "direct" in
    any case and the title itself otherwise (channel, server and name
    without a dash).  The single-application variant appends " (process)". *)
Theorem discord_title_by_variant :
  (forall cfg app (p title shown : string),
     find (ruleMatches p title) (Multi.priorityApps cfg) = Some app ->
     Js.includes (Js.toLowerCase (Rule.processName app)) "spotify" = false ->
     Js.includes (Js.toLowerCase (Rule.processName app)) "discord" = true ->
     p <> "VALORANT-Win64-Shipping" ->
     discordShows title shown ->
     Vars.state (snd (Multi.classify cfg p title)) = shown)
  /\ (forall cfg app (p title shown : string),
        find (ruleMatches p title) (Single.priorityApps cfg) = Some app ->
        Js.includes (Js.toLowerCase (Rule.processName app)) "spotify" = false ->
        Js.includes (Js.toLowerCase (Rule.processName app)) "discord" = true ->
        p <> "Code" -> p <> "chrome" ->
        discordShows title shown ->
        Vars.state (Single.debugState p (Single.classify cfg p title))
        = shown +:+ " (" +:+ p +:+ ")").
Proof.
  split.
  - intros cfg app p title shown Hf Hs Hd Hp H.
    rewrite (multi_classify_discord cfg app p title Hf Hs Hd Hp).
    now apply discordCase_shows.
  - intros cfg app p title shown Hf Hs Hd H1 H2 H.
    rewrite (single_classify_discord cfg app p title Hf Hs Hd H1 H2).
    now rewrite (discordCase_shows title shown (takeRule app title) H).
Qed.

(** X10.  Single-application variant, the first priority rule that matches
    is a Steam rule (its token contains "steam" and neither "spotify" nor
    "discord") and the process is none of Code, chrome, Discord and Spotify.
    A title "game - rest" whose only " - " is the one after the game (the
    game may contain a dash) and whose rest contains "steam" in any case
    shows "Playing game" with the details "Gaming on Steam", and
    " (process)" appended to the state. *)
Theorem steam_title (game rest : string) :
  Js.includes (game +:+ " -") " - " = false -> Js.includes rest " - " = false ->
  Js.includes (Js.toLowerCase rest) "steam" = true ->
  let title := game +:+ " - " +:+ rest in
  forall cfg app p,
    find (ruleMatches p title) (Single.priorityApps cfg) = Some app ->
    Js.includes (Js.toLowerCase (Rule.processName app)) "spotify" = false ->
    Js.includes (Js.toLowerCase (Rule.processName app)) "discord" = false ->
    Js.includes (Js.toLowerCase (Rule.processName app)) "steam" = true ->
    p <> "Code" -> p <> "chrome" -> p <> "Discord" -> p <> "Spotify" ->
    let v := Single.debugState p (Single.classify cfg p title) in
    Vars.state v = "Playing " +:+ game +:+ " (" +:+ p +:+ ")"
    /\ Vars.details v = "Gaming on Steam"
    /\ Vars.activityType v = Rule.type app.
Proof.
  intros Hg Hr Hs title cfg app p Hf H1 H2 H3 P1 P2 P3 P4 v. subst v.
  unfold Single.classify. rewrite Hf.
  unfold Single.special. rewrite H1, H2, H3.
  rewrite (single_overrides_none p title _ P1 P2 P3 P4).
  unfold Single.steamCase, title. rewrite includes_app by apply prefix_sep.
  unfold Js.split. rewrite (splitGo_first game Hg), (splitGo_whole rest Hr).
  cbn [length Nat.leb Nat.sub Js.at_ nth String.append andb]. rewrite Hs.
  cbn. auto.
Qed.

(** X26.  Single-application variant, no priority rule matches, the first
    matching custom rule is taken and the lower-cased process name is
    "applicationframehost".  The details are "Using " and the part of the
    title before its first " - " (that part may contain a dash), or the
    whole title when it has no " - " or begins with one; type and icon are
    the rule's. *)
Theorem frame_host_details cfg (p title : string) before app after :
  (forall r, In r (Single.priorityApps cfg) -> ruleMatches p title r = false) ->
  Single.customApps cfg = before ++ app :: after ->
  (forall r, In r before -> ruleMatches p title r = false) ->
  ruleMatches p title app = true ->
  Js.toLowerCase p = "applicationframehost" ->
  let v := Single.classify cfg p title in
  (Js.includes title " - " = false -> Vars.details v = "Using " +:+ title)
  /\ (forall name rest,
        title = name +:+ " - " +:+ rest ->
        Js.includes (name +:+ " -") " - " = false ->
        Vars.details v = "Using " +:+ (if Js.truthy name then name else title))
  /\ Vars.activityType v = Rule.type app /\ Vars.largeImageKey v = Rule.icon app.
Proof.
  intros Hn Hl Hb Hm Hp v.
  assert (Hv : v = Single.customCase app p title).
  { unfold v, Single.classify.
    rewrite (find_none _ _ Hn), Hl, (find_first _ _ _ _ Hb Hm).
    apply single_overrides_none; intros ->; discriminate. }
  rewrite Hv. unfold Single.customCase. rewrite Hp.
  cbn [String.eqb Ascii.eqb Bool.eqb Vars.details Vars.activityType
       Vars.largeImageKey]. cbv iota.
  split; [|split; [|split; reflexivity]].
  - intros Hi. unfold Js.split. rewrite (splitGo_whole title Hi).
    cbn [Js.at_ nth String.append]. unfold Js.orElse.
    destruct (Js.truthy title); reflexivity.
  - intros name rest -> Hd. unfold Js.split. rewrite (splitGo_first name Hd).
    cbn [Js.at_ nth String.append]. reflexivity.
Qed.

(** ** The title of a Chrome window, single-application variant *)

Lemma removeGo_done (pat y : string) : Js.removeGo pat 0 true y = y.
Proof.
  induction y as [|c y IH]; cbn [Js.removeGo negb andb]; [reflexivity|].
  now rewrite IH.
Qed.

Lemma removeGo_skip (pat u s : string) (done : bool) :
  Js.removeGo pat (String.length u) done (u +:+ s) = Js.removeGo pat 0 done s.
Proof.
  induction u as [|c u IH]; cbn [String.length String.append]; [reflexivity|].
  cbn [Js.removeGo]. exact IH.
Qed.

Lemma prefix_app_self (p y : string) : String.prefix p (p +:+ y) = true.
Proof.
  induction p as [|a p IH]; cbn [String.append String.prefix].
  - destruct y; reflexivity.
  - destruct (ascii_dec a a) as [_|N]; [exact IH | contradiction N; reflexivity].
Qed.

(** [replace] removes the occurrence of the pattern that follows the piece
    [x], when the pattern does not begin inside [x]. *)
Lemma removeFirst_first (pat' : string) (l : ascii) (x y : string) :
  Js.includes (x +:+ pat') (pat' +:+ String l "") = false ->
  Js.removeFirst (pat' +:+ String l "") (x +:+ (pat' +:+ String l "") +:+ y)
  = x +:+ y.
Proof.
  unfold Js.removeFirst. set (pat := pat' +:+ String l "").
  induction x as [|c x IH]; intros H.
  - cbn [String.append].
    assert (P : String.prefix pat (pat +:+ y) = true) by apply prefix_app_self.
    destruct pat as [|c0 t] eqn:E.
    { destruct pat'; discriminate. }
    cbn [String.append] in *. cbn [Js.removeGo negb andb]. rewrite P.
    cbn [String.length Nat.sub]. rewrite Nat.sub_0_r, removeGo_skip.
    apply removeGo_done.
  - cbn [String.append]. cbn [String.append Js.includes] in H.
    destruct (String.prefix pat (String c (x +:+ pat'))) eqn:P; [discriminate|].
    cbn [Js.removeGo negb andb].
    assert (E : String c (x +:+ pat +:+ y)
                = String c (x +:+ pat') +:+ (String l "" +:+ y)).
    { cbn [String.append]. f_equal. unfold pat. now rewrite !append_assoc. }
    rewrite E, prefix_app_long, P.
    + now rewrite (IH H).
    + unfold pat. cbn [String.length]. rewrite !append_length. simpl. lia.
Qed.

(** X25.  Single-application variant, the process "chrome" and a title in
    which " - Google Chrome" occurs first after the piece x, without
    "youtube", "twitch" or "github" in it.  Whatever the rules are, the state
    is the title with that occurrence removed, followed by " (chrome)", so a
    title "page - site - Google Chrome" shows "page - site (chrome)" and not
    "On site"; the details are "Browsing with Chrome", the icon is "chrome"
    and the activity type "browsing". *)
Theorem single_chrome_title (x y : string) :
  Js.includes (x +:+ " - Google Chrom") " - Google Chrome" = false ->
  let title := x +:+ " - Google Chrome" +:+ y in
  Js.includes (Js.toLowerCase title) "youtube" = false ->
  Js.includes (Js.toLowerCase title) "twitch" = false ->
  Js.includes (Js.toLowerCase title) "github" = false ->
  forall cfg,
    let v := Single.debugState "chrome" (Single.classify cfg "chrome" title) in
    Vars.state v = x +:+ y +:+ " (chrome)"
    /\ Vars.details v = "Browsing with Chrome"
    /\ Vars.largeImageKey v = "chrome" /\ Vars.activityType v = "browsing".
Proof.
  intros Hx title Hy Ht Hg cfg v. subst v. unfold Single.classify.
  match goal with
  | |- context [Single.overrides _ _ ?v] => generalize v; intros v0
  end.
  unfold Single.overrides. cbn [String.eqb Ascii.eqb Bool.eqb]. cbv iota beta zeta.
  assert (Hi : Js.includes title " - Google Chrome" = true).
  { unfold title. apply includes_app. destruct y; reflexivity. }
  rewrite Hi, Hy, Ht, Hg. unfold title.
  pose proof (removeFirst_first " - Google Chrom" "e" x y Hx) as R.
  change (" - Google Chrom" +:+ "e") with " - Google Chrome" in R. rewrite R.
  cbn. rewrite append_assoc. auto.
Qed.

(** ** Titles matched by a greedy pattern *)

Lemma rep_unfold_greedy lo hi cls cap k acc n s :
  Regex.rep true lo hi cls cap k acc n s
  = Regex.orTry
      (match s with
       | String c s' =>
           if cls c && Regex.below hi n
           then Regex.rep true lo hi cls cap k
                  (acc +:+ String c EmptyString) (S n) s'
           else None
       | EmptyString => None
       end)
      (fun _ =>
         if Nat.leb lo n
         then match k s with
              | Some caps => Some (if cap then acc :: caps else caps)
              | None => None
              end
         else None).
Proof. destruct s; reflexivity. Qed.

(** A greedy class fails when the rest of the pattern fails at every point
    it can stop. *)
Lemma rep_greedy_none lo cls cap (k : string -> option (list string))
    (out : string) :
  (forall c out', out = String c out' -> cls c = false) ->
  forall (r acc : string) (n : nat),
    allChars cls r = true ->
    (forall r1 r2, r = r1 +:+ r2 -> k (r2 +:+ out) = None) ->
    Regex.rep true lo None cls cap k acc n (r +:+ out) = None.
Proof.
  intros Hout. induction r as [|c r IH]; intros acc n Hr Hk.
  - cbn [String.append]. rewrite rep_unfold_greedy.
    pose proof (Hk "" "" eq_refl) as K. cbn [String.append] in K. rewrite K.
    destruct out as [|c out']; cbn [String.append].
    + destruct (Nat.leb lo n); reflexivity.
    + rewrite (Hout c out' eq_refl). destruct (Nat.leb lo n); reflexivity.
  - cbn [allChars] in Hr. apply andb_true_iff in Hr. destruct Hr as [Hc Hr].
    cbn [String.append]. rewrite rep_unfold_greedy, Hc. cbn [Regex.below andb].
    rewrite IH; [|exact Hr|].
    + cbn [Regex.orTry].
      pose proof (Hk "" (String c r) eq_refl) as K. cbn [String.append] in K.
      rewrite K. destruct (Nat.leb lo n); reflexivity.
    + intros r1 r2 E. apply (Hk (String c r1) r2). cbn [String.append]. now rewrite E.
Qed.

(** A greedy [(cls+)] takes exactly the prefix [p] when the rest of the
    pattern matches after [p] and at no later point the class reaches. *)
Lemma rep_greedy_exact cls (k : string -> option (list string))
    (r out : string) (caps : list string) :
  (forall c out', out = String c out' -> cls c = false) ->
  allChars cls r = true ->
  k (r +:+ out) = Some caps ->
  (forall r1 r2, r = r1 +:+ r2 -> r1 <> "" -> k (r2 +:+ out) = None) ->
  forall (p acc : string) (n : nat),
    allChars cls p = true ->
    1 <= n + String.length p ->
    Regex.rep true 1 None cls true k acc n (p +:+ r +:+ out)
    = Some ((acc +:+ p) :: caps).
Proof.
  intros Hout Hr Hk Hlater. induction p as [|c p IH]; intros acc n Hp Hlen.
  - cbn [String.append]. rewrite append_nil_r. simpl in Hlen.
    destruct n as [|n]; [lia|].
    destruct r as [|c r].
    + cbn [String.append] in *. rewrite rep_unfold_greedy, Hk.
      destruct out as [|c out']; [reflexivity|].
      rewrite (Hout c out' eq_refl). reflexivity.
    + cbn [allChars] in Hr. apply andb_true_iff in Hr. destruct Hr as [Hc Hr].
      cbn [String.append] in *. rewrite rep_unfold_greedy, Hc.
      cbn [Regex.below andb].
      rewrite (rep_greedy_none 1 cls true k out Hout r _ _ Hr).
      * cbn [Regex.orTry Nat.leb]. now rewrite Hk.
      * intros r1 r2 E. apply (Hlater (String c r1) r2); [|discriminate].
        cbn [String.append]. now rewrite E.
  - cbn [allChars] in Hp. apply andb_true_iff in Hp. destruct Hp as [Hc Hp].
    cbn [String.append]. rewrite rep_unfold_greedy, Hc. cbn [Regex.below andb].
    rewrite IH; [|exact Hp|simpl in Hlen; lia].
    cbn [Regex.orTry]. now rewrite append_assoc.
Qed.

(** A pattern that begins with a literal dot finds nothing in a piece
    without a dot. *)
Lemma search_skip_dotFree (l : string) (re : Regex.regex) (name s : string) :
  dotFree name = true ->
  Regex.search (Regex.Lit false (String "." l) :: re) (name +:+ s)
  = Regex.search (Regex.Lit false (String "." l) :: re) s.
Proof.
  induction name as [|c name IH]; intros Hn; [reflexivity|].
  unfold dotFree in Hn. cbn [allChars] in Hn.
  apply andb_true_iff in Hn. destruct Hn as [Hc Hn].
  cbn [String.append Regex.search]. rewrite matchHere_lit, stripPrefix_cons.
  unfold Regex.notChar in Hc. apply negb_true_iff in Hc.
  rewrite Ascii.eqb_sym, Hc. apply IH, Hn.
Qed.

(** What [fileDashRe] captures: the text between the first dot and the last
    " -". *)
Lemma fileDashRe_captures (name x rest : string) :
  dotFree name = true -> dotFree x = true -> x <> "" ->
  dotFree rest = true -> Js.includes rest " -" = false ->
  Regex.search fileDashRe (name +:+ "." +:+ x +:+ " -" +:+ rest) = Some [x].
Proof.
  intros Hn Hx Hne Hr Hi. unfold fileDashRe.
  rewrite (search_skip_dotFree "" _ name _ Hn).
  assert (Hm : Regex.matchHere
                 [Regex.Lit false "."; Regex.plus true (Regex.notChar ".");
                  Regex.Lit false " -"] ("." +:+ x +:+ " -" +:+ rest)
               = Some [x]).
  { rewrite matchHere_lit.
    change (Regex.stripPrefix false "." ("." +:+ x +:+ " -" +:+ rest))
      with (Some (x +:+ " -" +:+ rest)).
    unfold Regex.plus. rewrite matchHere_rep.
    pose proof (rep_greedy_exact (Regex.notChar ".")
                  (Regex.matchHere [Regex.Lit false " -"])
                  (" -" +:+ rest) "" []) as G.
    rewrite !append_nil_r in G.
    apply (G ltac:(discriminate)); clear G.
    - exact Hr.
    - destruct rest; reflexivity.
    - intros r1 r2 E Hr1. rewrite append_nil_r, matchHere_lit.
      rewrite stripPrefix_prefix; [reflexivity|].
      destruct r1 as [|c1 r1]; [contradiction|].
      cbn [String.append] in E. inversion E as [[E1 E2]].
      destruct r1 as [|c2 r1]; cbn [String.append] in E2.
      + rewrite <- E2. reflexivity.
      + inversion E2 as [[E3 E4]]. apply (includes_suffix r1 r2). now rewrite <- E4.
    - exact Hx.
    - destruct x; [contradiction | simpl; lia]. }
  cbn [String.append] in *. cbn [Regex.search]. now rewrite Hm.
Qed.

Lemma includes_lower_space (x : string) :
  Js.includes x " " = true -> Js.includes (Js.toLowerCase x) " " = true.
Proof.
  induction x as [|c x IH]; cbn [Js.toLowerCase Js.includes]; [auto|].
  cbn [String.prefix].
  destruct (ascii_dec " " c) as [<-|Hne].
  - intros _. change (Js.lowerChar " ") with " "%char.
    destruct (ascii_dec " " " ") as [_|N]; [|contradiction N; reflexivity].
    destruct (Js.toLowerCase x); reflexivity.
  - intros H. rewrite (IH H). destruct (ascii_dec " " (Js.lowerChar c)); [|reflexivity].
    destruct (String.prefix "" _); reflexivity.
Qed.

(** What [langMap[extension] || extension] is for a known extension and for
    a text with a space in it. *)
Lemma languageOf_cases (x shown : string) :
  assoc (Js.toLowerCase x) langMap = Some shown
  \/ (Js.includes x " " = true /\ shown = Js.toLowerCase x) ->
  languageOf (Js.toLowerCase x) = shown.
Proof.
  intros [H|[H ->]]; unfold languageOf; [now rewrite H|].
  apply includes_lower_space in H.
  assert (N : forall (l : list (string * string)),
             List.Forall (fun e => Js.includes (fst e) " " = false) l ->
             assoc (Js.toLowerCase x) l = None).
  { induction l as [|[k v] l IH]; intros F; [reflexivity|].
    inversion F as [|e l' Hk Hl]; subst. cbn [assoc fst] in *.
    destruct (String.eqb_spec (Js.toLowerCase x) k) as [Eq|_]; [|auto].
    rewrite Eq in H. congruence. }
  rewrite !N; [reflexivity| |]; vm_compute; repeat constructor.
Qed.

(** X11.  The pattern [/\.([^.]+) -/] of the VS Code handling is greedy: in a
    title "name.x -rest" (no dot in name, x and rest, no " -" in rest) it
    captures everything between the first dot and the last " -".  For
    "main.ts - Visual Studio Code" that is "ts", shown as "Coding in
    TypeScript"; for "main.ts - proj - Visual Studio Code" it is "ts - proj",
    shown as "Coding in ts - proj".  The single-application variant does this
    for the process "Code" whatever the rules are, the multi-application
    variant for a priority rule whose token is "code". *)
Theorem code_title_extension (name x rest shown : string) :
  dotFree name = true -> dotFree x = true -> x <> "" ->
  dotFree rest = true -> Js.includes rest " -" = false ->
  assoc (Js.toLowerCase x) langMap = Some shown
  \/ (Js.includes x " " = true /\ shown = Js.toLowerCase x) ->
  let title := name +:+ "." +:+ x +:+ " -" +:+ rest in
  Regex.search fileDashRe title = Some [x]
  /\ (forall cfg,
        Vars.state (Single.debugState "Code" (Single.classify cfg "Code" title))
        = "Coding in " +:+ shown +:+ " (Code)")
  /\ (forall cfg app p,
        find (ruleMatches p title) (Multi.priorityApps cfg) = Some app ->
        Js.toLowerCase (Rule.processName app) = "code" ->
        p <> "VALORANT-Win64-Shipping" ->
        Vars.state (snd (Multi.classify cfg p title)) = "Coding in " +:+ shown).
Proof.
  intros Hn Hx Hne Hr Hi Hs title.
  pose proof (fileDashRe_captures name x rest Hn Hx Hne Hr Hi) as Hc. fold title in Hc.
  pose proof (languageOf_cases x shown Hs) as Hl.
  split; [exact Hc|]. split.
  - intros cfg. rewrite debugState_state. unfold Single.classify.
    match goal with
    | |- context [Single.overrides _ _ ?v] => generalize v; intros v0
    end.
    unfold Single.overrides. cbn [String.eqb Ascii.eqb Bool.eqb]. cbv iota beta zeta.
    unfold Single.codingState. rewrite Hc. unfold Regex.group. cbn [nth Nat.sub].
    rewrite Hl. cbn [Vars.state Vars.setState]. now rewrite append_assoc.
  - intros cfg app p Hf Ht Hp. unfold Multi.classify. rewrite Hf.
    unfold Multi.special. rewrite Ht, toLowerCase_not_valorant.
    change (Js.includes "code" "spotify") with false.
    change (Js.includes "code" "discord") with false.
    change (Js.includes "code" "valorant") with false.
    change (Js.includes "code" "chrome") with false.
    change (String.eqb "code" "code") with true. cbv iota beta. cbn [orb].
    cbv iota. unfold Multi.codeCase. rewrite Hc. unfold Regex.group. cbn [nth Nat.sub].
    rewrite Hl. unfold Multi.gameOverride. apply String.eqb_neq in Hp. rewrite Hp.
    reflexivity.
Qed.

Lemma suffixes_In (s t1 r2 : string) : s = t1 +:+ r2 -> In r2 (suffixes s).
Proof.
  revert s. induction t1 as [|c t1 IH]; intros s E; cbn [String.append] in E.
  - subst s. destruct r2; now left.
  - subst s. cbn [suffixes]. right. now apply IH.
Qed.

Lemma app_eq_app (a b c d : string) :
  a +:+ b = c +:+ d ->
  (exists m, a = c +:+ m /\ d = m +:+ b) \/ (exists m, c = a +:+ m /\ b = m +:+ d).
Proof.
  revert c. induction a as [|x a IH]; intros c E; cbn [String.append] in E.
  - right. exists c. auto.
  - destruct c as [|y c]; cbn [String.append] in E.
    + left. exists (String x a). subst d. auto.
    + inversion E as [[E1 E2]]. destruct (IH c E2) as [[m [-> ->]]|[m [-> ->]]].
      * left. exists m. auto.
      * right. exists m. auto.
Qed.

(** What [chromeRe] captures in a title "page - site - Google Chrome". *)
Lemma chromeRe_captures (page site : string) :
  allChars Regex.dot page = true -> page <> "" ->
  allChars plain site = true -> site <> "" ->
  Regex.search chromeRe (page +:+ " - " +:+ site +:+ " - Google Chrome")
  = Some [page; site].
Proof.
  intros Hp Hpn Hs Hsn. destruct (allChars_plain _ Hs) as [Hsd Hsn'].
  set (k2 := Regex.matchHere [Regex.Lit false " - Google Chrome"; Regex.EndAnchor]).
  set (k1 := Regex.matchHere [Regex.Lit false " - "; Regex.plus true (Regex.notChar "-");
                              Regex.Lit false " - Google Chrome"; Regex.EndAnchor]).
  assert (K1 : forall s, k1 (" - " +:+ s)
                 = Regex.rep true 1 None (Regex.notChar "-") true k2 "" 0 s).
  { intros s. unfold k1. rewrite matchHere_lit.
    change (Regex.stripPrefix false " - " (" - " +:+ s)) with (Some s).
    unfold Regex.plus. now rewrite matchHere_rep. }
  assert (Hsite : k1 (" - " +:+ site +:+ " - Google Chrome") = Some [site]).
  { rewrite K1.
    apply (rep_greedy_exact (Regex.notChar "-") k2 " " "- Google Chrome" []).
    - intros c out' E. inversion E. reflexivity.
    - reflexivity.
    - reflexivity.
    - intros r1 r2 E Hne. destruct r1 as [|c1 r1]; [contradiction|].
      cbn [String.append] in E. inversion E as [[E1 E2]].
      destruct r1; cbn [String.append] in E2; [subst r2; reflexivity | discriminate].
    - exact Hsn'.
    - destruct site; [contradiction | simpl; lia]. }
  assert (Htail : forall t1 r2, " - Google Chrome" = t1 +:+ r2 -> k1 r2 = None).
  { intros t1 r2 E. apply suffixes_In in E. revert r2 E.
    apply List.Forall_forall. vm_compute. repeat constructor. }
  assert (Hm : Regex.matchHere chromeRe
                 (page +:+ " - " +:+ site +:+ " - Google Chrome")
               = Some [page; site]).
  { unfold chromeRe at 1. unfold Regex.plus at 1. rewrite matchHere_rep.
    fold k1.
    pose proof (rep_greedy_exact Regex.dot k1
                  (" - " +:+ site +:+ " - Google Chrome") "" [site]) as G.
    rewrite !append_nil_r in G.
    apply (G ltac:(discriminate)); clear G.
    - rewrite !allChars_app, Hsd. reflexivity.
    - exact Hsite.
    - intros r1 r2 E Hne. rewrite append_nil_r.
      destruct r1 as [|c1 r1]; [contradiction|].
      cbn [String.append] in E. inversion E as [[E1 E2]].
      destruct r1 as [|c2 r1]; cbn [String.append] in E2.
      { subst r2. reflexivity. }
      inversion E2 as [[E3 E4]].
      destruct r1 as [|c3 r1]; cbn [String.append] in E4.
      { subst r2. unfold k1. rewrite matchHere_lit.
        destruct site as [|s0 site]; [contradiction|].
        cbn [String.append]. rewrite stripPrefix_cons. cbn [Ascii.eqb Bool.eqb].
        cbv iota. rewrite stripPrefix_cons.
        cbn [allChars] in Hsn'. apply andb_true_iff in Hsn'. destruct Hsn' as [Hc _].
        unfold Regex.notChar in Hc. apply negb_true_iff in Hc.
        rewrite Ascii.eqb_sym, Hc. reflexivity. }
      inversion E4 as [[E5 E6]].
      destruct (app_eq_app _ _ _ _ E6) as [[m [Em ->]]|[m [Em Et]]].
      + destruct m as [|m0 m].
        * cbn [String.append]. apply (Htail "" _ eq_refl).
        * unfold k1. apply (lit_fails_inside " " _ (String m0 m) " Google Chrome");
            [discriminate|].
          apply (split_notDash site r1 (String m0 m) Hsn' Em).
      + apply (Htail m r2 Et).
    - exact Hp.
    - destruct page; [contradiction | simpl; lia]. }
  destruct page as [|c page]; [contradiction|].
  cbn [String.append] in *. cbn [Regex.search]. now rewrite Hm.
Qed.

(** X12.  A Chrome rule (token contains "chrome") and a title
    "page - site - Google Chrome" without "youtube" in it, where the site has
    no dash: the state is "On site", the site trimmed, whatever dashes the
    page title has.  The single-application variant appends " (process)";
    there the process must not be "chrome" itself, which the override block
    rewrites. *)
Theorem chrome_title_site (page site : string) :
  allChars Regex.dot page = true -> page <> "" ->
  allChars plain site = true -> site <> "" ->
  let title := page +:+ " - " +:+ site +:+ " - Google Chrome" in
  Js.includes (Js.toLowerCase title) "youtube" = false ->
  (forall cfg app p,
     find (ruleMatches p title) (Multi.priorityApps cfg) = Some app ->
     Js.includes (Js.toLowerCase (Rule.processName app)) "spotify" = false ->
     Js.includes (Js.toLowerCase (Rule.processName app)) "discord" = false ->
     Js.includes (Js.toLowerCase (Rule.processName app)) "valorant" = false ->
     Js.includes (Js.toLowerCase (Rule.processName app)) "chrome" = true ->
     p <> "VALORANT-Win64-Shipping" ->
     Vars.state (snd (Multi.classify cfg p title)) = "On " +:+ Js.trim site)
  /\ (forall cfg app p,
        find (ruleMatches p title) (Single.priorityApps cfg) = Some app ->
        Js.includes (Js.toLowerCase (Rule.processName app)) "spotify" = false ->
        Js.includes (Js.toLowerCase (Rule.processName app)) "discord" = false ->
        Js.includes (Js.toLowerCase (Rule.processName app)) "steam" = false ->
        Js.includes (Js.toLowerCase (Rule.processName app)) "chrome" = true ->
        p <> "Code" -> p <> "chrome" ->
        Vars.state (Single.debugState p (Single.classify cfg p title))
        = "On " +:+ Js.trim site +:+ " (" +:+ p +:+ ")").
Proof.
  intros Hp Hpn Hs Hsn title Hy.
  pose proof (chromeRe_captures page site Hp Hpn Hs Hsn) as Hc. fold title in Hc.
  split.
  - intros cfg app p Hf H1 H2 H3 H4 Hv. unfold Multi.classify. rewrite Hf.
    unfold Multi.special. rewrite H1, H2, H3, toLowerCase_not_valorant, H4.
    cbn [orb]. cbv iota. unfold Multi.chromeCase. rewrite Hc, Hy.
    unfold Regex.group. cbn [nth Nat.sub].
    unfold Multi.gameOverride. apply String.eqb_neq in Hv. rewrite Hv.
    destruct (Js.includes (Js.toLowerCase title) "twitch"); reflexivity.
  - intros cfg app p Hf H1 H2 H3 H4 Hp1 Hp2. rewrite debugState_state.
    unfold Single.classify. rewrite Hf.
    unfold Single.special. rewrite H1, H2, H3, H4.
    rewrite single_overrides_state; [| assumption | assumption |].
    + unfold Single.chromeCase. rewrite Hc, Hy. unfold Regex.group. cbn [nth Nat.sub].
      destruct (Js.includes (Js.toLowerCase title) "twitch");
        [|destruct (Js.includes (Js.toLowerCase title) "github")];
        cbn [Vars.state Vars.setState Vars.setDetails Vars.setLargeImageKey];
        now rewrite append_assoc.
    + unfold Single.chromeCase. rewrite Hc, Hy.
      destruct (Js.includes (Js.toLowerCase title) "twitch");
        [|destruct (Js.includes (Js.toLowerCase title) "github")]; reflexivity.
Qed.

Lemma toLowerCase_app (a b : string) :
  Js.toLowerCase (a +:+ b) = Js.toLowerCase a +:+ Js.toLowerCase b.
Proof.
  induction a as [|c a IH]; cbn [String.append Js.toLowerCase]; [reflexivity|].
  now rewrite IH.
Qed.

(** What [ytRe] captures in the title of a YouTube tab. *)
Lemma ytRe_captures (video : string) :
  allChars Regex.dot video = true -> video <> "" ->
  Regex.search ytRe (video +:+ " - YouTube - Google Chrome") = Some [video].
Proof.
  intros Hv Hne.
  set (k := Regex.matchHere [Regex.Lit false " - YouTube"]).
  assert (Htail : forall r1 r2, " - YouTube - Google Chrome" = r1 +:+ r2 ->
                    r1 <> "" -> k r2 = None).
  { intros r1 r2 E Hr1. destruct r1 as [|c r1]; [contradiction|].
    cbn [String.append] in E. inversion E as [[E1 E2]].
    apply suffixes_In in E2. clear E. revert r2 E2.
    apply List.Forall_forall. vm_compute. repeat constructor. }
  assert (Hm : Regex.matchHere ytRe (video +:+ " - YouTube - Google Chrome")
               = Some [video]).
  { unfold ytRe, Regex.plus. rewrite matchHere_rep. fold k.
    pose proof (rep_greedy_exact Regex.dot k " - YouTube - Google Chrome" "" []) as G.
    rewrite !append_nil_r in G.
    apply (G ltac:(discriminate)); clear G.
    - reflexivity.
    - reflexivity.
    - intros r1 r2 E Hr1. rewrite append_nil_r. now apply (Htail r1 r2).
    - exact Hv.
    - destruct video; [contradiction | simpl; lia]. }
  destruct video as [|c video]; [contradiction|].
  cbn [String.append] in *. cbn [Regex.search]. now rewrite Hm.
Qed.

Lemma includes_app_r (a b sub : string) :
  Js.includes b sub = true -> Js.includes (a +:+ b) sub = true.
Proof.
  intros H. induction a as [|c a IH]; cbn [String.append]; [exact H|].
  cbn [Js.includes]. rewrite IH.
  destruct (String.prefix sub (String c (a +:+ b))); reflexivity.
Qed.

(** X13.  A YouTube tab, title "video - YouTube - Google Chrome".  In the
    single-application variant the process "chrome" shows, whatever the rules
    are, the state "Watching: video (chrome)", the details "Watching
    YouTube", the icon "windows" and the activity type "browsing".  In the
    multi-application variant a Chrome rule shows "Watching: video" with the
    details "Watching YouTube" and the rule's own icon. *)
Theorem youtube_title_by_variant (video : string) :
  allChars Regex.dot video = true -> video <> "" ->
  let title := video +:+ " - YouTube - Google Chrome" in
  (forall cfg,
     let v := Single.debugState "chrome" (Single.classify cfg "chrome" title) in
     Vars.state v = "Watching: " +:+ Js.trim video +:+ " (chrome)"
     /\ Vars.details v = "Watching YouTube"
     /\ Vars.largeImageKey v = "windows" /\ Vars.activityType v = "browsing")
  /\ (forall cfg app p,
        find (ruleMatches p title) (Multi.priorityApps cfg) = Some app ->
        Js.includes (Js.toLowerCase (Rule.processName app)) "spotify" = false ->
        Js.includes (Js.toLowerCase (Rule.processName app)) "discord" = false ->
        Js.includes (Js.toLowerCase (Rule.processName app)) "valorant" = false ->
        Js.includes (Js.toLowerCase (Rule.processName app)) "chrome" = true ->
        p <> "VALORANT-Win64-Shipping" ->
        let v := snd (Multi.classify cfg p title) in
        Vars.state v = "Watching: " +:+ Js.trim video
        /\ Vars.details v = "Watching YouTube"
        /\ Vars.largeImageKey v = Rule.icon app).
Proof.
  intros Hv Hne title.
  pose proof (ytRe_captures video Hv Hne) as Hc. fold title in Hc.
  assert (Hy : Js.includes (Js.toLowerCase title) "youtube" = true).
  { unfold title. rewrite toLowerCase_app. now apply includes_app_r. }
  assert (Hg : Js.includes title " - Google Chrome" = true).
  { unfold title. now apply includes_app_r. }
  split.
  - intros cfg v. subst v. unfold Single.classify.
    match goal with
    | |- context [Single.overrides _ _ ?v] => generalize v; intros v0
    end.
    unfold Single.overrides. cbn [String.eqb Ascii.eqb Bool.eqb]. cbv iota beta zeta.
    rewrite Hg, Hy, Hc. unfold Regex.group. cbn [nth Nat.sub].
    cbn. auto.
  - intros cfg app p Hf H1 H2 H3 H4 Hp v. subst v. unfold Multi.classify. rewrite Hf.
    unfold Multi.special. rewrite H1, H2, H3, toLowerCase_not_valorant, H4.
    cbn [orb]. cbv iota. unfold Multi.chromeCase. rewrite Hy, Hc.
    unfold Regex.group. cbn [nth Nat.sub].
    unfold Multi.gameOverride. apply String.eqb_neq in Hp. rewrite Hp.
    destruct (Regex.search chromeRe title); [|destruct (Regex.search simpleRe title)];
      cbn; auto.
Qed.

(** ** The small image text *)

(** X14.  The small image text of a poll that saw a window is the host
    name, " | Today: " and the duration of ten seconds per poll of this
    activity type, the current poll included: the counter is incremented
    before the payload is built. *)
Theorem today_text_counts_current_poll :
  (forall cfg e t w,
     activeWindow e = Some w ->
     let c := Vars.activityType
                (snd (Multi.classify cfg (orUnknown (ProcessName w))
                        (orUnknown (MainWindowTitle w)))) in
     ActivityData.smallImageText
       (Multi.activity (fst (Multi.getCurrentActivity cfg e t)))
     = Some (hostname e +:+ " | Today: "
             +:+ formatDuration ((dailyOf c t + 10) * 1000)))
  /\ (forall cfg e t w,
        activeWindow e = Some w ->
        let c := Vars.activityType
                   (Single.classify cfg (orUnknown (ProcessName w))
                      (orUnknown (MainWindowTitle w))) in
        ActivityData.smallImageText (fst (Single.getCurrentActivity cfg e t))
        = Some (hostname e +:+ " | Today: "
                +:+ formatDuration ((dailyOf c t + 10) * 1000))).
Proof.
  split.
  - intros cfg e t w Hw c. subst c. unfold Multi.getCurrentActivity. rewrite Hw.
    destruct (Multi.classify cfg (orUnknown (ProcessName w))
                (orUnknown (MainWindowTitle w))) as [k v].
    cbn [fst snd Multi.activity ActivityData.smallImageText]. unfold smallText.
    rewrite trackActivityTime_daily. reflexivity.
  - intros cfg e t w Hw c. subst c. unfold Single.getCurrentActivity. rewrite Hw.
    cbn [fst snd ActivityData.smallImageText]. unfold smallText.
    assert (E : forall x p n u, dailyOf x (Single.remember p x n u) = dailyOf x u)
      by reflexivity.
    rewrite E, trackActivityTime_daily. reflexivity.
Qed.

(** ** Counting timers *)

Section QueueCount.
Context {C : Type}.
Implicit Types (q : list (Timer C)) (t u : Timer C) (P : Timer C -> bool).

Lemma cancel_nodup h q :
  List.NoDup (map handle q) -> List.NoDup (map handle (cancel h q)).
Proof.
  unfold cancel. induction q as [|t q IH]; simpl; intros H; [constructor|].
  inversion H as [|x l Hx Hl]; subst.
  destruct (negb _); simpl; [|auto].
  constructor; [|auto]. intros Hi. apply Hx.
  apply in_map_iff in Hi. destruct Hi as [u [E Hu]].
  apply filter_In in Hu. apply in_map_iff. exists u. tauto.
Qed.

Lemma cancelOpt_nodup o q :
  List.NoDup (map handle q) -> List.NoDup (map handle (cancelOpt o q)).
Proof. destruct o; simpl; [apply cancel_nodup | auto]. Qed.

Lemma afterFire_handles t now q :
  repeat t = true -> map handle (afterFire t now q) = map handle q.
Proof.
  intros Hr. unfold afterFire. rewrite Hr, map_map. apply map_ext.
  intros u. destruct (Nat.eqb _ _); reflexivity.
Qed.

Lemma afterFire_nodup t now q :
  List.NoDup (map handle q) -> List.NoDup (map handle (afterFire t now q)).
Proof.
  intros H. destruct (repeat t) eqn:Hr.
  - now rewrite afterFire_handles.
  - unfold afterFire. rewrite Hr. now apply cancel_nodup.
Qed.

Lemma push_nodup q t :
  List.NoDup (map handle q) -> (forall u, In u q -> handle u <> handle t) ->
  List.NoDup (map handle (q ++ [t])).
Proof.
  intros H Hf. rewrite map_app. simpl.
  apply List.NoDup_app; [assumption | constructor; [intros [] | constructor] |].
  intros x Hx [<-|[]]. apply in_map_iff in Hx. destruct Hx as [u [E Hu]].
  exact (Hf u Hu E).
Qed.

(** Timers selected by their callback: cancelling and firing never add one. *)
Lemma filter_cancel_incl (K : C -> bool) h q t :
  In t (List.filter (fun u => K (callback u)) (cancel h q)) ->
  In t (List.filter (fun u => K (callback u)) q).
Proof.
  rewrite !filter_In, cancel_In. tauto.
Qed.

Lemma filter_cancel_length (K : C -> bool) h q :
  length (List.filter (fun u => K (callback u)) (cancel h q))
  <= length (List.filter (fun u => K (callback u)) q).
Proof.
  unfold cancel. induction q as [|t q IH]; simpl; [lia|].
  destruct (negb _); simpl; destruct (K (callback t)); simpl; lia.
Qed.

Lemma filter_cancelOpt_length (K : C -> bool) o q :
  length (List.filter (fun u => K (callback u)) (cancelOpt o q))
  <= length (List.filter (fun u => K (callback u)) q).
Proof. destruct o; simpl; [apply filter_cancel_length | lia]. Qed.

Lemma filter_afterFire_length (K : C -> bool) t now q :
  length (List.filter (fun u => K (callback u)) (afterFire t now q))
  <= length (List.filter (fun u => K (callback u)) q).
Proof.
  unfold afterFire. destruct (repeat t); [|apply filter_cancel_length].
  induction q as [|u q IH]; simpl; [lia|].
  destruct (Nat.eqb _ _); simpl; destruct (K (callback u)); simpl; lia.
Qed.

(** Cancelling the handle of a selected timer of the queue removes it. *)
Lemma filter_cancel_lt (K : C -> bool) t q :
  In t q -> K (callback t) = true ->
  length (List.filter (fun u => K (callback u)) (cancel (handle t) q))
  < length (List.filter (fun u => K (callback u)) q).
Proof.
  unfold cancel. induction q as [|u q IH]; simpl; [contradiction|].
  intros [->|Hin] Hk.
  - rewrite Nat.eqb_refl, Hk. simpl.
    pose proof (filter_cancel_length K (handle t) q) as L. unfold cancel in L. lia.
  - specialize (IH Hin Hk).
    destruct (negb _); simpl; destruct (K (callback u)); simpl; lia.
Qed.

(** Cancelling a handle that names no selected timer. *)
Lemma filter_cancel_other (K : C -> bool) h q :
  (forall u, In u q -> handle u = h -> K (callback u) = false) ->
  List.filter (fun u => K (callback u)) (cancel h q)
  = List.filter (fun u => K (callback u)) q.
Proof.
  unfold cancel. induction q as [|u q IH]; intros H; [reflexivity|].
  cbn [List.filter]. rewrite <- IH by (intros v Hv; apply H; now right).
  destruct (Nat.eqb (handle u) h) eqn:E; cbn [negb List.filter].
  - apply Nat.eqb_eq in E. now rewrite (H u (or_introl eq_refl) E).
  - reflexivity.
Qed.

Lemma filter_push_length (K : C -> bool) q t :
  length (List.filter (fun u => K (callback u)) (q ++ [t]))
  = length (List.filter (fun u => K (callback u)) q)
    + (if K (callback t) then 1 else 0).
Proof.
  rewrite List.filter_app, List.length_app. simpl. destruct (K (callback t)); reflexivity.
Qed.

(** With distinct handles, timers that all carry one handle are one at most. *)
Lemma one_handle_one_timer P h q :
  List.NoDup (map handle q) ->
  (forall t, In t q -> P t = true -> handle t = h) ->
  length (List.filter P q) <= 1.
Proof.
  induction q as [|t q IH]; simpl; intros Hn Hh; [lia|].
  inversion Hn as [|x l Hx Hl]; subst.
  destruct (P t) eqn:Hp; simpl.
  - assert (E : List.filter P q = []).
    { destruct (List.filter P q) as [|u r] eqn:Ef; [reflexivity|]. exfalso.
      assert (Hu : In u (List.filter P q)) by (rewrite Ef; now left).
      apply filter_In in Hu. destruct Hu as [Hu Hpu].
      apply Hx. apply in_map_iff. exists u. split; [|assumption].
      rewrite (Hh u (or_intror Hu) Hpu). symmetry. apply Hh; auto. }
    rewrite E. simpl. lia.
  - apply IH; auto.
Qed.
Lemma afterFire_from t now q u :
  In u (afterFire t now q) ->
  exists v, In v q /\ handle v = handle u /\ callback v = callback u
            /\ repeat v = repeat u.
Proof.
  unfold afterFire. destruct (repeat t).
  - intros Hu. apply in_map_iff in Hu. destruct Hu as [v [E Hv]].
    exists v. split; [assumption|].
    destruct (Nat.eqb _ _); subst u; simpl; auto.
  - intros Hu. apply cancel_In in Hu. exists u. tauto.
Qed.
End QueueCount.

(** ** The multi-application variant: queues, reconnects and client ids *)

Module MultiEvents.
Import Multi MultiFacts.

Lemma pendingReconnects_filter a :
  pendingReconnects a = List.filter (fun t => isReconnect (callback t)) (timers a).
Proof. reflexivity. Qed.

Lemma length_zero_nil {A} (l : list A) : length l <= 0 -> l = [].
Proof. destruct l; simpl; [reflexivity | lia]. Qed.

Lemma Queue_newApp cfg t0 : Queue (newApp cfg t0).
Proof.
  constructor; simpl; try (intros; contradiction); auto. constructor.
Qed.

(** The queue loses timers or re-arms them; the flag is not lowered. *)
Lemma Queue_shrink a a' :
  Queue a ->
  nextHandle a' = nextHandle a ->
  List.NoDup (map handle (timers a')) ->
  (forall t, In t (timers a') ->
     exists u, In u (timers a) /\ handle u = handle t
               /\ callback u = callback t /\ repeat u = repeat t) ->
  length (pendingReconnects a') <= length (pendingReconnects a) ->
  (isReconnecting a' = false -> isReconnecting a = false) ->
  Queue a'.
Proof.
  intros [] Hn Hd Hsub Hlen Hr. constructor; auto.
  - intros t Ht. destruct (Hsub t Ht) as [u [Hu [E _]]]. rewrite Hn, <- E. auto.
  - intros t Ht. destruct (Hsub t Ht) as [u [Hu [_ [E1 E2]]]].
    rewrite <- E2, <- E1. auto.
  - intros Hf. apply length_zero_nil. rewrite (queue_idle0 (Hr Hf)) in Hlen.
    exact Hlen.
  - lia.
Qed.

Lemma Queue_same a a' :
  Queue a -> timers a' = timers a -> nextHandle a' = nextHandle a ->
  (isReconnecting a' = false -> isReconnecting a = false) ->
  Queue a'.
Proof.
  intros H Ht Hn Hr. apply (Queue_shrink a); auto.
  - rewrite Ht. apply (queue_nodup a H).
  - rewrite Ht. intros t Hi. exists t. auto.
  - unfold pendingReconnects. rewrite Ht. lia.
Qed.

Lemma Queue_cancelOpt o a :
  Queue a -> Queue (setTimers (cancelOpt o (timers a)) a).
Proof.
  intros H. apply (Queue_shrink a); simpl; auto.
  - apply cancelOpt_nodup, (queue_nodup a H).
  - intros t Ht. apply cancelOpt_In in Ht. exists t. tauto.
  - apply (filter_cancelOpt_length isReconnect).
Qed.


Lemma Queue_afterFire t now a :
  Queue a -> Queue (setTimers (afterFire t now (timers a)) a).
Proof.
  intros H. apply (Queue_shrink a); simpl; auto.
  - apply afterFire_nodup, (queue_nodup a H).
  - intros u. apply afterFire_from.
  - apply (filter_afterFire_length isReconnect).
Qed.

(** A new timer under the next handle. *)
Lemma Queue_push a a' t :
  Queue a ->
  timers a' = timers a ++ [t] ->
  handle t = nextHandle a ->
  nextHandle a' = S (nextHandle a) ->
  repeat t = match callback t with PollTick => true | _ => false end ->
  (callback t = ReconnectFire -> isReconnecting a = false) ->
  (isReconnecting a' = false ->
   isReconnecting a = false /\ callback t <> ReconnectFire) ->
  Queue a'.
Proof.
  intros [] Ht Hh Hn Hrep Hrec Hflag.
  assert (L : length (pendingReconnects a')
              = length (pendingReconnects a)
                + (if isReconnect (callback t) then 1 else 0)).
  { unfold pendingReconnects. rewrite Ht.
    apply (filter_push_length isReconnect). }
  constructor.
  - intros u Hu. rewrite Ht in Hu. apply in_app_or in Hu. rewrite Hn.
    destruct Hu as [Hu|[<-|[]]]; [specialize (queue_fresh0 u Hu)|]; lia.
  - rewrite Ht. apply push_nodup; [assumption|].
    intros u Hu. specialize (queue_fresh0 u Hu). lia.
  - intros u Hu. rewrite Ht in Hu. apply in_app_or in Hu.
    destruct Hu as [Hu|[<-|[]]]; auto.
  - intros Hf. destruct (Hflag Hf) as [Hf' Hne].
    apply length_zero_nil. rewrite L, (queue_idle0 Hf'). simpl.
    destruct (callback t); simpl; try lia. congruence.
  - rewrite L. destruct (callback t) eqn:Hc; simpl; try lia.
    rewrite (queue_idle0 (Hrec eq_refl)). simpl. lia.
Qed.

Lemma Queue_reconnect now a : Queue a -> Queue (reconnect now a).
Proof.
  intros H. unfold reconnect. destruct (isReconnecting a) eqn:Hr; [assumption|].
  eapply (Queue_push a); [eassumption | reflexivity ..| |]; simpl.
  - auto.
  - discriminate.
Qed.

Lemma Queue_call c a : Queue a -> Queue (call c a).
Proof. intros H. apply (Queue_same a); auto. Qed.

Lemma Queue_start cfg now ok a : Queue a -> Queue (start cfg now ok a).
Proof.
  intros H. unfold start. destruct ok.
  - apply (Queue_same a); auto.
  - apply Queue_reconnect, Queue_call, H.
Qed.

Lemma Queue_startActivityTracking cfg now a :
  Queue a -> Queue (startActivityTracking cfg now a).
Proof.
  intros H. unfold startActivityTracking.
  eapply (Queue_push _ _ _ (Queue_cancelOpt (updateIntervalId a) a H));
    [reflexivity ..| |]; simpl; [discriminate|].
  intros Hf. split; [assumption | discriminate].
Qed.

Lemma Queue_onReady cfg now a : Queue a -> Queue (onReady cfg now a).
Proof.
  intros H. apply Queue_startActivityTracking. apply (Queue_same a); auto.
Qed.

Lemma Queue_onError now a : Queue a -> Queue (onError now a).
Proof.
  intros H. unfold onError.
  assert (H1 : Queue (setClientConnected false a)) by (apply (Queue_same a); auto).
  destruct (negb _); [apply Queue_reconnect|]; exact H1.
Qed.

Lemma Queue_switchClient id now a : Queue a -> Queue (snd (switchClient id now a)).
Proof.
  intros H. unfold switchClient.
  destruct (_ && _); [exact H|].
  destruct (_ <? _)%Z; [exact H|]. simpl.
  eapply (Queue_push _ _ _ (Queue_cancelOpt (switchTimeout a) a H));
    [reflexivity ..| |]; simpl; [discriminate|].
  intros Hf. split; [assumption | discriminate].
Qed.

Lemma Queue_switchNow id o a : Queue a -> Queue (switchNow id o a).
Proof.
  intros H. apply (Queue_same a); auto.
  - apply switchNow_timers.
  - unfold switchNow. destruct (clientConnected a), (loginOk o); reflexivity.
  - unfold switchNow. destruct (clientConnected a), (loginOk o); auto.
Qed.

Lemma Queue_pollTick cfg e a : Queue a -> Queue (pollTick cfg e a).
Proof.
  intros H. unfold pollTick.
  destruct (getCurrentActivity cfg e (activityTracker a)) as [d t].
  assert (H1 : Queue (setActivityTracker t a)) by (apply (Queue_same a); auto).
  set (a1 := setActivityTracker t a) in *.
  assert (H2 : Queue (if negb (String.eqb (clientIdFor cfg (appType d))
                                 (currentClientId a1))
                      then snd (switchClient (clientIdFor cfg (appType d)) (now e) a1)
                      else a1)).
  { destruct (negb _); [apply Queue_switchClient|]; exact H1. }
  destruct (clientConnected _); [apply Queue_call|]; exact H2.
Qed.

Lemma Queue_stop a : Queue a -> Queue (stop a).
Proof.
  intros H. unfold stop. apply Queue_call.
  pose proof (Queue_cancelOpt (updateIntervalId a) a H) as H1.
  set (a1 := setTimers (cancelOpt (updateIntervalId a) (timers a)) a) in *.
  assert (H2 : Queue (setUpdateIntervalId None a1)) by (apply (Queue_same a1); auto).
  set (a2 := setUpdateIntervalId None a1) in *.
  pose proof (Queue_cancelOpt (switchTimeout a2) a2 H2) as H3.
  apply (Queue_same _ _ H3); auto.
Qed.

Lemma Queue_fire cfg h now o a : Queue a -> Queue (fire cfg h now o a).
Proof.
  intros H. unfold fire.
  destruct (findTimer h (timers a)) as [t|] eqn:Hf; [|exact H].
  destruct (isDue t now); [|exact H].
  apply findTimer_Some in Hf. destruct Hf as [Hin Hh].
  pose proof (Queue_afterFire t now a H) as H1.
  destruct (callback t) eqn:Hc.
  - apply Queue_pollTick, H1.
  - apply Queue_switchNow, H1.
  - apply Queue_start.
    assert (Hrep : repeat t = false)
      by (rewrite (queue_repeat a H t Hin), Hc; reflexivity).
    assert (L : length (List.filter (fun u => isReconnect (callback u))
                          (afterFire t now (timers a))) = 0).
    { unfold afterFire. rewrite Hrep.
      pose proof (filter_cancel_lt isReconnect t (timers a) Hin) as L.
      rewrite Hc in L. specialize (L eq_refl).
      pose proof (queue_one_reconnect a H) as L1.
      rewrite pendingReconnects_filter in L1. lia. }
    destruct H1 as [F N O _ _]. constructor; simpl in *; auto.
    + intros _. apply length_zero_nil. unfold pendingReconnects. simpl.
      fold (isReconnect). change (fun t0 : Timer Callback => match callback t0 with
        | ReconnectFire => true | _ => false end)
        with (fun u : Timer Callback => isReconnect (callback u)). lia.
    + unfold pendingReconnects. simpl.
      change (fun t0 : Timer Callback => match callback t0 with
        | ReconnectFire => true | _ => false end)
        with (fun u : Timer Callback => isReconnect (callback u)). lia.
Qed.

Lemma Queue_step cfg a ev : Queue a -> Queue (step cfg a ev).
Proof.
  intros H. destruct ev; simpl.
  - now apply Queue_start.
  - now apply Queue_onReady.
  - now apply Queue_onError.
  - now apply Queue_onError.
  - now apply Queue_fire.
  - now apply Queue_stop.
Qed.

Lemma Queue_run cfg evs : forall a, Queue a -> Queue (run cfg a evs).
Proof.
  unfold run. induction evs as [|ev evs IH]; intros a H; simpl.
  - exact H.
  - apply IH, Queue_step, H.
Qed.

Lemma reachable_Queue cfg a : reachable cfg a -> Queue a.
Proof. intros [t0 [evs ->]]. apply Queue_run, Queue_newApp. Qed.

Lemma switchesOf_length (q : list (Timer Callback)) :
  length (switchesOf q)
  = length (List.filter (fun t => match callback t with
                                  | SwitchFire _ => true | _ => false end) q).
Proof.
  unfold switchesOf. induction q as [|t q IH]; simpl; [reflexivity|].
  destruct (callback t); simpl; auto.
Qed.

Lemma queue_by_kind (q : list (Timer Callback)) :
  length q
  = length (List.filter (fun t => match callback t with
                                  | PollTick => true | _ => false end) q)
    + length (switchesOf q)
    + length (List.filter (fun t => isReconnect (callback t)) q).
Proof.
  unfold switchesOf. induction q as [|t q IH]; simpl; [reflexivity|].
  destruct (callback t); simpl; lia.
Qed.

(** X15.  In every reachable state of the multi-application variant the
    event loop holds at most one poll interval, at most one debounce timer
    and at most one reconnect timer, so at most three timers, and a reconnect
    timer waits exactly when [isReconnecting] is set. *)
Theorem multi_queue_bounded cfg (a : App) :
  reachable cfg a ->
  length (pendingPolls a) <= 1
  /\ length (pendingSwitches a) <= 1
  /\ length (pendingReconnects a) <= 1
  /\ length (timers a) <= 3
  /\ (isReconnecting a = true <-> pendingReconnects a <> []).
Proof.
  intros Hr. pose proof (reachable_Inv cfg a Hr) as HI.
  pose proof (reachable_Queue cfg a Hr) as HQ.
  assert (P : length (pendingPolls a) <= 1).
  { unfold pendingPolls. destruct (updateIntervalId a) as [h|] eqn:E.
    - apply (one_handle_one_timer _ h); [apply (queue_nodup a HQ)|].
      intros t Ht Hp. destruct (callback t) eqn:Hc; try discriminate.
      pose proof (inv_poll_timer a HI t Ht Hc). congruence.
    - destruct (List.filter _ (timers a)) as [|t r] eqn:Ef; [simpl; lia|].
      assert (Ht : In t (List.filter (fun t => match callback t with
                                  | PollTick => true | _ => false end) (timers a)))
        by (rewrite Ef; now left).
      apply filter_In in Ht. destruct Ht as [Ht Hp].
      destruct (callback t) eqn:Hc; try discriminate.
      pose proof (inv_poll_timer a HI t Ht Hc). congruence. }
  assert (S : length (pendingSwitches a) <= 1).
  { unfold pendingSwitches. rewrite switchesOf_length.
    destruct (switchTimeout a) as [h|] eqn:E.
    - apply (one_handle_one_timer _ h); [apply (queue_nodup a HQ)|].
      intros t Ht Hp. destruct (callback t) eqn:Hc; try discriminate.
      pose proof (inv_switch_timer a HI t _ Ht Hc). congruence.
    - destruct (List.filter _ (timers a)) as [|t r] eqn:Ef; [simpl; lia|].
      assert (Ht : In t (List.filter (fun t => match callback t with
                                  | SwitchFire _ => true | _ => false end) (timers a)))
        by (rewrite Ef; now left).
      apply filter_In in Ht. destruct Ht as [Ht Hp].
      destruct (callback t) eqn:Hc; try discriminate.
      pose proof (inv_switch_timer a HI t _ Ht Hc). congruence. }
  pose proof (queue_one_reconnect a HQ) as R.
  split; [exact P|]. split; [exact S|]. split; [exact R|]. split.
  - rewrite (queue_by_kind (timers a)). unfold pendingPolls in P.
    unfold pendingSwitches in S. rewrite pendingReconnects_filter in R. lia.
  - split.
    + intros Ht E. destruct (inv_reconnecting a HI Ht) as [t [Hi Hc]].
      assert (In t (pendingReconnects a)).
      { unfold pendingReconnects. apply filter_In. split; [assumption|].
        now rewrite Hc. }
      rewrite E in H. contradiction.
    + intros Hne. destruct (isReconnecting a) eqn:E; [reflexivity|].
      exfalso. apply Hne. apply (queue_idle a HQ E).
Qed.

Lemma findTimer_nodup (q : list (Timer Callback)) t :
  List.NoDup (map handle q) -> In t q -> findTimer (handle t) q = Some t.
Proof.
  unfold findTimer. induction q as [|u q IH]; intros Hn Hin; [contradiction|].
  cbn [map] in Hn. inversion Hn as [|x l Hx Hl]; subst. cbn [find].
  destruct Hin as [->|Hin]; [now rewrite Nat.eqb_refl|].
  destruct (Nat.eqb (handle u) (handle t)) eqn:E; [|auto].
  apply Nat.eqb_eq in E. exfalso. apply Hx. rewrite E. now apply in_map.
Qed.

Lemma pendingReconnects_In a t :
  In t (pendingReconnects a) <-> In t (timers a) /\ callback t = ReconnectFire.
Proof.
  unfold pendingReconnects. rewrite filter_In. split; intros [H1 H2]; split; auto.
  - destruct (callback t); try discriminate; reflexivity.
  - now rewrite H2.
Qed.

(** The reconnect timer fires. *)
Lemma fire_pending_reconnect cfg a t now o :
  Queue a -> In t (pendingReconnects a) -> isDue t now = true ->
  fire cfg (handle t) now o a
  = start cfg now (loginOk o)
      (setIsReconnecting false (setTimers (cancel (handle t) (timers a)) a))
  /\ pendingReconnects (setTimers (cancel (handle t) (timers a)) a) = [].
Proof.
  intros HQ Ht Hd. apply pendingReconnects_In in Ht. destruct Ht as [Ht Hc].
  split.
  - unfold fire. rewrite (findTimer_nodup _ t (queue_nodup a HQ) Ht), Hd, Hc.
    unfold afterFire. rewrite (queue_repeat a HQ t Ht), Hc. reflexivity.
  - apply length_zero_nil. rewrite pendingReconnects_filter. cbn [timers setTimers].
    pose proof (filter_cancel_lt isReconnect t (timers a) Ht) as L.
    rewrite Hc in L. specialize (L eq_refl).
    pose proof (queue_one_reconnect a HQ) as L1.
    rewrite pendingReconnects_filter in L1. lia.
Qed.

(** X17.  When the reconnect timer of a reachable state fires it calls
    [login] once, with the default client id.  If the login succeeds the
    current client id is the default one, whichever client was in use before,
    no reconnect timer is left, and neither the attempt counter nor
    [clientConnected] changes (only 'ready' does that).  If it fails the
    counter grows by one and one reconnect timer waits, with the backoff of
    the new count. *)
Theorem reconnect_restores_default_client cfg (a : App) t (now : Z) (o : Oracle) :
  reachable cfg a -> In t (pendingReconnects a) -> isDue t now = true ->
  let a' := fire cfg (handle t) now o a in
  calls a' = calls a ++ [Login (defaultClientId cfg)]
  /\ (loginOk o = true ->
      currentClientId a' = defaultClientId cfg
      /\ isReconnecting a' = false /\ pendingReconnects a' = []
      /\ reconnectAttempts a' = reconnectAttempts a
      /\ clientConnected a' = clientConnected a)
  /\ (loginOk o = false ->
      currentClientId a' = currentClientId a
      /\ isReconnecting a' = true
      /\ reconnectAttempts a' = S (reconnectAttempts a)
      /\ map delay (pendingReconnects a') = [backoffTime (S (reconnectAttempts a))]).
Proof.
  intros Hr Ht Hd a'. pose proof (reachable_Queue cfg a Hr) as HQ.
  destruct (fire_pending_reconnect cfg a t now o HQ Ht Hd) as [E P].
  subst a'. rewrite E. split; [now rewrite start_calls|]. split; intros Ho; rewrite Ho.
  - unfold start. cbn. repeat split. exact P.
  - unfold start.
    set (a1 := call (Login (defaultClientId cfg))
                 (setIsReconnecting false
                    (setTimers (cancel (handle t) (timers a)) a))).
    destruct (reconnect_schedules now a1 eq_refl) as [T [N R]].
    split; [reflexivity|]. split; [exact R|]. split; [exact N|].
    unfold pendingReconnects. rewrite T, List.filter_app, map_app.
    unfold pendingReconnects in P. cbn [timers setTimers] in P.
    change (timers a1) with (cancel (handle t) (timers a)). rewrite P. reflexivity.
Qed.

(** X16.  The 'ready' handler resets the attempt counter, so the backoff
    starts over: when no reconnect is under way, the first failure after a
    'ready' event (an error, a disconnect or a failed [start()]) counts as
    attempt 1 and its reconnect timer, the only one waiting, is set at that
    instant with a delay of 15000 ms. *)
Theorem ready_resets_backoff cfg (a : App) (now now' : Z) (ev : Event) :
  reachable cfg a -> isReconnecting a = false ->
  In ev [Error now'; Disconnected now'; Start now' false] ->
  let a' := step cfg (onReady cfg now a) ev in
  reconnectAttempts a' = 1
  /\ map (fun t => (setAt t, delay t)) (pendingReconnects a') = [(now', backoffTime 1)]
  /\ (backoffTime 1 == 15000)%Q.
Proof.
  intros Hr Hf Hev a'. pose proof (reachable_Queue cfg a Hr) as HQ.
  pose proof (Queue_onReady cfg now a HQ) as HQ1.
  set (a1 := onReady cfg now a) in *.
  assert (P : pendingReconnects a1 = []) by (apply (queue_idle _ HQ1); exact Hf).
  assert (G : forall a2, timers a2 = timers a1 -> isReconnecting a2 = false ->
                reconnectAttempts a2 = 0 ->
                reconnectAttempts (reconnect now' a2) = 1
                /\ map (fun t => (setAt t, delay t))
                     (pendingReconnects (reconnect now' a2))
                   = [(now', backoffTime 1)]).
  { intros a2 T2 F2 A2. destruct (reconnect_schedules now' a2 F2) as [T [N _]].
    rewrite N, A2. split; [reflexivity|].
    unfold pendingReconnects. rewrite T, List.filter_app, map_app, T2.
    unfold pendingReconnects in P. rewrite P, A2. reflexivity. }
  assert (S : exists a2, a' = reconnect now' a2 /\ timers a2 = timers a1
                         /\ isReconnecting a2 = false /\ reconnectAttempts a2 = 0).
  { destruct Hev as [<-|[<-|[<-|[]]]]; unfold a'; cbn [step].
    - exists (setClientConnected false a1). unfold onError.
      change (isReconnecting (setClientConnected false a1)) with (isReconnecting a).
      rewrite Hf. auto.
    - exists (setClientConnected false a1). unfold onDisconnected.
      change (isReconnecting (setClientConnected false a1)) with (isReconnecting a).
      rewrite Hf. auto.
    - exists (call (Login (defaultClientId cfg)) a1). unfold start. auto. }
  destruct S as [a2 [-> [T2 [F2 A2]]]].
  destruct (G a2 T2 F2 A2) as [G1 G2].
  split; [exact G1|]. split; [exact G2|]. vm_compute. reflexivity.
Qed.

(** X18.  The debounce timer of a reachable state fires and the login with
    the new client id fails.  The old client has been destroyed and a new one
    created; afterwards [clientConnected] is false, the current client id and
    the time of the last switch are as before, no debounce timer waits and no
    reconnect has been scheduled: the reconnect timers and [isReconnecting]
    are unchanged. *)
Theorem failed_switch_leaves_disconnected cfg (a : App) t (id : string)
    (now : Z) (o : Oracle) :
  reachable cfg a ->
  In t (timers a) -> callback t = SwitchFire id -> isDue t now = true ->
  loginOk o = false ->
  let a' := fire cfg (handle t) now o a in
  clientConnected a' = false
  /\ currentClientId a' = currentClientId a
  /\ lastSwitchTime a' = lastSwitchTime a
  /\ calls a' = calls a ++ (if clientConnected a then [Destroy] else [])
                        ++ [NewClient; Login id]
  /\ pendingSwitches a' = []
  /\ pendingReconnects a' = pendingReconnects a
  /\ isReconnecting a' = isReconnecting a.
Proof.
  intros Hr Ht Hc Hd Ho a'. pose proof (reachable_Queue cfg a Hr) as HQ.
  pose proof (reachable_Inv cfg a Hr) as HI.
  assert (E : a' = switchNow id o (setTimers (cancel (handle t) (timers a)) a)).
  { unfold a', fire. rewrite (findTimer_nodup _ t (queue_nodup a HQ) Ht), Hd, Hc.
    unfold afterFire. rewrite (queue_repeat a HQ t Ht), Hc. reflexivity. }
  rewrite E. clear E a'.
  set (a1 := setTimers (cancel (handle t) (timers a)) a).
  destruct (switchNow_failed id o a1 Ho) as [E1 E2].
  split; [unfold switchNow; rewrite Ho; destruct (clientConnected a1) eqn:C;
          [reflexivity | exact C]|].
  split; [exact E1|]. split; [exact E2|]. split; [now rewrite switchNow_calls|].
  split; [|split].
  - apply pendingSwitches_none. rewrite switchNow_timers. cbn [timers a1 setTimers].
    intros u id' Hu Hcu. apply cancel_In in Hu. destruct Hu as [Hu Hne].
    apply Hne.
    pose proof (inv_switch_timer a HI u id' Hu Hcu) as S1.
    pose proof (inv_switch_timer a HI t id Ht Hc) as S2. congruence.
  - unfold pendingReconnects. rewrite switchNow_timers. cbn [timers a1 setTimers].
    apply (filter_cancel_other isReconnect). intros u Hu Hh.
    rewrite (inv_same_handle a HI u t Hu Ht Hh), Hc. reflexivity.
  - unfold switchNow. rewrite Ho. destruct (clientConnected a1); reflexivity.
Qed.

Lemma switchClient_fields id now a :
  let a' := snd (switchClient id now a) in
  calls a' = calls a /\ clientConnected a' = clientConnected a
  /\ currentClientId a' = currentClientId a
  /\ activityTracker a' = activityTracker a
  /\ reconnectAttempts a' = reconnectAttempts a
  /\ isReconnecting a' = isReconnecting a
  /\ lastSwitchTime a' = lastSwitchTime a.
Proof.
  unfold switchClient. destruct (_ && _); [cbn; tauto|].
  destruct (_ <? _)%Z; cbn; tauto.
Qed.

(** What a poll does to the log and to the variables the handlers share. *)
Lemma pollTick_fields cfg e (a : App) :
  let d := fst (getCurrentActivity cfg e (activityTracker a)) in
  let a' := pollTick cfg e a in
  calls a' = calls a ++ (if clientConnected a
                         then [SetActivity (activity d)] else [])
  /\ activityTracker a' = snd (getCurrentActivity cfg e (activityTracker a))
  /\ clientConnected a' = clientConnected a
  /\ currentClientId a' = currentClientId a
  /\ lastSwitchTime a' = lastSwitchTime a.
Proof.
  intros d a'. subst d a'. unfold pollTick.
  destruct (getCurrentActivity cfg e (activityTracker a)) as [d t].
  cbn [fst snd]. set (a1 := setActivityTracker t a).
  set (a2 := if negb (String.eqb (clientIdFor cfg (appType d)) (currentClientId a1))
             then snd (switchClient (clientIdFor cfg (appType d)) (now e) a1)
             else a1).
  assert (F : calls a2 = calls a /\ clientConnected a2 = clientConnected a
              /\ currentClientId a2 = currentClientId a
              /\ activityTracker a2 = t
              /\ lastSwitchTime a2 = lastSwitchTime a).
  { unfold a2. destruct (negb _); [|cbn; tauto].
    destruct (switchClient_fields (clientIdFor cfg (appType d)) (now e) a1)
      as [F1 [F2 [F3 [F4 [_ [_ F7]]]]]].
    rewrite F1, F2, F3, F4, F7. cbn. tauto. }
  destruct F as [F1 [F2 [F3 [F4 F5]]]]. rewrite F2.
  destruct (clientConnected a); cbn; rewrite ?F1, ?F2, ?F3, ?F4, ?F5;
    rewrite ?app_nil_r; tauto.
Qed.

(** X19.  One run of the poll callback.  In the multi-application variant
    it calls [setActivity] exactly when [clientConnected] is set and calls
    nothing else on the client; the tracker advances either way, and the
    connection flag, the current client id and the time of the last switch
    stay.  In the single-application variant it always calls [setActivity]
    and leaves the timers alone. *)
Theorem poll_sends_activity_only_when_connected :
  (forall cfg e (a : App),
     let d := fst (getCurrentActivity cfg e (activityTracker a)) in
     let a' := pollTick cfg e a in
     calls a' = calls a ++ (if clientConnected a
                            then [SetActivity (activity d)] else [])
     /\ activityTracker a' = snd (getCurrentActivity cfg e (activityTracker a))
     /\ clientConnected a' = clientConnected a
     /\ currentClientId a' = currentClientId a
     /\ lastSwitchTime a' = lastSwitchTime a)
  /\ (forall cfg e (a : Single.App),
        let a' := Single.pollTick cfg e a in
        Single.calls a'
        = Single.calls a
          ++ [SetActivity (fst (Single.getCurrentActivity cfg e
                                  (Single.activityTracker a)))]
        /\ Single.activityTracker a'
           = snd (Single.getCurrentActivity cfg e (Single.activityTracker a))
        /\ Single.timers a' = Single.timers a).
Proof.
  split.
  - exact pollTick_fields.
  - intros cfg e a a'. subst a'. unfold Single.pollTick.
    destruct (Single.getCurrentActivity cfg e (Single.activityTracker a)).
    cbn. tauto.
Qed.

(** X20.  Multi-application variant, a poll during which the window
    detection throws.  The tracker is not touched, the payload sent (when
    connected) is the fallback one, and the poll reports the category
    "default": when [config.applications] has no such entry and the current
    client is not the default one, outside the 15 s window the poll sets the
    debounce timer for a switch to the default client. *)
Theorem failed_detection_requests_default_client cfg e (a : App) :
  reachable cfg a ->
  activeWindow e = None ->
  assoc "default" (applications cfg) = None ->
  let a' := pollTick cfg e a in
  activityTracker a' = activityTracker a
  /\ calls a' = calls a
                ++ (if clientConnected a
                    then [SetActivity (fallbackActivity e (activityTracker a))]
                    else [])
  /\ (currentClientId a <> defaultClientId cfg ->
      (15000 <= now e - lastSwitchTime a)%Z ->
      pendingSwitches a'
      = [(nextHandle a, defaultClientId cfg, (inject_Z (now e) + 3000)%Q)]).
Proof.
  intros Hr Hw Hd a'. pose proof (reachable_Inv cfg a Hr) as HI.
  destruct (pollTick_fields cfg e a) as [C [T _]].
  fold a' in C, T.
  assert (G : getCurrentActivity cfg e (activityTracker a)
              = ({| activity := fallbackActivity e (activityTracker a);
                    appType := "default"; processName := "explorer" |},
                 activityTracker a)).
  { unfold getCurrentActivity. now rewrite Hw. }
  rewrite G in C, T. cbn [fst snd activity] in C, T.
  split; [exact T|]. split; [exact C|].
  intros Hne Hrate. unfold a', pollTick. rewrite G.
  cbn [appType]. unfold clientIdFor. rewrite Hd.
  set (a1 := setActivityTracker (activityTracker a) a).
  assert (N : negb (String.eqb (defaultClientId cfg) (currentClientId a1)) = true).
  { apply negb_true_iff, String.eqb_neq. cbn. congruence. }
  rewrite N.
  assert (HI1 : Inv a1) by (apply Inv_setActivityTracker, HI).
  assert (Hg : String.eqb (defaultClientId cfg) (currentClientId a1)
               && clientConnected a1 = false).
  { apply negb_true_iff in N. now rewrite N. }
  destruct (switchClient_proceeds (defaultClientId cfg) (now e) a1 HI1 Hg Hrate)
    as [_ [_ [P _]]].
  destruct (switchClient_fields (defaultClientId cfg) (now e) a1) as [_ [F2 _]].
  rewrite F2. destruct (clientConnected a1); exact P.
Qed.

Lemma clientIdFor_configured cfg appType : configured cfg (clientIdFor cfg appType).
Proof.
  unfold clientIdFor, configured.
  destruct (assoc appType (applications cfg)) as [app|] eqn:E; [|now left].
  right. exists appType, app. split; [|reflexivity].
  induction (applications cfg) as [|[k v] l IH]; [discriminate|].
  cbn [assoc] in E. destruct (String.eqb_spec appType k) as [->|_].
  - inversion E. now left.
  - right. auto.
Qed.

Lemma Ids_newApp cfg t0 : Ids cfg (newApp cfg t0).
Proof. constructor; simpl; try (intros; contradiction). now left. Qed.

(** The queue keeps callbacks it had; the log grows by calls that are not
    logins, or by a login with a configured id. *)
Lemma Ids_frame cfg a a' :
  Ids cfg a ->
  configured cfg (currentClientId a') ->
  (forall t id, In t (timers a') -> callback t = SwitchFire id ->
     configured cfg id
     \/ exists u, In u (timers a) /\ callback u = SwitchFire id) ->
  (forall id, In (Login id) (calls a') ->
     configured cfg id \/ In (Login id) (calls a)) ->
  Ids cfg a'.
Proof.
  intros [] Hc Ht Hl. constructor; [assumption| |].
  - intros t id Hi Hcb. destruct (Ht t id Hi Hcb) as [H|[u [Hu Hcu]]]; eauto.
  - intros id Hi. destruct (Hl id Hi) as [H|H]; eauto.
Qed.

Lemma Ids_call cfg c a :
  Ids cfg a -> (forall id, c = Login id -> configured cfg id) ->
  Ids cfg (call c a).
Proof.
  intros H Hc. apply (Ids_frame _ _ _ H); cbn.
  - apply (ids_current _ _ H).
  - intros t id Hi Hcb. right. eauto.
  - intros id Hi. apply in_app_or in Hi. destruct Hi as [Hi|[->|[]]]; auto.
Qed.

Lemma Ids_reconnect cfg now a : Ids cfg a -> Ids cfg (reconnect now a).
Proof.
  intros H. unfold reconnect. destruct (isReconnecting a); [assumption|].
  apply (Ids_frame _ _ _ H); cbn.
  - apply (ids_current _ _ H).
  - intros t id Hi Hcb. apply in_app_or in Hi.
    destruct Hi as [Hi|[<-|[]]]; [right; eauto | discriminate].
  - auto.
Qed.

Lemma Ids_start cfg now ok a : Ids cfg a -> Ids cfg (start cfg now ok a).
Proof.
  intros H. unfold start.
  assert (H1 : Ids cfg (call (Login (defaultClientId cfg)) a)).
  { apply Ids_call; [assumption|]. intros id E. inversion E. now left. }
  destruct ok; [|now apply Ids_reconnect].
  apply (Ids_frame _ _ _ H1); cbn; [now left | right; eauto | auto].
Qed.

Lemma Ids_cancelOpt cfg o a :
  Ids cfg a -> Ids cfg (setTimers (cancelOpt o (timers a)) a).
Proof.
  intros H. apply (Ids_frame _ _ _ H); cbn.
  - apply (ids_current _ _ H).
  - intros t id Hi Hcb. apply cancelOpt_In in Hi. right. exists t. tauto.
  - auto.
Qed.

Lemma Ids_onReady cfg now a : Ids cfg a -> Ids cfg (onReady cfg now a).
Proof.
  intros H. unfold onReady, startActivityTracking.
  apply (Ids_frame _ _ _ H); cbn.
  - apply (ids_current _ _ H).
  - intros t id Hi Hcb. apply in_app_or in Hi.
    destruct Hi as [Hi|[<-|[]]]; [|discriminate].
    apply cancelOpt_In in Hi. right. exists t. tauto.
  - auto.
Qed.

Lemma Ids_onError cfg now a : Ids cfg a -> Ids cfg (onError now a).
Proof.
  intros H. unfold onError.
  assert (H1 : Ids cfg (setClientConnected false a)).
  { apply (Ids_frame _ _ _ H); cbn; [apply (ids_current _ _ H) | right; eauto | auto]. }
  destruct (negb _); [apply Ids_reconnect|]; exact H1.
Qed.

Lemma Ids_switchClient cfg id now a :
  Ids cfg a -> configured cfg id -> Ids cfg (snd (switchClient id now a)).
Proof.
  intros H Hid. unfold switchClient.
  destruct (_ && _); [exact H|]. destruct (_ <? _)%Z; [exact H|]. cbn [snd].
  apply (Ids_frame _ _ _ H); cbn.
  - apply (ids_current _ _ H).
  - intros t id' Hi Hcb. apply in_app_or in Hi.
    destruct Hi as [Hi|[<-|[]]].
    + apply cancelOpt_In in Hi. right. exists t. tauto.
    + cbn in Hcb. inversion Hcb. subst. now left.
  - auto.
Qed.

Lemma Ids_switchNow cfg id o a :
  Ids cfg a -> configured cfg id -> Ids cfg (switchNow id o a).
Proof.
  intros H Hid. apply (Ids_frame _ _ _ H).
  - unfold switchNow. destruct (clientConnected a), (loginOk o); cbn;
      auto; apply (ids_current _ _ H).
  - rewrite switchNow_timers. intros t id' Hi Hcb. right. eauto.
  - rewrite switchNow_calls. intros id' Hi.
    apply in_app_or in Hi. destruct Hi as [Hi|Hi]; [now right|].
    apply in_app_or in Hi. destruct Hi as [Hi|[Hi|[Hi|[]]]].
    + destruct (clientConnected a); [destruct Hi as [Hi|[]]; discriminate | contradiction].
    + discriminate.
    + inversion Hi. subst. now left.
Qed.

Lemma Ids_pollTick cfg e a : Ids cfg a -> Ids cfg (pollTick cfg e a).
Proof.
  intros H. unfold pollTick.
  destruct (getCurrentActivity cfg e (activityTracker a)) as [d t].
  assert (H1 : Ids cfg (setActivityTracker t a)).
  { apply (Ids_frame _ _ _ H); cbn; [apply (ids_current _ _ H) | right; eauto | auto]. }
  set (a1 := setActivityTracker t a) in *.
  assert (H2 : Ids cfg (if negb (String.eqb (clientIdFor cfg (appType d))
                                   (currentClientId a1))
                        then snd (switchClient (clientIdFor cfg (appType d)) (now e) a1)
                        else a1)).
  { destruct (negb _); [|exact H1].
    apply Ids_switchClient; [exact H1 | apply clientIdFor_configured]. }
  destruct (clientConnected _); [|exact H2].
  apply Ids_call; [exact H2 | discriminate].
Qed.

Lemma Ids_stop cfg a : Ids cfg a -> Ids cfg (stop a).
Proof.
  intros H. unfold stop. apply Ids_call; [|discriminate].
  apply (Ids_frame _ _ _ H); cbn.
  - apply (ids_current _ _ H).
  - intros t id Hi Hcb. apply cancelOpt_In in Hi. destruct Hi as [Hi _].
    apply cancelOpt_In in Hi. right. exists t. tauto.
  - auto.
Qed.

Lemma Ids_fire cfg h now o a : Ids cfg a -> Ids cfg (fire cfg h now o a).
Proof.
  intros H. unfold fire.
  destruct (findTimer h (timers a)) as [t|] eqn:Hf; [|exact H].
  destruct (isDue t now); [|exact H].
  apply findTimer_Some in Hf. destruct Hf as [Hin _].
  assert (H1 : forall x, Ids cfg (setIsReconnecting x
                                    (setTimers (afterFire t now (timers a)) a))).
  { intros x. apply (Ids_frame _ _ _ H); cbn.
    - apply (ids_current _ _ H).
    - intros u id Hi Hcb. destruct (afterFire_from t now _ u Hi) as [v [Hv [_ [E _]]]].
      right. exists v. split; [assumption | congruence].
    - auto. }
  destruct (callback t) eqn:Hc.
  - apply Ids_pollTick. apply (H1 (isReconnecting a)).
  - apply Ids_switchNow; [apply (H1 (isReconnecting a))|].
    apply (ids_pending _ _ H t); assumption.
  - apply Ids_start, H1.
Qed.

Lemma Ids_step cfg a ev : Ids cfg a -> Ids cfg (step cfg a ev).
Proof.
  intros H. destruct ev; simpl.
  - now apply Ids_start.
  - now apply Ids_onReady.
  - now apply Ids_onError.
  - now apply Ids_onError.
  - now apply Ids_fire.
  - now apply Ids_stop.
Qed.

(** X22.  In every reachable state of the multi-application variant the
    current client id, the client id of every login made so far and the
    target of every waiting debounce timer are the default client id or the
    client id of an entry of [config.applications]. *)
Theorem logins_use_configured_ids cfg (a : App) :
  reachable cfg a ->
  configured cfg (currentClientId a)
  /\ (forall id, In (Login id) (calls a) -> configured cfg id)
  /\ (forall h id due, In (h, id, due) (pendingSwitches a) -> configured cfg id).
Proof.
  intros [t0 [evs ->]].
  assert (H : Ids cfg (run cfg (newApp cfg t0) evs)).
  { generalize (Ids_newApp cfg t0). generalize (newApp cfg t0).
    unfold run. induction evs as [|ev evs IH]; intros a H; simpl; [exact H|].
    apply IH, Ids_step, H. }
  destruct H as [H1 H2 H3]. split; [exact H1|]. split; [exact H3|].
  intros h id due Hi. unfold pendingSwitches, switchesOf in Hi.
  apply in_flat_map in Hi. destruct Hi as [t [Ht Hi]].
  destruct (callback t) eqn:Hc; try contradiction.
  destruct Hi as [Hi|[]]. inversion Hi. subst. eauto.
Qed.

(** A poll that wants another client than the current one, outside the 15 s
    window. *)
Lemma poll_requests cfg e (a : App) :
  Inv a ->
  let wanted := clientIdFor cfg
                  (appType (fst (getCurrentActivity cfg e (activityTracker a)))) in
  wanted <> currentClientId a ->
  (15000 <= now e - lastSwitchTime a)%Z ->
  pendingSwitches (pollTick cfg e a)
  = [(nextHandle a, wanted, (inject_Z (now e) + 3000)%Q)].
Proof.
  intros HI wanted Hne Hrate. subst wanted. unfold pollTick.
  destruct (getCurrentActivity cfg e (activityTracker a)) as [d t].
  cbn [fst] in *.
  set (a1 := setActivityTracker t a).
  assert (N : negb (String.eqb (clientIdFor cfg (appType d)) (currentClientId a1))
              = true).
  { apply negb_true_iff, String.eqb_neq. exact Hne. }
  rewrite N.
  assert (HI1 : Inv a1) by (apply Inv_setActivityTracker, HI).
  assert (Hg : String.eqb (clientIdFor cfg (appType d)) (currentClientId a1)
               && clientConnected a1 = false).
  { apply negb_true_iff in N. now rewrite N. }
  destruct (switchClient_proceeds (clientIdFor cfg (appType d)) (now e) a1 HI1 Hg Hrate)
    as [_ [_ [P _]]].
  destruct (switchClient_fields (clientIdFor cfg (appType d)) (now e) a1)
    as [_ [F2 _]].
  rewrite F2. destruct (clientConnected a1); exact P.
Qed.

Lemma assoc_first {A} (k : string) (v : A) before after :
  (forall e, In e before -> fst e <> k) ->
  assoc k (before ++ (k, v) :: after) = Some v.
Proof.
  intros H. induction before as [|[k' v'] before IH]; cbn [app assoc].
  - now rewrite String.eqb_refl.
  - destruct (String.eqb_spec k k') as [->|_].
    + exfalso. apply (H (k', v')); [now left | reflexivity].
    + apply IH. intros e He. apply H. now right.
Qed.

(** X21.  Multi-application variant.  The first entry of
    [config.applications] one of whose tokens occurs in the process name or
    in the window title (both lower-cased) gives the category of the poll,
    whatever the rules say (the process VALORANT-Win64-Shipping and a
    category named "default" apart).  If its client id is not the current
    one, outside the 15 s window the poll sets the debounce timer for a
    switch to it, due 3000 ms later; if it is the current one the poll leaves
    the timers alone. *)
Theorem poll_requests_category_client cfg e (a : App) w before type app after :
  reachable cfg a ->
  activeWindow e = Some w ->
  let p := orUnknown (ProcessName w) in
  let title := orUnknown (MainWindowTitle w) in
  let claims (entry : string * Application) :=
    existsb (fun token =>
               Js.includes (Js.toLowerCase p) (Js.toLowerCase token)
               || Js.includes (Js.toLowerCase title) (Js.toLowerCase token))
            (processNames (snd entry)) in
  applications cfg = before ++ (type, app) :: after ->
  (forall entry, In entry before -> claims entry = false /\ fst entry <> type) ->
  claims (type, app) = true ->
  type <> "default" -> p <> "VALORANT-Win64-Shipping" ->
  let a' := pollTick cfg e a in
  appType (fst (getCurrentActivity cfg e (activityTracker a))) = type
  /\ (clientId app <> currentClientId a ->
      (15000 <= now e - lastSwitchTime a)%Z ->
      pendingSwitches a'
      = [(nextHandle a, clientId app, (inject_Z (now e) + 3000)%Q)])
  /\ (clientId app = currentClientId a -> timers a' = timers a).
Proof.
  intros Hr Hw p title claims Happs Hbefore Hclaims Hd Hp a'.
  pose proof (reachable_Inv cfg a Hr) as HI.
  assert (Hcat : categoryOf cfg p title = type).
  { unfold categoryOf. rewrite Happs.
    rewrite (find_first _ before after (type, app)); [reflexivity| |exact Hclaims].
    intros entry He. apply (Hbefore entry He). }
  assert (Hty : appType (fst (getCurrentActivity cfg e (activityTracker a))) = type).
  { unfold getCurrentActivity. rewrite Hw. fold p title.
    unfold classify. rewrite Hcat.
    match goal with
    | |- context [gameOverride p title (type, ?v)] => generalize v; intros v0
    end.
    unfold gameOverride. apply String.eqb_neq in Hp. rewrite Hp.
    unfold deriveAppType. apply String.eqb_neq in Hd. rewrite Hd. reflexivity. }
  assert (Hid : clientIdFor cfg type = clientId app).
  { unfold clientIdFor. rewrite Happs, assoc_first; [reflexivity|].
    intros entry He. apply (Hbefore entry He). }
  split; [exact Hty|]. split.
  - intros Hne Hrate. pose proof (poll_requests cfg e a HI) as P.
    cbv zeta in P. rewrite Hty, Hid in P. now apply P.
  - intros He. unfold a', pollTick.
    destruct (getCurrentActivity cfg e (activityTracker a)) as [d t].
    cbn [fst] in Hty. rewrite Hty, Hid.
    assert (N : negb (String.eqb (clientId app)
                        (currentClientId (setActivityTracker t a))) = false).
    { apply negb_false_iff, String.eqb_eq. exact He. }
    rewrite N. destruct (clientConnected _); reflexivity.
Qed.
End MultiEvents.

(** ** Reconnecting, by kind of failure *)




(** ** The single-application variant as a transition system *)

Module SingleFacts.
Import Single.

Lemma single_Inv_newApp t0 : Inv (newApp t0).
Proof.
  constructor; simpl; try (intros; contradiction); try discriminate. constructor.
Qed.

(** The queue loses timers or re-arms them. *)
Lemma single_Inv_shrink a a' :
  Inv a ->
  nextHandle a' = nextHandle a ->
  updateIntervalId a' = updateIntervalId a ->
  List.NoDup (map handle (timers a')) ->
  (forall t, In t (timers a') ->
     exists u, In u (timers a) /\ handle u = handle t
               /\ callback u = callback t) ->
  Inv a'.
Proof.
  intros [] Hn Hp Hd Hsub. constructor; rewrite ?Hn, ?Hp; auto.
  - intros t Ht. destruct (Hsub t Ht) as [u [Hu [E _]]]. rewrite <- E. auto.
  - intros t Ht Hc. destruct (Hsub t Ht) as [u [Hu [E1 E2]]].
    rewrite <- E1. apply inv_poll_timer0; congruence.
  - intros t Ht Hh. destruct (Hsub t Ht) as [u [Hu [E1 E2]]].
    rewrite <- E2. apply inv_poll_kind0; congruence.
Qed.

(** A reconnect timer under the next handle. *)
Lemma single_Inv_reconnect now a : Inv a -> Inv (reconnect now a).
Proof.
  intros []. unfold reconnect, schedule. constructor; simpl.
  - intros t Ht. apply in_app_or in Ht.
    destruct Ht as [Ht|[<-|[]]]; [specialize (inv_fresh0 t Ht)|]; simpl; lia.
  - intros h Hh. specialize (inv_poll_handle0 h Hh). lia.
  - apply push_nodup; [assumption|]. intros u Hu. simpl.
    specialize (inv_fresh0 u Hu). lia.
  - intros t Ht Hc. apply in_app_or in Ht.
    destruct Ht as [Ht|[<-|[]]]; [auto | discriminate].
  - intros t Ht Hh. apply in_app_or in Ht.
    destruct Ht as [Ht|[<-|[]]]; [auto|]. simpl in Hh.
    specialize (inv_poll_handle0 _ Hh). lia.
Qed.

Lemma single_Inv_call c a : Inv a -> Inv (call c a).
Proof. intros []. constructor; auto. Qed.

Lemma single_Inv_start cfg now ok a : Inv a -> Inv (start cfg now ok a).
Proof.
  intros H. unfold start. destruct ok; [|apply single_Inv_reconnect]; apply single_Inv_call, H.
Qed.

Lemma single_Inv_startActivityTracking cfg now a :
  Inv a -> Inv (startActivityTracking cfg now a).
Proof.
  intros H. pose proof H as [F Ph N Pt Pk].
  unfold startActivityTracking. constructor; simpl.
  - intros t Ht. apply in_app_or in Ht. destruct Ht as [Ht|[<-|[]]]; simpl; [|lia].
    apply cancelOpt_In in Ht. destruct Ht as [Ht _]. specialize (F t Ht). lia.
  - intros h Hh. inversion Hh. lia.
  - apply push_nodup; [apply cancelOpt_nodup, N|]. intros u Hu. simpl.
    apply cancelOpt_In in Hu. destruct Hu as [Hu _]. specialize (F u Hu). lia.
  - intros t Ht Hc. apply in_app_or in Ht. destruct Ht as [Ht|[<-|[]]]; [|reflexivity].
    apply cancelOpt_In in Ht. destruct Ht as [Ht Hne].
    exfalso. apply Hne. symmetry. rewrite (Pt t Ht Hc). reflexivity.
  - intros t Ht Hh. apply in_app_or in Ht. destruct Ht as [Ht|[<-|[]]]; [|reflexivity].
    apply cancelOpt_In in Ht. destruct Ht as [Ht _]. inversion Hh.
    specialize (F t Ht). lia.
Qed.

Lemma single_Inv_pollTick cfg e a : Inv a -> Inv (pollTick cfg e a).
Proof.
  intros []. unfold pollTick.
  destruct (getCurrentActivity cfg e (activityTracker a)) as [act t].
  constructor; auto.
Qed.

Lemma single_Inv_stop a : Inv a -> Inv (stop a).
Proof.
  intros H. pose proof H as [F Ph N Pt Pk]. unfold stop. constructor; simpl.
  - intros t Ht. apply cancelOpt_In in Ht. apply F, Ht.
  - discriminate.
  - apply cancelOpt_nodup, N.
  - intros t Ht Hc. apply cancelOpt_In in Ht. destruct Ht as [Ht Hne].
    exfalso. apply Hne. rewrite (Pt t Ht Hc). reflexivity.
  - discriminate.
Qed.

Lemma single_Inv_afterFire t now a :
  Inv a -> Inv (setTimers (afterFire t now (timers a)) a).
Proof.
  intros H. apply (single_Inv_shrink a); simpl; auto.
  - apply afterFire_nodup, (inv_nodup a H).
  - intros u Hu. destruct (afterFire_from t now _ u Hu) as [v [Hv [E1 [E2 _]]]].
    exists v. auto.
Qed.

Lemma single_Inv_fire cfg h now o a : Inv a -> Inv (fire cfg h now o a).
Proof.
  intros H. unfold fire.
  destruct (findTimer h (timers a)) as [t|]; [|exact H].
  destruct (isDue t now); [|exact H].
  pose proof (single_Inv_afterFire t now a H) as H1.
  destruct (callback t); [apply single_Inv_pollTick | apply single_Inv_start]; exact H1.
Qed.

Lemma single_Inv_step cfg a ev : Inv a -> Inv (step cfg a ev).
Proof.
  intros H. destruct ev; simpl.
  - now apply single_Inv_start.
  - now apply single_Inv_startActivityTracking.
  - now apply single_Inv_reconnect.
  - now apply single_Inv_fire.
  - now apply single_Inv_stop.
Qed.

Lemma single_Inv_run cfg evs : forall a, Inv a -> Inv (run cfg a evs).
Proof.
  unfold run. induction evs as [|ev evs IH]; intros a H; simpl.
  - exact H.
  - apply IH, single_Inv_step, H.
Qed.

Lemma single_reachable_Inv cfg a : reachable cfg a -> Inv a.
Proof. intros [t0 [evs ->]]. apply single_Inv_run, single_Inv_newApp. Qed.

Lemma failure_adds_reconnect cfg a ev :
  isFailure ev = true ->
  length (pendingReconnects (step cfg a ev)) = S (length (pendingReconnects a)).
Proof.
  destruct ev as [now [|]|now|now|h now o|]; try discriminate; intros _; simpl;
    unfold pendingReconnects; simpl; rewrite List.filter_app, List.length_app;
    simpl; lia.
Qed.

(** X23.  Single-application variant.  [reconnect] has no guard: every
    failed [start()] and every error event adds a reconnect timer of its
    own, so after n failures in a row n more timers wait, each of which will
    call [start()]. *)
Theorem single_reconnects_pile_up cfg (evs : list Event) :
  forallb isFailure evs = true ->
  forall a,
    length (pendingReconnects (run cfg a evs))
    = length (pendingReconnects a) + length evs.
Proof.
  unfold run. induction evs as [|ev evs IH]; simpl; intros H a; [lia|].
  apply andb_true_iff in H. destruct H as [H1 H2].
  rewrite (IH H2), (failure_adds_reconnect cfg a ev H1). lia.
Qed.

(** [stop] cancels the poll interval and no other timer. *)
Lemma single_stop_timers a t :
  Inv a ->
  (In t (timers (stop a)) <-> In t (timers a) /\ callback t = ReconnectFire).
Proof.
  intros H. unfold stop. simpl. rewrite cancelOpt_In. split.
  - intros [Ht Hp]. split; [assumption|].
    destruct (callback t) eqn:Hc; [|reflexivity]. exfalso.
    apply Hp. now apply (inv_poll_timer a H).
  - intros [Ht Hc]. split; [assumption|].
    intros E. pose proof (inv_poll_kind a H t Ht E). congruence.
Qed.

(** X24.  Single-application variant.  In every reachable state at most one
    poll interval waits, and after [stop()] the timers left are exactly the
    reconnect timers that were waiting: the poll interval is cancelled, a
    reconnect timer is not. *)
Theorem single_stop_leaves_reconnect_timers cfg (a : App) :
  reachable cfg a ->
  length (pendingPolls a) <= 1
  /\ forall t, In t (timers (stop a)) <->
               In t (timers a) /\ callback t = ReconnectFire.
Proof.
  intros Hr. pose proof (single_reachable_Inv cfg a Hr) as H. split.
  - unfold pendingPolls. destruct (updateIntervalId a) as [h|] eqn:E.
    + apply (one_handle_one_timer _ h); [apply (inv_nodup a H)|].
      intros t Ht Hp. destruct (callback t) eqn:Hc; try discriminate.
      pose proof (inv_poll_timer a H t Ht Hc). congruence.
    + destruct (List.filter _ (timers a)) as [|t r] eqn:Ef; [simpl; lia|].
      assert (Ht : In t (List.filter (fun t => match callback t with
                                  | PollTick => true | _ => false end) (timers a)))
        by (rewrite Ef; now left).
      apply filter_In in Ht. destruct Ht as [Ht Hp].
      destruct (callback t) eqn:Hc; try discriminate.
      pose proof (inv_poll_timer a H t Ht Hc). congruence.
  - intros t. now apply single_stop_timers.
Qed.
End SingleFacts.

(** ** Samples of the classification *)

(** The order of the rules decides: the Spotify rule comes first and matches
    the title of a Discord window. *)
Lemma first_matching_rule_wins_witness :
  let v := snd (Multi.classify multiRules "Discord" "Spotify playlist - Discord") in
  Vars.activityType v = "music" /\ Vars.largeImageKey v = "spotify".
Proof.
  assert (Hb : forall r, In r [] ->
             ruleMatches "Discord" "Spotify playlist - Discord" r = false)
    by (intros r []).
  assert (Hm : ruleMatches "Discord" "Spotify playlist - Discord" spotifyRule = true)
    by (vm_compute; reflexivity).
  assert (Hp : "Discord" <> "VALORANT-Win64-Shipping") by discriminate.
  exact (proj1 first_matching_rule_wins multiRules "Discord"
           "Spotify playlist - Discord" [] spotifyRule
           [discordRule; codeRule; chromeRule] eq_refl Hb Hm Hp).
Defined.

Lemma unmatched_window_witness :
  Multi.classify multiRules "mspaint" "ab"
  = ("default", Vars.mk "app" "windows" "Using mspaint" "Idle" false).
Proof.
  assert (Hn : forall r,
             In r (Multi.priorityApps multiRules ++ Multi.customApps multiRules) ->
             ruleMatches "mspaint" "ab" r = false).
  { intros r Hr. cbn in Hr.
    destruct Hr as [<-|[<-|[<-|[<-|[<-|[]]]]]]; vm_compute; reflexivity. }
  assert (Hp : "mspaint" <> "VALORANT-Win64-Shipping") by discriminate.
  exact (proj1 unmatched_window multiRules "mspaint" "ab" Hn Hp).
Defined.

Lemma discord_title_by_variant_witness :
  Vars.state (snd (Multi.classify multiRules "Discord"
                     "general - My Server - Discord"))
  = "In #general on My Server"
  /\ Vars.state (Single.debugState "DiscordPTB"
                   (Single.classify singleRules "DiscordPTB" "Friends - Discord"))
     = "Chatting in Friends (DiscordPTB)".
Proof.
  assert (F1 : find (ruleMatches "Discord" "general - My Server - Discord")
                 (Multi.priorityApps multiRules) = Some discordRule)
    by (vm_compute; reflexivity).
  assert (F2 : find (ruleMatches "DiscordPTB" "Friends - Discord")
                 (Single.priorityApps singleRules) = Some discordRule)
    by (vm_compute; reflexivity).
  assert (S1 : Js.includes (Js.toLowerCase (Rule.processName discordRule)) "spotify"
               = false) by (vm_compute; reflexivity).
  assert (S2 : Js.includes (Js.toLowerCase (Rule.processName discordRule)) "discord"
               = true) by (vm_compute; reflexivity).
  split.
  - exact (proj1 discord_title_by_variant multiRules discordRule "Discord"
             "general - My Server - Discord" "In #general on My Server" F1 S1 S2
             ltac:(discriminate)
             (shows_channel "general" "My Server" "Discord" eq_refl eq_refl)).
  - exact (proj2 discord_title_by_variant singleRules discordRule "DiscordPTB"
             "Friends - Discord" "Chatting in Friends" F2 S1 S2
             ltac:(discriminate) ltac:(discriminate)
             (shows_chat "Friends" "Discord" eq_refl eq_refl)).
Defined.

Lemma steam_title_witness :
  let v := Single.debugState "steamwebhelper"
             (Single.classify singleRules "steamwebhelper" "Half-Life 2 - Steam") in
  Vars.state v = "Playing Half-Life 2 (steamwebhelper)"
  /\ Vars.details v = "Gaming on Steam" /\ Vars.activityType v = "gaming".
Proof.
  assert (F : find (ruleMatches "steamwebhelper" ("Half-Life 2" +:+ " - " +:+ "Steam"))
                (Single.priorityApps singleRules) = Some steamRule)
    by (vm_compute; reflexivity).
  assert (S1 : Js.includes (Js.toLowerCase (Rule.processName steamRule)) "spotify"
               = false) by (vm_compute; reflexivity).
  assert (S2 : Js.includes (Js.toLowerCase (Rule.processName steamRule)) "discord"
               = false) by (vm_compute; reflexivity).
  assert (S3 : Js.includes (Js.toLowerCase (Rule.processName steamRule)) "steam"
               = true) by (vm_compute; reflexivity).
  exact (steam_title "Half-Life 2" "Steam" eq_refl eq_refl eq_refl singleRules steamRule
           "steamwebhelper" F S1 S2 S3 ltac:(discriminate) ltac:(discriminate)
           ltac:(discriminate) ltac:(discriminate)).
Defined.

(** A file alone in the window, and a file of an open folder. *)
Lemma code_title_extension_witness :
  Vars.state (Single.debugState "Code"
                (Single.classify singleConfig "Code" "main.ts - Visual Studio Code"))
  = "Coding in TypeScript (Code)"
  /\ Vars.state (Single.debugState "Code"
                   (Single.classify singleConfig "Code"
                      "main.ts - proj - Visual Studio Code"))
     = "Coding in ts - proj (Code)"
  /\ Vars.state (snd (Multi.classify multiRules "Code"
                        "main.ts - proj - Visual Studio Code"))
     = "Coding in ts - proj".
Proof.
  assert (N : "ts" <> "") by discriminate.
  assert (N' : "ts - proj" <> "") by discriminate.
  assert (L : assoc (Js.toLowerCase "ts") langMap = Some "TypeScript"
              \/ (Js.includes "ts" " " = true /\ "TypeScript" = Js.toLowerCase "ts"))
    by (left; reflexivity).
  assert (L' : assoc (Js.toLowerCase "ts - proj") langMap = Some "ts - proj"
               \/ (Js.includes "ts - proj" " " = true
                   /\ "ts - proj" = Js.toLowerCase "ts - proj"))
    by (right; split; reflexivity).
  assert (F : find (ruleMatches "Code"
                      ("main" +:+ "." +:+ "ts - proj" +:+ " -"
                       +:+ " Visual Studio Code"))
                (Multi.priorityApps multiRules) = Some codeRule)
    by (vm_compute; reflexivity).
  pose proof (code_title_extension "main" "ts" " Visual Studio Code" "TypeScript"
                eq_refl eq_refl N eq_refl eq_refl L) as H.
  pose proof (code_title_extension "main" "ts - proj" " Visual Studio Code"
                "ts - proj" eq_refl eq_refl N' eq_refl eq_refl L') as H'.
  cbv zeta in H, H'. destruct H as [_ [H _]]. destruct H' as [_ [H1 H2]].
  split; [exact (H singleConfig)|]. split; [exact (H1 singleConfig)|].
  exact (H2 multiRules codeRule "Code" F eq_refl ltac:(discriminate)).
Defined.

Lemma chrome_title_site_witness :
  Vars.state (snd (Multi.classify multiRules "chrome"
                     "Re: plans - next week - Gmail - Google Chrome"))
  = "On Gmail".
Proof.
  assert (N1 : "Re: plans - next week" <> "") by discriminate.
  assert (N2 : "Gmail" <> "") by discriminate.
  assert (Y : Js.includes
                (Js.toLowerCase ("Re: plans - next week" +:+ " - " +:+ "Gmail"
                                 +:+ " - Google Chrome")) "youtube" = false)
    by (vm_compute; reflexivity).
  assert (F : find (ruleMatches "chrome"
                      ("Re: plans - next week" +:+ " - " +:+ "Gmail"
                       +:+ " - Google Chrome"))
                (Multi.priorityApps multiRules) = Some chromeRule)
    by (vm_compute; reflexivity).
  pose proof (chrome_title_site "Re: plans - next week" "Gmail" eq_refl N1 eq_refl
                N2 Y) as H.
  destruct H as [H _].
  exact (H multiRules chromeRule "chrome" F eq_refl eq_refl eq_refl eq_refl
           ltac:(discriminate)).
Defined.

Lemma youtube_title_by_variant_witness :
  let v := Single.debugState "chrome"
             (Single.classify singleRules "chrome"
                "Cat video - YouTube - Google Chrome") in
  Vars.state v = "Watching: Cat video (chrome)"
  /\ Vars.details v = "Watching YouTube".
Proof.
  assert (N : "Cat video" <> "") by discriminate.
  pose proof (youtube_title_by_variant "Cat video" eq_refl N) as H.
  cbv zeta in H. destruct H as [H _]. destruct (H singleRules) as [H1 [H2 _]].
  split; [exact H1 | exact H2].
Defined.

(** The first poll of a day already shows ten seconds. *)
Lemma today_text_counts_current_poll_witness :
  ActivityData.smallImageText
    (Multi.activity
       (fst (Multi.getCurrentActivity multiConfig
               (sees "Documents" "explorer" 5000) (newTracker 0))))
  = Some "DESKTOP | Today: 10s".
Proof.
  exact (proj1 today_text_counts_current_poll multiConfig
           (sees "Documents" "explorer" 5000) (newTracker 0)
           {| MainWindowTitle := "Documents"; ProcessName := "explorer" |} eq_refl).
Defined.

Lemma single_chrome_title_witness :
  let v := Single.debugState "chrome"
             (Single.classify singleRules "chrome"
                "Inbox - Gmail - Google Chrome") in
  Vars.state v = "Inbox - Gmail (chrome)"
  /\ Vars.details v = "Browsing with Chrome".
Proof.
  assert (Hx : Js.includes ("Inbox - Gmail" +:+ " - Google Chrom")
                 " - Google Chrome" = false) by (vm_compute; reflexivity).
  assert (Hy : Js.includes
                 (Js.toLowerCase ("Inbox - Gmail" +:+ " - Google Chrome" +:+ ""))
                 "youtube" = false) by (vm_compute; reflexivity).
  assert (Ht : Js.includes
                 (Js.toLowerCase ("Inbox - Gmail" +:+ " - Google Chrome" +:+ ""))
                 "twitch" = false) by (vm_compute; reflexivity).
  assert (Hg : Js.includes
                 (Js.toLowerCase ("Inbox - Gmail" +:+ " - Google Chrome" +:+ ""))
                 "github" = false) by (vm_compute; reflexivity).
  pose proof (single_chrome_title "Inbox - Gmail" "" Hx Hy Ht Hg singleRules) as H.
  cbv zeta in H. destruct H as [H1 [H2 _]].
  split; [exact H1 | exact H2].
Defined.

(** A window of a store application under ApplicationFrameHost. *)
Lemma frame_host_details_witness :
  Vars.details (Single.classify frameConfig "ApplicationFrameHost"
                  "Wi-Fi - Settings")
  = "Using Wi-Fi".
Proof.
  assert (Hn : forall r, In r (Single.priorityApps frameConfig) ->
             ruleMatches "ApplicationFrameHost" "Wi-Fi - Settings" r = false)
    by (intros r []).
  assert (Hb : forall r, In r [] ->
             ruleMatches "ApplicationFrameHost" "Wi-Fi - Settings" r = false)
    by (intros r []).
  assert (Hm : ruleMatches "ApplicationFrameHost" "Wi-Fi - Settings" frameRule
               = true) by (vm_compute; reflexivity).
  pose proof (frame_host_details frameConfig "ApplicationFrameHost"
                "Wi-Fi - Settings" [] frameRule [] Hn eq_refl Hb Hm eq_refl)
    as H.
  cbv zeta in H. destruct H as [_ [H _]].
  exact (H "Wi-Fi" "Settings" eq_refl eq_refl).
Defined.

(** No category names Discord; the rule's type "chat" gives "messaging". *)
Lemma rule_type_gives_category_witness :
  fst (Multi.classify multiRules "Discord" "general - My Server - Discord")
  = "messaging".
Proof.
  assert (Hc : forall entry, In entry (Multi.applications multiRules) ->
             existsb (fun token =>
                        Js.includes (Js.toLowerCase "Discord") (Js.toLowerCase token)
                        || Js.includes
                             (Js.toLowerCase "general - My Server - Discord")
                             (Js.toLowerCase token))
                     (Multi.processNames (snd entry)) = false).
  { intros entry He. cbn in He. destruct He as [<-|[<-|[]]]; vm_compute; reflexivity. }
  assert (Hb : forall r, In r [spotifyRule] ->
             ruleMatches "Discord" "general - My Server - Discord" r = false).
  { intros r [<-|[]]. vm_compute. reflexivity. }
  assert (Hm : ruleMatches "Discord" "general - My Server - Discord" discordRule
               = true) by (vm_compute; reflexivity).
  assert (Hin : In (Rule.type discordRule, "messaging")
                  [("gaming", "games"); ("music", "music"); ("coding", "code");
                   ("browsing", "web"); ("chat", "messaging");
                   ("design", "creative"); ("streaming", "creative")])
    by (right; right; right; right; left; reflexivity).
  exact (rule_type_gives_category multiRules "Discord"
           "general - My Server - Discord" [spotifyRule] discordRule
           [codeRule; chromeRule] "messaging" Hc eq_refl Hb Hm
           ltac:(discriminate) Hin).
Defined.

(** ** Sample runs of the two variants *)

Lemma formatDuration_ranges_witness :
  formatDuration 59999 = "59s" /\ formatDuration 3599999 = "59m 59s"
  /\ formatDuration 90000000 = "25h 0m" /\ formatDuration (-1) = "-1s".
Proof.
  assert (H1 : (59999 < 60000)%Z) by lia.
  assert (H2 : (60000 <= 3599999 < 3600000)%Z) by lia.
  assert (H3 : (3600000 <= 90000000)%Z) by lia.
  assert (H4 : (-1 < 60000)%Z) by lia.
  pose proof (proj1 (formatDuration_ranges 59999) H1) as E1.
  pose proof (proj1 (proj1 (proj2 (formatDuration_ranges 3599999)) H2)) as E2.
  pose proof (proj1 (proj2 (proj2 (formatDuration_ranges 90000000)) H3)) as E3.
  pose proof (proj1 (formatDuration_ranges (-1)) H4) as E4.
  split; [exact E1|]. split; [exact E2|]. split; [exact E3 | exact E4].
Defined.

Lemma reachable_steamSeen : Multi.reachable multiConfig steamSeen.
Proof.
  unfold steamSeen, connected. rewrite <- MultiFacts.run_app. apply reachable_run.
Qed.

Lemma reachable_busy : Multi.reachable multiConfig busy.
Proof.
  unfold busy, steamSeen, connected. rewrite <- !MultiFacts.run_app.
  apply reachable_run.
Qed.

Lemma reachable_musicDropped : Multi.reachable multiConfig musicDropped.
Proof.
  unfold musicDropped, switchedToMusic, connected. rewrite <- !MultiFacts.run_app.
  apply reachable_run.
Qed.

Lemma reachable_recovered : Multi.reachable multiConfig recovered.
Proof. apply reachable_run. Qed.

Lemma multi_queue_bounded_witness :
  map callback (Multi.timers busy)
  = [Multi.PollTick; Multi.SwitchFire "2000"; Multi.ReconnectFire]
  /\ length (Multi.timers busy) <= 3
  /\ length (Multi.pendingReconnects busy) <= 1.
Proof.
  assert (H : map callback (Multi.timers busy)
              = [Multi.PollTick; Multi.SwitchFire "2000"; Multi.ReconnectFire])
    by (vm_compute; reflexivity).
  destruct (MultiEvents.multi_queue_bounded multiConfig busy reachable_busy)
    as [_ [_ [R [T _]]]].
  split; [exact H|]. split; [exact T | exact R].
Defined.

Lemma single_reconnects_pile_up_witness :
  length (Single.pendingReconnects
            (Single.run singleConfig (Single.newApp 0)
               [Single.Error 5000; Single.Error 5010; Single.Start 5020 false]))
  = 3.
Proof.
  assert (H : forallb Single.isFailure
                [Single.Error 5000; Single.Error 5010; Single.Start 5020 false]
              = true) by reflexivity.
  exact (SingleFacts.single_reconnects_pile_up singleConfig _ H (Single.newApp 0)).
Defined.

Lemma single_stop_leaves_reconnect_timers_witness :
  map callback (Single.timers singleWaiting)
  = [Single.ReconnectFire; Single.PollTick]
  /\ forall t, In t (Single.timers (Single.stop singleWaiting)) ->
               callback t = Single.ReconnectFire.
Proof.
  assert (H : map callback (Single.timers singleWaiting)
              = [Single.ReconnectFire; Single.PollTick])
    by (vm_compute; reflexivity).
  assert (Hr : Single.reachable singleConfig singleWaiting).
  { exists 0%Z, [Single.Start 0 false; Single.Ready 100]. reflexivity. }
  split; [exact H|]. intros t Ht.
  exact (proj2 (proj1 (proj2 (SingleFacts.single_stop_leaves_reconnect_timers
                                singleConfig singleWaiting Hr) t) Ht)).
Defined.

Lemma ready_resets_backoff_witness :
  Multi.reconnectAttempts recovered = 3
  /\ Multi.reconnectAttempts
       (Multi.step multiConfig (Multi.onReady multiConfig 360100 recovered)
          (Multi.Error 400000)) = 1.
Proof.
  assert (H1 : Multi.reconnectAttempts recovered = 3) by (vm_compute; reflexivity).
  assert (H2 : Multi.isReconnecting recovered = false) by (vm_compute; reflexivity).
  assert (H3 : In (Multi.Error 400000)
                 [Multi.Error 400000; Multi.Disconnected 400000;
                  Multi.Start 400000 false]) by (left; reflexivity).
  split; [exact H1|].
  exact (proj1 (MultiEvents.ready_resets_backoff multiConfig recovered 360100
                  400000 (Multi.Error 400000) reachable_recovered H2 H3)).
Defined.

Lemma reconnect_restores_default_client_witness :
  Multi.currentClientId musicDropped = "3000"
  /\ Multi.currentClientId
       (Multi.fire multiConfig 3 1045000 (loginWorks 1045100) musicDropped)
     = "1000".
Proof.
  set (t := {| handle := 3; setAt := 1030000; delay := Multi.backoffTime 1;
               repeat := false; callback := Multi.ReconnectFire |}).
  assert (H1 : Multi.currentClientId musicDropped = "3000")
    by (vm_compute; reflexivity).
  assert (H2 : In t (Multi.pendingReconnects musicDropped))
    by (vm_compute; left; reflexivity).
  assert (H3 : isDue t 1045000 = true) by (vm_compute; reflexivity).
  pose proof (MultiEvents.reconnect_restores_default_client multiConfig
                musicDropped t 1045000 (loginWorks 1045100)
                reachable_musicDropped H2 H3) as H.
  cbv zeta in H. destruct H as [_ [H _]].
  split; [exact H1|]. exact (proj1 (H eq_refl)).
Defined.

Lemma failed_switch_leaves_disconnected_witness :
  Multi.clientConnected steamSeen = true
  /\ Multi.clientConnected
       (Multi.fire multiConfig 1 1023000 loginFails steamSeen) = false
  /\ Multi.currentClientId
       (Multi.fire multiConfig 1 1023000 loginFails steamSeen) = "1000".
Proof.
  set (t := Multi.debounceTimer 1 "2000" 1020000).
  assert (H1 : Multi.clientConnected steamSeen = true) by (vm_compute; reflexivity).
  assert (H2 : In t (Multi.timers steamSeen)) by (vm_compute; right; left; reflexivity).
  assert (H3 : isDue t 1023000 = true) by (vm_compute; reflexivity).
  assert (H4 : Multi.currentClientId steamSeen = "1000") by (vm_compute; reflexivity).
  pose proof (MultiEvents.failed_switch_leaves_disconnected multiConfig steamSeen t
                "2000" 1023000 loginFails reachable_steamSeen H2 eq_refl H3
                eq_refl) as H.
  cbv zeta in H. destruct H as [C [I _]].
  split; [exact H1|]. split; [exact C|]. rewrite <- H4. exact I.
Defined.

Lemma failed_detection_requests_default_client_witness :
  Multi.currentClientId switchedToMusic = "3000"
  /\ Multi.pendingSwitches
       (Multi.pollTick multiConfig (blind 1030000) switchedToMusic)
     = [(Multi.nextHandle switchedToMusic, "1000", (inject_Z 1030000 + 3000)%Q)].
Proof.
  assert (H1 : Multi.currentClientId switchedToMusic = "3000")
    by (vm_compute; reflexivity).
  assert (H2 : Multi.currentClientId switchedToMusic
               <> Multi.defaultClientId multiConfig)
    by (rewrite H1; discriminate).
  assert (H3 : (15000 <= now (blind 1030000)
                         - Multi.lastSwitchTime switchedToMusic)%Z)
    by (vm_compute; discriminate).
  pose proof (MultiEvents.failed_detection_requests_default_client multiConfig
                (blind 1030000) switchedToMusic reachable_switchedToMusic
                eq_refl eq_refl) as H.
  cbv zeta in H. destruct H as [_ [_ H]].
  split; [exact H1|]. exact (H H2 H3).
Defined.

Lemma logins_use_configured_ids_witness :
  Multi.configured multiConfig (Multi.currentClientId switchedToMusic)
  /\ Multi.currentClientId switchedToMusic = "3000".
Proof.
  split.
  - exact (proj1 (MultiEvents.logins_use_configured_ids multiConfig
                    switchedToMusic reachable_switchedToMusic)).
  - vm_compute. reflexivity.
Defined.

Lemma poll_requests_category_client_witness :
  Multi.pendingSwitches
    (Multi.pollTick multiConfig (sees "Song - Artist - Spotify" "Spotify" 1010100)
       connected)
  = [(Multi.nextHandle connected, "3000", (inject_Z 1010100 + 3000)%Q)].
Proof.
  set (games := {| Multi.clientId := "2000"; Multi.processNames := ["steam"] |}).
  set (music := {| Multi.clientId := "3000"; Multi.processNames := ["spotify"] |}).
  assert (Hb : forall entry, In entry [("games", games)] ->
             existsb (fun token =>
                        Js.includes (Js.toLowerCase (orUnknown "Spotify"))
                          (Js.toLowerCase token)
                        || Js.includes
                             (Js.toLowerCase (orUnknown "Song - Artist - Spotify"))
                             (Js.toLowerCase token))
                     (Multi.processNames (snd entry)) = false
             /\ fst entry <> "music").
  { intros entry [<-|[]]. split; [vm_compute; reflexivity | discriminate]. }
  assert (Hne : Multi.clientId music <> Multi.currentClientId connected)
    by (vm_compute; discriminate).
  assert (Hrate : (15000 <= now (sees "Song - Artist - Spotify" "Spotify" 1010100)
                            - Multi.lastSwitchTime connected)%Z)
    by (vm_compute; discriminate).
  pose proof (MultiEvents.poll_requests_category_client multiConfig
                (sees "Song - Artist - Spotify" "Spotify" 1010100) connected
                {| MainWindowTitle := "Song - Artist - Spotify";
                   ProcessName := "Spotify" |}
                [("games", games)] "music" music [] reachable_connected
                eq_refl eq_refl Hb eq_refl ltac:(discriminate)
                ltac:(discriminate)) as H.
  cbv zeta in H. destruct H as [_ [H _]]. exact (H Hne Hrate).
Defined.

